(** * Article enrichment pipeline of the Google News collector

    A shallow embedding of [article_crawler.py] (the crawler, its selector
    cascade and its text normaliser), of the tagging and ranking functions
    of [ai_summarizer.py] and of [create_simple_summary] of [main.py],
    followed by the properties the specification states about them. *)

From Stdlib Require Import List String Ascii NArith ZArith QArith Lia.
From Stdlib Require Import Permutation Sorted DecimalString.
From stdpp Require Import gmap.
Import ListNotations.

Local Open Scope nat_scope.

(** ** Python strings

    A Python [str] is a sequence of Unicode code points, and [len] counts
    code points; a code point is a number in [N]. *)

Definition char := N.
Definition str := list char.

(** String literals of this file are written as UTF-8 text and decoded
    into code points. *)
Fixpoint utf8_decode (bs : list N) : str :=
  match bs with
  | [] => []
  | b0 :: r0 =>
    if (b0 <? 128)%N then b0 :: utf8_decode r0
    else match r0 with
    | [] => []
    | b1 :: r1 =>
      if (b0 <? 224)%N
      then ((b0 - 192) * 64 + (b1 - 128))%N :: utf8_decode r1
      else match r1 with
      | [] => []
      | b2 :: r2 =>
        if (b0 <? 240)%N
        then ((b0 - 224) * 4096 + (b1 - 128) * 64 + (b2 - 128))%N
               :: utf8_decode r2
        else match r2 with
        | [] => []
        | b3 :: r3 =>
          ((b0 - 240) * 262144 + (b1 - 128) * 4096
             + (b2 - 128) * 64 + (b3 - 128))%N :: utf8_decode r3
        end
      end
    end
  end.

Definition py (s : string) : str :=
  utf8_decode (List.map N_of_ascii (list_ascii_of_string s)).

Definition str_eqb (a b : str) : bool := bool_decide (a = b).

(** [not s] for a string: the empty string is falsy. *)
Definition truthy (s : str) : bool :=
  match s with [] => false | _ :: _ => true end.

(** [a + b] and [sep.join(parts)]. *)
Fixpoint join (sep : str) (parts : list str) : str :=
  match parts with
  | [] => []
  | [p] => p
  | p :: rest => p ++ sep ++ join sep rest
  end.

(** [needle in hay] for strings: a contiguous occurrence. *)
Fixpoint startswith (hay needle : str) : bool :=
  match needle, hay with
  | [], _ => true
  | _ :: _, [] => false
  | n :: ns, h :: hs => (n =? h)%N && startswith hs ns
  end.

Fixpoint contains (hay needle : str) : bool :=
  startswith hay needle ||
  match hay with
  | [] => false
  | _ :: hs => contains hs needle
  end.

(** [str.isspace] on one code point, which is also what [\s] of [re]
    matches in a [str] pattern and what [str.strip()] removes. *)
Definition isspace (c : char) : bool :=
  ((9 <=? c) && (c <=? 13) || (28 <=? c) && (c <=? 32)
   || (c =? 133) || (c =? 160) || (c =? 5760)
   || (8192 <=? c) && (c <=? 8202)
   || (c =? 8232) || (c =? 8233) || (c =? 8239) || (c =? 8287)
   || (c =? 12288))%N.

Definition SPACE : char := 32%N.
Definition ZERO_WIDTH_SPACE : char := 8203%N.   (* U+200B *)
Definition BOM : char := 65279%N.               (* U+FEFF *)
Definition AMPERSAND : char := 38%N.

(** [re.sub(r'\s+', ' ', text)]: every maximal run of whitespace becomes
    one space. *)
Fixpoint collapse_whitespace (text : str) : str :=
  match text with
  | [] => []
  | c :: rest =>
    if isspace c then
      match rest with
      | [] => [SPACE]
      | c' :: _ =>
        if isspace c' then collapse_whitespace rest
        else SPACE :: collapse_whitespace rest
      end
    else c :: collapse_whitespace rest
  end.

(** [text.replace(ch, '')] for a one-character pattern. *)
Definition remove_char (ch : char) (text : str) : str :=
  List.filter (fun c => negb (c =? ch)%N) text.

Fixpoint lstrip (text : str) : str :=
  match text with
  | [] => []
  | c :: rest => if isspace c then lstrip rest else text
  end.

Definition rstrip (text : str) : str := rev (lstrip (rev text)).

Definition strip (text : str) : str := rstrip (lstrip text).

(** ** Exceptions *)

Inductive exn : Type :=
| KeyError (key : string)
| AttributeError (name : string)
| ValueError (reason : string)
| RequestException (reason : string)
| ZeroDivisionError.

Inductive result (A : Type) : Type :=
| Ok (a : A)
| Raise (e : exn).
Arguments Ok {A} a.
Arguments Raise {A} e.

#[global] Instance result_ret : MRet result := @Ok.
#[global] Instance result_bind : MBind result :=
  fun A B k r => match r with Ok a => k a | Raise e => Raise e end.

(** ** Library functions

    The functions of the Python library that the code calls and whose
    definition is no part of the repository. [html_unescape] is
    [html.unescape], [lower] is [str.lower], [netloc] is
    [urlparse(url).netloc] for the address of a page that was fetched,
    [urljoin] is [urllib.parse.urljoin], which raises [ValueError] at an
    address it cannot split, and [strftime] formats a time point with the
    pattern ['%Y-%m-%d %H:%M:%S']. *)
Class PyLib := {
  html_unescape : str -> str;
  lower : str -> str;
  netloc : str -> str;
  urljoin : str -> str -> result str;
  strftime : Z -> str
}.

(** [html.unescape] starts with [if '&' not in s: return s]. *)
Definition unescape_plain `{PyLib} : Prop :=
  forall s : str, ~ In AMPERSAND s -> html_unescape s = s.

(** ** [urllib.parse]

    [urljoin] and [urlparse(url).netloc] after the library's source, for
    running the model: the scheme, host, path, parameters, query and
    fragment are split as [urlsplit] and [urlparse] split them, a
    reference is resolved against the base as [urljoin] resolves it, and
    an address with a bracket in its host raises [ValueError]. (The
    library lets a bracketed host pass when it is an IPv6 or IPvFuture
    literal, and it looks at the NFKC form of a host outside ASCII; both
    checks are left out here.) *)
Definition SLASH : char := 47%N.
Definition COLON : char := 58%N.
Definition SEMICOLON : char := 59%N.
Definition QUESTION : char := 63%N.
Definition HASH : char := 35%N.
Definition DOT : char := 46%N.

Fixpoint lstrip_chars (drop : char -> bool) (s : str) : str :=
  match s with
  | [] => []
  | c :: rest => if drop c then lstrip_chars drop rest else s
  end.

Fixpoint take_until (stop : char -> bool) (s : str) : str :=
  match s with
  | [] => []
  | c :: rest => if stop c then [] else c :: take_until stop rest
  end.

Fixpoint drop_until (stop : char -> bool) (s : str) : str :=
  match s with
  | [] => []
  | c :: rest => if stop c then s else drop_until stop rest
  end.

(** [s.split(ch, 1)]: the text before the first [ch] and, when there is
    one, the text after it. *)
Definition split_first (ch : char) (s : str) : str * option str :=
  match drop_until (N.eqb ch) s with
  | [] => (s, None)
  | _ :: after => (take_until (N.eqb ch) s, Some after)
  end.

(** [s.split(ch)] *)
Fixpoint split_on (ch : char) (s : str) : list str :=
  match s with
  | [] => [[]]
  | c :: rest =>
    if (c =? ch)%N then [] :: split_on ch rest
    else
      match split_on ch rest with
      | seg :: segs => (c :: seg) :: segs
      | [] => [[c]]
      end
  end.

Definition is_ascii_alpha (c : char) : bool :=
  ((65 <=? c) && (c <=? 90) || (97 <=? c) && (c <=? 122))%N.

Definition scheme_char (c : char) : bool :=
  (is_ascii_alpha c || (48 <=? c) && (c <=? 57)
   || (c =? 43) || (c =? 45) || (c =? 46))%N.

Definition ascii_lower (s : str) : str :=
  List.map (fun c => if ((65 <=? c) && (c <=? 90))%N then (c + 32)%N else c) s.

Definition mem (s : str) (l : list str) : bool := existsb (str_eqb s) l.

Definition uses_relative : list str :=
  [] :: List.map py
    [ "ftp"; "http"; "gopher"; "nntp"; "imap"; "wais"; "file"; "https";
      "shttp"; "mms"; "prospero"; "rtsp"; "rtspu"; "sftp"; "svn"; "svn+ssh";
      "ws"; "wss" ]%string.

Definition uses_netloc : list str :=
  [] :: List.map py
    [ "ftp"; "http"; "gopher"; "nntp"; "telnet"; "imap"; "wais"; "file";
      "mms"; "https"; "shttp"; "snews"; "prospero"; "rtsp"; "rtspu"; "rsync";
      "svn"; "svn+ssh"; "sftp"; "nfs"; "git"; "git+ssh"; "ws"; "wss" ]%string.

Definition uses_params : list str :=
  [] :: List.map py
    [ "ftp"; "hdl"; "prospero"; "http"; "imap"; "https"; "shttp"; "rtsp";
      "rtspu"; "sip"; "sips"; "mms"; "sftp"; "tel" ]%string.

Record ParseResult := {
  pr_scheme : str;
  pr_netloc : str;
  pr_path : str;
  pr_params : str;
  pr_query : str;
  pr_fragment : str
}.

(** The scheme of an address and the rest: the text before the first
    colon when it starts with a letter and holds scheme characters
    only. *)
Definition split_scheme (url default : str) : str * str :=
  match url, split_first COLON url with
  | c :: _, (before, Some after) =>
    if is_ascii_alpha c && forallb scheme_char before
    then (ascii_lower before, after)
    else (default, url)
  | _, _ => (default, url)
  end.

Definition or_empty (s : option str) : str := default [] s.

(** [_splitparams]: the parameters stand after the first semicolon of the
    last segment of the path. *)
Definition _splitparams (url : str) : str * str :=
  let last_segment := rev (take_until (N.eqb SLASH) (rev url)) in
  let before := rev (drop_until (N.eqb SLASH) (rev url)) in
  match split_first SEMICOLON last_segment with
  | (segment, Some params) => (before ++ segment, params)
  | (_, None) => (url, [])
  end.

(** [urlparse(url, scheme)] *)
Definition urlparse (url scheme : str) : result ParseResult :=
  let url := lstrip_chars (fun c => (c <=? 32)%N) url in
  let url :=
    List.filter (fun c => negb ((c =? 9) || (c =? 10) || (c =? 13))%N) url in
  let '(scheme, url) := split_scheme url scheme in
  let delimiter c := ((c =? SLASH) || (c =? QUESTION) || (c =? HASH))%N in
  let '(netloc, url) :=
    if startswith url [SLASH; SLASH]
    then (take_until delimiter (skipn 2 url),
          drop_until delimiter (skipn 2 url))
    else ([], url) in
  if existsb (fun c => (c =? 91) || (c =? 93))%N netloc
  then Raise (ValueError "Invalid IPv6 URL")
  else
    let '(url, fragment) := split_first HASH url in
    let '(url, query) := split_first QUESTION url in
    let '(url, params) :=
      if mem scheme uses_params && existsb (N.eqb SEMICOLON) url
      then _splitparams url
      else (url, []) in
    Ok {| pr_scheme := scheme; pr_netloc := netloc; pr_path := url;
          pr_params := params; pr_query := or_empty query;
          pr_fragment := or_empty fragment |}.

(** [urlunparse] *)
Definition urlunparse (r : ParseResult) : str :=
  let url :=
    if truthy (pr_params r) then pr_path r ++ [SEMICOLON] ++ pr_params r
    else pr_path r in
  let url :=
    if truthy (pr_netloc r)
       || (truthy (pr_scheme r) && mem (pr_scheme r) uses_netloc
           && negb (startswith url [SLASH; SLASH]))
    then
      [SLASH; SLASH] ++ pr_netloc r
        ++ (if truthy url && negb (startswith url [SLASH])
            then SLASH :: url else url)
    else url in
  let url :=
    if truthy (pr_scheme r) then pr_scheme r ++ [COLON] ++ url else url in
  let url :=
    if truthy (pr_query r) then url ++ [QUESTION] ++ pr_query r else url in
  if truthy (pr_fragment r) then url ++ [HASH] ++ pr_fragment r else url.

(** The segments of a joined path: empty segments go, except the first
    and the last one. *)
Definition squeeze (segments : list str) : list str :=
  match segments with
  | first :: ((_ :: _) as rest) =>
    first :: List.filter truthy (removelast rest) ++ [List.last rest []]
  | _ => segments
  end.

Definition resolve (segments : list str) : list str :=
  fold_left
    (fun resolved_path seg =>
       if str_eqb seg [DOT; DOT] then removelast resolved_path
       else if str_eqb seg [DOT] then resolved_path
       else resolved_path ++ [seg])
    segments [].

(** [urljoin(base, url)] *)
Definition simple_urljoin (base url : str) : result str :=
  if negb (truthy base) then Ok url
  else if negb (truthy url) then Ok base
  else
    match urlparse base [] with
    | Raise e => Raise e
    | Ok b =>
      match urlparse url (pr_scheme b) with
      | Raise e => Raise e
      | Ok u =>
        let scheme := pr_scheme u in
        if negb (str_eqb scheme (pr_scheme b)) || negb (mem scheme uses_relative)
        then Ok url
        else if mem scheme uses_netloc && truthy (pr_netloc u)
        then Ok (urlunparse u)
        else
          let netloc :=
            if mem scheme uses_netloc then pr_netloc b else pr_netloc u in
          if negb (truthy (pr_path u)) && negb (truthy (pr_params u))
          then
            Ok (urlunparse
                  {| pr_scheme := scheme; pr_netloc := netloc;
                     pr_path := pr_path b; pr_params := pr_params b;
                     pr_query :=
                       (if truthy (pr_query u) then pr_query u
                        else pr_query b);
                     pr_fragment := pr_fragment u |})
          else
            let base_parts := split_on SLASH (pr_path b) in
            let base_parts :=
              if truthy (List.last base_parts []) then removelast base_parts
              else base_parts in
            let segments :=
              if startswith (pr_path u) [SLASH]
              then split_on SLASH (pr_path u)
              else squeeze (base_parts ++ split_on SLASH (pr_path u)) in
            let resolved_path := resolve segments in
            let resolved_path :=
              if str_eqb (List.last segments []) [DOT]
                 || str_eqb (List.last segments []) [DOT; DOT]
              then resolved_path ++ [[]]
              else resolved_path in
            let path := join [SLASH] resolved_path in
            Ok (urlunparse
                  {| pr_scheme := scheme; pr_netloc := netloc;
                     pr_path := (if truthy path then path else [SLASH]);
                     pr_params := pr_params u; pr_query := pr_query u;
                     pr_fragment := pr_fragment u |})
      end
    end.

(** [urlparse(url).netloc] of an address that parses. *)
Definition simple_netloc (url : str) : str :=
  match urlparse url [] with
  | Ok r => pr_netloc r
  | Raise _ => []
  end.

(** An instance for running the model on ASCII text without character
    references: [lower] maps A..Z to a..z, the addresses are handled as
    above, and a time point is printed as its count of seconds. *)
Definition plain_lib : PyLib := {|
  html_unescape := fun s => s;
  lower := ascii_lower;
  netloc := simple_netloc;
  urljoin := simple_urljoin;
  strftime := fun t => py (NilEmpty.string_of_uint (N.to_uint (Z.to_N t)))
|}.

(** ** The text normaliser: [ArticleCrawler._clean_text]

    The argument is [None] for Python's [None]. *)
Definition _clean_text `{PyLib} (text : option str) : str :=
  match text with
  | None => []
  | Some [] => []
  | Some text =>
    let text := collapse_whitespace text in
    let text := remove_char ZERO_WIDTH_SPACE text in
    let text := remove_char BOM text in
    let text := html_unescape text in
    strip text
  end.

(** ** Parsed pages

    What [BeautifulSoup(..., 'html.parser')] builds: text nodes and tags.
    A text node is an object of the class [NavigableString] or of one of
    its subclasses: the parser makes the text inside [script], [style],
    [template], [rt] and [rp] a [Script], [Stylesheet], [TemplateString],
    [RubyTextString] and [RubyParenthesisString], and comments, CDATA
    sections, declarations, doctypes and processing instructions objects
    of their own classes. A tag carries its name, the names of its
    [class] attribute (bs4 keeps that attribute as a list), its other
    attributes and its children. The [BeautifulSoup] object itself is the
    root tag. *)
Inductive string_class : Type :=
| Plain
| CData
| Comment
| Declaration
| Doctype
| ProcessingInstruction
| Script
| Stylesheet
| TemplateString
| RubyTextString
| RubyParenthesisString.

#[warnings="-register-all"] Inductive node : Type :=
| NavigableString (kind : string_class) (text : str)
| Tag (name : str) (classes : list str) (attrs : list (str * str))
      (contents : list node).

(** The CSS selectors of the crawler's tables are a tag name, [.class]
    or [#id]. *)
Inductive selector : Type :=
| ByName (name : str)
| ByClass (cls : str)
| ById (id : str).

(** [tag.get(key)] *)
Fixpoint attr_get (key : str) (attrs : list (str * str)) : option str :=
  match attrs with
  | [] => None
  | (k, v) :: rest => if str_eqb k key then Some v else attr_get key rest
  end.

Definition matches (sel : selector) (n : node) : bool :=
  match n with
  | NavigableString _ _ => false
  | Tag name classes attrs _ =>
    match sel with
    | ByName t => str_eqb name t
    | ByClass c => existsb (str_eqb c) classes
    | ById i =>
      match attr_get (py "id") attrs with
      | Some v => str_eqb v i
      | None => false
      end
    end
  end.

(** A reference to an element of the page is the path of child positions
    from the root to it. *)
Definition element := list nat.

Definition first_path {A : Type} (f : A -> option element) :
  nat -> list A -> option element :=
  fix go (i : nat) (l : list A) : option element :=
    match l with
    | [] => None
    | x :: rest =>
      match f x with
      | Some p => Some (i :: p)
      | None => go (S i) rest
      end
    end.

(** The first match in document order, among a node and what is below. *)
Fixpoint find_path (sel : selector) (n : node) : option element :=
  match n with
  | NavigableString _ _ => None
  | Tag _ _ _ contents =>
    if matches sel n then Some []
    else first_path (find_path sel) 0 contents
  end.

(** [soup.select_one(selector)]: the first match among the descendants. *)
Definition select_one (sel : selector) (soup : node) : option element :=
  match soup with
  | NavigableString _ _ => None
  | Tag _ _ _ contents => first_path (find_path sel) 0 contents
  end.

Fixpoint subtree (n : node) (p : element) : option node :=
  match p with
  | [] => Some n
  | i :: p' =>
    match n with
    | NavigableString _ _ => None
    | Tag _ _ _ contents =>
      match contents !! i with
      | Some k => subtree k p'
      | None => None
      end
    end
  end.

(** Replace the element at [p] by its image under [f]: what a mutation
    through the reference does to the page. *)
Fixpoint update_at (p : element) (f : node -> node) (n : node) : node :=
  match p with
  | [] => f n
  | i :: p' =>
    match n with
    | NavigableString _ _ => n
    | Tag name classes attrs contents =>
      Tag name classes attrs (alter (update_at p' f) i contents)
    end
  end.

(** All matches in document order, among a node and what is below;
    [tag.select(selector)] and [soup.find_all(name)] look below only. *)
Fixpoint matches_in (sel : selector) (n : node) : list node :=
  match n with
  | NavigableString _ _ => []
  | Tag _ _ _ contents =>
    (if matches sel n then [n] else [])
      ++ flat_map (matches_in sel) contents
  end.

Definition select (sel : selector) (n : node) : list node :=
  match n with
  | NavigableString _ _ => []
  | Tag _ _ _ contents => flat_map (matches_in sel) contents
  end.

Definition find_all (name : str) (soup : node) : list node :=
  select (ByName name) soup.

(** [soup.find(name)] *)
Definition find (name : str) (soup : node) : option node :=
  head (find_all name soup).

(** [for tag in element.select(selector): tag.decompose()]: every match
    below the element leaves the tree, with all it holds. *)
Fixpoint decompose_all (sel : selector) (n : node) : node :=
  match n with
  | NavigableString _ _ => n
  | Tag name classes attrs contents =>
    Tag name classes attrs
      ((fix go (l : list node) : list node :=
          match l with
          | [] => []
          | k :: rest =>
            if matches sel k then go rest
            else decompose_all sel k :: go rest
          end) contents)
  end.

(** The text nodes below a node, in document order, each with its
    class. *)
Fixpoint descendant_strings (n : node) : list (string_class * str) :=
  match n with
  | NavigableString kind s => [(kind, s)]
  | Tag _ _ _ contents => flat_map descendant_strings contents
  end.

Definition string_class_eqb (a b : string_class) : bool :=
  match a, b with
  | Plain, Plain | CData, CData | Comment, Comment
  | Declaration, Declaration | Doctype, Doctype
  | ProcessingInstruction, ProcessingInstruction | Script, Script
  | Stylesheet, Stylesheet | TemplateString, TemplateString
  | RubyTextString, RubyTextString
  | RubyParenthesisString, RubyParenthesisString => true
  | _, _ => false
  end.

(** [tag.interesting_string_types]: the classes of the strings that
    count as the text of a tag of that name. *)
Definition interesting_string_types (name : str) : list string_class :=
  if str_eqb name (py "rt") then [RubyTextString]
  else if str_eqb name (py "rp") then [RubyParenthesisString]
  else if str_eqb name (py "style") then [Stylesheet]
  else if str_eqb name (py "script") then [Script]
  else if str_eqb name (py "template") then [TemplateString]
  else [Plain; CData].

(** [tag._all_strings()]: the strings below the tag whose class is one of
    its interesting ones. *)
Definition strings (n : node) : list str :=
  match n with
  | NavigableString _ s => [s]
  | Tag name _ _ _ =>
    List.map snd
      (List.filter
         (fun ks => existsb (string_class_eqb (fst ks))
                            (interesting_string_types name))
         (descendant_strings n))
  end.

(** [tag.get_text(separator, strip)] *)
Definition get_text (separator : str) (strip_each : bool) (n : node) : str :=
  if strip_each
  then join separator (List.filter truthy (List.map strip (strings n)))
  else join separator (strings n).

(** ** The crawler object *)

Record statistics := {
  total_attempts : nat;
  successful_crawls : nat;
  failed_crawls : nat;
  fallback_used : nat
}.

Record ArticleCrawler := {
  stats : statistics;
  content_selectors : list (str * list selector)
}.

Definition remove_selectors : list selector :=
  List.map (fun s => ByName (py s))
    ["script"; "style"; "nav"; "header"; "footer"; "aside"]%string
  ++ List.map (fun s => ByClass (py s))
    ["advertisement"; "ad"; "ads"; "social-share"; "related-articles";
     "comment"; "navigation"; "breadcrumb"; "tag"; "share"; "print"]%string.

Definition site_selectors : list (str * list selector) :=
  let c s := ByClass (py s) in
  [ (py "aitimes.com",
      [c "article-content"; c "news-content"; ByName (py "article")]);
    (py "techcrunch.com", [c "entry-content"; c "article-content"]);
    (py "zdnet.co.kr", [c "view_con"; c "article_view"; c "news-content"]);
    (py "chosun.com", [c "news_text"; c "article_view"; c "news-content"]);
    (py "dt.co.kr", [c "article-content"; c "view-con"; c "news-content"]);
    (py "etnews.com",
      [c "article_txt"; c "news-content"; c "article-content"]);
    (py "hankyung.com", [c "article-content"; c "news-content"]);
    (py "mk.co.kr", [c "news_detail_text"; c "article-content"]) ]%string.

Definition generic_selectors : list selector :=
  let c s := ByClass (py s) in
  [ ByName (py "article"); c "article-content"; c "news-content";
    c "post-content"; c "entry-content"; ById (py "content");
    c "article-body"; c "news-body"; c "content"; c "main-content";
    c "article"; c "post" ]%string.

(** [ArticleCrawler.__init__] *)
Definition new_crawler : ArticleCrawler := {|
  stats := {| total_attempts := 0; successful_crawls := 0;
              failed_crawls := 0; fallback_used := 0 |};
  content_selectors := site_selectors
|}.

(** [add_custom_selector]: [self.content_selectors[domain] = selectors]
    keeps the position of a key the dict already has. *)
Fixpoint dict_set {V : Type} (key : str) (v : V) (d : list (str * V)) :
  list (str * V) :=
  match d with
  | [] => [(key, v)]
  | (k, w) :: rest =>
    if str_eqb k key then (k, v) :: rest else (k, w) :: dict_set key v rest
  end.

Definition add_custom_selector (self : ArticleCrawler) (domain : str)
  (selectors : list selector) : ArticleCrawler :=
  {| stats := stats self;
     content_selectors := dict_set domain selectors (content_selectors self) |}.

Definition use_fallback (self : ArticleCrawler) : ArticleCrawler :=
  let s := stats self in
  {| stats := {| total_attempts := total_attempts s;
                 successful_crawls := successful_crawls s;
                 failed_crawls := failed_crawls s;
                 fallback_used := fallback_used s + 1 |};
     content_selectors := content_selectors self |}.

(** ** [_clean_content]

    [tag.decompose()] takes the tag out of the parsed page itself, so the
    page is returned as the removal leaves it, with the text. *)
Definition _clean_content `{PyLib} (soup : node) (content_element : element) :
  node * str :=
  let soup :=
    fold_left (fun soup selector =>
                 update_at content_element (decompose_all selector) soup)
              remove_selectors soup in
  let text :=
    match subtree soup content_element with
    | Some e => get_text [SPACE] true e
    | None => []
    end in
  (soup, _clean_text (Some text)).

(** The selectors of the first site whose domain occurs in the host. *)
Fixpoint selectors_for (table : list (str * list selector)) (domain : str) :
  list selector :=
  match table with
  | [] => []
  | (site_domain, selectors) :: rest =>
    if contains domain site_domain then selectors
    else selectors_for rest domain
  end.

(** The loop over the selectors: [Some content] when a selector returns,
    [None] when the loop ends; the page as the loop leaves it. *)
Fixpoint try_selectors `{PyLib} (soup : node) (selectors : list selector) :
  node * option str :=
  match selectors with
  | [] => (soup, None)
  | selector :: rest =>
    match select_one selector soup with
    | Some content_element =>
      let '(soup, content) := _clean_content soup content_element in
      if 200 <? length content then (soup, Some content)
      else try_selectors soup rest
    | None => try_selectors soup rest
    end
  end.

(** ** [_extract_main_content]

    The selectors it tries: those of the site, or the generic ones when
    the site has none. *)
Definition chosen_selectors `{PyLib} (self : ArticleCrawler) (url : str) :
  list selector :=
  let domain := lower (netloc url) in
  let selectors := selectors_for (content_selectors self) domain in
  match selectors with [] => generic_selectors | _ => selectors end.

(** Returns the crawler (for its counters), the page as left, and the
    content. *)
Definition _extract_main_content `{PyLib} (self : ArticleCrawler)
  (soup : node) (url : str) : ArticleCrawler * node * str :=
  let selectors := chosen_selectors self url in
  match try_selectors soup selectors with
  | (soup, Some content) => (self, soup, content)
  | (soup, None) =>
    match find_all (py "p") soup with
    | (_ :: _) as paragraphs =>
      let self := use_fallback self in
      let content :=
        join [SPACE] (List.map (get_text [] true) paragraphs) in
      (self, soup, _clean_text (Some content))
    | [] =>
      match find (py "body") soup with
      | Some body =>
        (self, soup, _clean_text (Some (firstn 1000 (get_text [] false body))))
      | None => (self, soup, [])
      end
    end
  end.

(** ** Images *)
Record image := { img_url : str; img_alt : str; img_title : str }.

Definition _is_valid_image `{PyLib} (url : str) : bool :=
  if negb (truthy url) then false
  else
    let valid_extensions :=
      List.map py [".jpg"; ".jpeg"; ".png"; ".gif"; ".webp"]%string in
    let url_lower := lower url in
    if existsb (contains url_lower) valid_extensions then true
    else
      let exclude_keywords :=
        List.map py
          ["icon"; "logo"; "avatar"; "thumbnail"; "1x1"; "pixel"]%string in
      if existsb (contains url_lower) exclude_keywords then false
      else true.

(** [a or b] on optional strings *)
Definition or_else (a b : option str) : option str :=
  match a with
  | Some s => if truthy s then a else b
  | None => b
  end.

(** The body of the loop of [_extract_images] for one [img] tag: the
    images it appends. *)
Definition image_of `{PyLib} (base_url : str) (img : node) :
  result (list image) :=
  match img with
  | NavigableString _ _ => Ok []
  | Tag _ _ attrs _ =>
    match or_else (attr_get (py "src") attrs)
                  (attr_get (py "data-src") attrs) with
    | Some src =>
      if truthy src then
        absolute_url ← urljoin base_url src;
        Ok (if _is_valid_image absolute_url
            then [ {| img_url := absolute_url;
                      img_alt := default [] (attr_get (py "alt") attrs);
                      img_title := default [] (attr_get (py "title") attrs) |} ]
            else [])
      else Ok []
    | None => Ok []
    end
  end.

Fixpoint images_loop `{PyLib} (base_url : str) (imgs : list node)
  (images : list image) : result (list image) :=
  match imgs with
  | [] => Ok images
  | img :: rest =>
    found ← image_of base_url img;
    images_loop base_url rest (images ++ found)
  end.

Definition _extract_images `{PyLib} (soup : node) (base_url : str) :
  result (list image) :=
  images ← images_loop base_url (find_all (py "img") soup) [];
  Ok (firstn 5 images).

(** ** The network and the configuration *)

(** What [session.get] hands back when it does not raise: whether
    [raise_for_status] passes, the declared encoding and the page that
    [BeautifulSoup] parses from the body. *)
Record response := {
  status_ok : bool;
  encoding : option str;
  document : node
}.

(** The world outside the process: the answer to a GET with a timeout,
    and the reading of [time.time()] while the i-th article is handled. *)
Class World := {
  session_get : str -> Z -> result response;
  time_time : nat -> Q
}.

(** The attributes of [Config] that the modelled code reads. [config.py]
    declares [REQUEST_DELAY] and [AI_KEYWORDS]; it declares no [TIMEOUT]
    (its name there is [REQUEST_TIMEOUT]) and no [CATEGORY_KEYWORDS]: an
    attribute that a configuration does not declare is [None] here, and
    reading it raises [AttributeError]. [get_search_keywords] answers
    from a spreadsheet or with [AI_KEYWORDS]. *)
Class Config := {
  TIMEOUT : option Z;
  REQUEST_DELAY : Q;
  AI_KEYWORDS : list str;
  CATEGORY_KEYWORDS : option (list (str * list str));
  get_search_keywords : list str
}.

(** [Config.name] *)
Definition getattr {A : Type} (name : string) (v : option A) : result A :=
  match v with
  | Some x => Ok x
  | None => Raise (AttributeError name)
  end.

(** [Config.AI_KEYWORDS] of [config.py] *)
Definition config_AI_KEYWORDS : list str :=
  List.map py
    [ "artificial intelligence"; "AI"; "machine learning"; "deep learning";
      "neural network"; "ChatGPT"; "OpenAI"; "Google AI"; "인공지능";
      "머신러닝"; "딥러닝"; "생성형 AI"; "AI 기술"; "LLM"; "GPT" ]%string.

(** ** Articles

    An article is a dict; a field is [None] while the dict has no such
    key. The crawler writes the last five. *)
Inductive status : Type := success | failed | error.

Record article := {
  title : option str;
  link : option str;
  url : option str;
  summary : option str;
  source : option str;
  published : option Z;
  content : option str;
  images : option (list image);
  content_length : option nat;
  crawl_status : option status;
  crawled_at : option Q
}.

(** The five assignments [article['content'] = ...] to
    [article['crawled_at'] = ...]. *)
Definition store_crawl (a : article) (c : str) (imgs : list image)
  (st : status) (now : Q) : article :=
  {| title := title a; link := link a; url := url a; summary := summary a;
     source := source a; published := published a;
     content := Some c;
     images := Some imgs;
     content_length := Some (length c);
     crawl_status := Some st;
     crawled_at := Some now |}.

(** [d[key]] *)
Definition getitem {A : Type} (key : string) (v : option A) : result A :=
  match v with
  | Some x => Ok x
  | None => Raise (KeyError key)
  end.

(** ** [_extract_content]

    The body of the [try], then the two handlers, which both answer with
    the empty content and no image; what the extractor has counted before
    an exception stays counted. *)
Definition fetch `{World} `{Config} (url : str) : result node :=
  timeout ← getattr "TIMEOUT" TIMEOUT;
  response ← session_get url timeout;
  if status_ok response then
    match encoding response with
    | None => Raise (AttributeError "lower")
    | Some _ => Ok (document response)
    end
  else Raise (RequestException "HTTPError").

Definition _extract_content `{PyLib} `{World} `{Config}
  (self : ArticleCrawler) (url : str) : ArticleCrawler * (str * list image) :=
  match fetch url with
  | Ok soup =>
    let '(self, soup, content) := _extract_main_content self soup url in
    match _extract_images soup url with
    | Ok images => (self, (content, images))
    | Raise _ => (self, ([], []))
    end
  | Raise _ => (self, ([], []))
  end.

(** ** [crawl_articles]

    The loop runs in a state made of the crawler and the list under
    construction; a step either returns or raises, and the state is kept
    in both cases. *)
Record frame := {
  self_ : ArticleCrawler;
  crawled_articles : list article
}.

Definition M (A : Type) : Type := frame -> result A * frame.

Definition ret {A : Type} (a : A) : M A := fun fr => (Ok a, fr).

Definition bind {A B : Type} (m : M A) (k : A -> M B) : M B :=
  fun fr =>
    match m fr with
    | (Ok a, fr') => k a fr'
    | (Raise e, fr') => (Raise e, fr')
    end.

Definition lift {A : Type} (r : result A) : M A := fun fr => (r, fr).

(** [try: body except Exception as e: handler] *)
Definition try_except {A : Type} (body : M A) (handler : exn -> M A) : M A :=
  fun fr =>
    match body fr with
    | (Ok a, fr') => (Ok a, fr')
    | (Raise e, fr') => handler e fr'
    end.

#[global] Instance M_ret : MRet M := @ret.
#[global] Instance M_bind : MBind M := fun A B k m => bind m k.

Definition with_crawler {A : Type}
  (f : ArticleCrawler -> ArticleCrawler * A) : M A :=
  fun fr =>
    let '(c, a) := f (self_ fr) in
    (Ok a, {| self_ := c; crawled_articles := crawled_articles fr |}).

Definition with_stats (self : ArticleCrawler) (f : statistics -> statistics) :
  ArticleCrawler :=
  {| stats := f (stats self); content_selectors := content_selectors self |}.

Definition set_stats (f : statistics -> statistics) : M unit :=
  with_crawler (fun c => (with_stats c f, tt)).

Definition count_success (s : statistics) : statistics :=
  {| total_attempts := total_attempts s;
     successful_crawls := successful_crawls s + 1;
     failed_crawls := failed_crawls s;
     fallback_used := fallback_used s |}.

Definition count_failure (s : statistics) : statistics :=
  {| total_attempts := total_attempts s;
     successful_crawls := successful_crawls s;
     failed_crawls := failed_crawls s + 1;
     fallback_used := fallback_used s |}.

Definition set_total (n : nat) (s : statistics) : statistics :=
  {| total_attempts := n;
     successful_crawls := successful_crawls s;
     failed_crawls := failed_crawls s;
     fallback_used := fallback_used s |}.

(** [crawled_articles.append(article)] *)
Definition append (a : article) : M unit :=
  fun fr =>
    (Ok tt, {| self_ := self_ fr;
               crawled_articles := crawled_articles fr ++ [a] |}).

(** The body of the [try] for the i-th article. The two subscripts are
    its only expressions that can raise, and they come before the first
    assignment to the article. *)
Definition crawl_one `{PyLib} `{World} `{Config} (i : nat) (a : article) :
  M unit :=
  lift (getitem "title" (title a)) ;;
  link ← lift (getitem "link" (link a));
  found ← with_crawler (fun c => _extract_content c link);
  let '(content, images) := found in
  let a :=
    store_crawl a content images
      (if truthy content then success else failed) (time_time i) in
  append a ;;
  (if truthy content then set_stats count_success
   else set_stats count_failure).

(** The handler: the message of [logger.error] reads [article['title']];
    the content becomes [article.get('summary', '')]. *)
Definition crawl_failed `{World} (i : nat) (a : article) (e : exn) : M unit :=
  set_stats count_failure ;;
  lift (getitem "title" (title a)) ;;
  let a := store_crawl a (default [] (summary a)) [] error (time_time i) in
  append a.

(** The loop body with its handler. *)
Definition crawl_step `{PyLib} `{World} `{Config} (i : nat) (a : article) :
  M unit :=
  try_except (crawl_one i a) (crawl_failed i a).

Fixpoint for_enumerate {A : Type} (body : nat -> A -> M unit) (i : nat)
  (l : list A) : M unit :=
  match l with
  | [] => mret tt
  | x :: rest => body i x ;; for_enumerate body (S i) rest
  end.

(** [a / b] on numbers *)
Definition truediv (a b : nat) : result Q :=
  match b with
  | O => Raise ZeroDivisionError
  | S _ => Ok (inject_Z (Z.of_nat a) / inject_Z (Z.of_nat b))%Q
  end.

(** [_print_statistics]: the success rate that is printed. *)
Definition _print_statistics (self : ArticleCrawler) : result Q :=
  let s := stats self in
  if 0 <? total_attempts s then
    match truediv (successful_crawls s) (total_attempts s) with
    | Ok q => Ok (q * 100)%Q
    | Raise e => Raise e
    end
  else Ok 0%Q.

Definition print_statistics : M Q :=
  fun fr => (_print_statistics (self_ fr), fr).

Definition return_crawled : M (list article) :=
  fun fr => (Ok (crawled_articles fr), fr).

Definition crawl_articles `{PyLib} `{World} `{Config}
  (self : ArticleCrawler) (articles : list article) :
  result (list article) * ArticleCrawler :=
  let run : M (list article) :=
    set_stats (set_total (length articles)) ;;
    for_enumerate crawl_step 1 articles ;;
    print_statistics ;;
    return_crawled in
  let '(r, fr) := run {| self_ := self; crawled_articles := [] |} in
  (r, self_ fr).

(** [get_statistics] *)
Definition get_statistics (self : ArticleCrawler) : statistics := stats self.

(** ** Tagging: [AISummarizer._extract_keywords] and
       [AISummarizer._categorize_article] *)

(** [f"{article['title']} {summary}".lower()] *)
Definition tagged_text `{PyLib} (a : article) (summary : str) : result str :=
  match getitem "title" (title a) with
  | Ok t => Ok (lower (t ++ [SPACE] ++ summary))
  | Raise e => Raise e
  end.

Definition _extract_keywords `{PyLib} `{Config} (a : article) (summary : str) :
  result (list str) :=
  match tagged_text a summary with
  | Ok text =>
    let found_keywords :=
      List.filter (fun keyword => contains text (lower keyword))
                  AI_KEYWORDS in
    Ok (firstn 5 found_keywords)
  | Raise e => Raise e
  end.

Definition category_hit `{PyLib} (text : str) (entry : str * list str) : bool :=
  existsb (fun keyword => contains text (lower keyword)) (snd entry).

Definition _categorize_article `{PyLib} `{Config} (a : article)
  (summary : str) : result str :=
  text ← tagged_text a summary;
  table ← getattr "CATEGORY_KEYWORDS" CATEGORY_KEYWORDS;
  match List.find (category_hit text) table with
  | Some (category, _) => Ok category
  | None => Ok (py "AI 뉴스")
  end.

(** ** Ranking: [AISummarizer._get_top_keywords]

    [Counter(all_keywords)] is a dict from keyword to count whose keys
    stand in the order of their first insertion. *)
Fixpoint counter_add (k : str) (c : list (str * nat)) : list (str * nat) :=
  match c with
  | [] => [(k, 1)]
  | (k', n) :: rest =>
    if str_eqb k' k then (k', S n) :: rest
    else (k', n) :: counter_add k rest
  end.

Definition Counter (l : list str) : list (str * nat) :=
  fold_left (fun c k => counter_add k c) l [].

(** [sorted(l, key=key, reverse=True)]: descending in the key, and items
    of equal key stay in the order they have in [l]. *)
Fixpoint insert_desc {A : Type} (key : A -> Z) (x : A) (l : list A) : list A :=
  match l with
  | [] => [x]
  | y :: rest =>
    if (key x <? key y)%Z then y :: insert_desc key x rest else x :: l
  end.

Definition sorted_reverse {A : Type} (key : A -> Z) (l : list A) : list A :=
  fold_right (insert_desc key) [] l.

(** [counter.most_common(n)] is
    [heapq.nlargest(n, counter.items(), key=itemgetter(1))], that is
    [sorted(counter.items(), key=itemgetter(1), reverse=True)[:n]]. *)
Definition most_common (n : nat) (c : list (str * nat)) : list (str * nat) :=
  firstn n (sorted_reverse (fun kv => Z.of_nat (snd kv)) c).

Definition default_keywords : list str :=
  List.map py ["인공지능"; "AI"; "기술"; "뉴스"; "혁신"]%string.

Definition _get_top_keywords (all_keywords : list str) : list str :=
  match all_keywords with
  | [] => default_keywords
  | _ :: _ => List.map fst (most_common 10 (Counter all_keywords))
  end.

(** ** The batch summary: [create_simple_summary] of [main.py] *)

Record article_data := {
  rank : nat;
  ad_title : str;
  ad_source : str;
  ad_published : str;
  ad_url : str;
  ad_content : str;
  ad_content_length : nat
}.

Record summary_stats := {
  total_sources : nat;
  keywords_found_count : nat;
  avg_content_length : nat
}.

Record summary_data := {
  total_articles : nat;
  collection_time : str;
  sd_articles : list article_data;
  sd_sources : list str;
  sd_keywords_found : list str;
  date_range_latest : option str;
  date_range_earliest : option str;
  sd_stats : summary_stats
}.

(** [datetime.now()] is read once per article by the sort key, once for
    the collection time and once per article by the loop; [now k] is the
    reading of the k-th call. *)
Definition published_or (now : Z) (a : article) : Z :=
  default now (published a).

Definition sort_by_published (now : nat -> Z) (articles : list article) :
  list article :=
  List.map snd
    (sorted_reverse (fun ia => published_or (now (fst ia)) (snd ia))
       (combine (seq 0 (length articles)) articles)).

Definition make_article_data `{PyLib} (now : nat -> Z) (n : nat) (i : nat)
  (a : article) : article_data :=
  {| rank := i;
     ad_title := default (py "No Title") (title a);
     ad_source := default (py "Unknown Source") (source a);
     ad_published := strftime (published_or (now (n + i)) a);
     ad_url := default [] (url a);
     ad_content :=
       (match content a with
        | Some ((_ :: _) as c) => firstn 500 c ++ py "..."
        | _ => py "No Content"
        end);
     ad_content_length := length (default [] (content a)) |}.

Fixpoint enumerate {A : Type} (i : nat) (l : list A) : list (nat * A) :=
  match l with
  | [] => []
  | x :: rest => (i, x) :: enumerate (S i) rest
  end.

Definition keywords_in `{PyLib} `{Config} (d : article_data) (a : article) :
  gset str :=
  let text_to_check :=
    lower (ad_title d ++ [SPACE] ++ default [] (content a)) in
  list_to_set
    (List.filter (fun keyword => contains text_to_check (lower keyword))
                 get_search_keywords).

Definition sum_list (l : list nat) : nat := fold_right Nat.add 0 l.

Definition create_simple_summary `{PyLib} (now : nat -> Z) `{Config}
  (articles : list article) : summary_data :=
  let n := length articles in
  let sorted_articles := sort_by_published now articles in
  let rows :=
    List.map (fun ia => (make_article_data now n (fst ia) (snd ia), snd ia))
             (enumerate 1 sorted_articles) in
  let data := List.map fst rows in
  let sources : gset str := list_to_set (List.map ad_source data) in
  let keywords_found : gset str :=
    ⋃ (List.map (fun r => keywords_in (fst r) (snd r)) rows) in
  {| total_articles := n;
     collection_time := strftime (now n);
     sd_articles := data;
     sd_sources := elements sources;
     sd_keywords_found := elements keywords_found;
     date_range_latest := option_map ad_published (head data);
     date_range_earliest := option_map ad_published (last data);
     sd_stats :=
       {| total_sources := length (elements sources);
          keywords_found_count := length (elements keywords_found);
          avg_content_length :=
            match data with
            | [] => 0
            | _ :: _ =>
              sum_list (List.map ad_content_length data) / length data
            end |} |}.

(** ** Predicates of the statements *)

(** Two adjacent whitespace characters. *)
Fixpoint has_space_run (s : str) : bool :=
  match s with
  | [] => false
  | c1 :: rest =>
    match rest with
    | [] => false
    | c2 :: _ => (isspace c1 && isspace c2) || has_space_run rest
    end
  end.

Definition is_zero_width (c : char) : bool :=
  ((c =? ZERO_WIDTH_SPACE) || (c =? BOM))%N.

(** The text that reaches the entity decoder of [_clean_text]. *)
Definition before_unescape (text : str) : str :=
  remove_char BOM (remove_char ZERO_WIDTH_SPACE (collapse_whitespace text)).

Definition str_eq_dec : forall a b : str, {a = b} + {a <> b} :=
  List.list_eq_dec N.eq_dec.

(** [l.count(k)] *)
Definition count (l : list str) (k : str) : nat := count_occ str_eq_dec l k.

(** [a] occurs in [l] at a place before which [b] has not occurred: [a]
    is seen first. *)
Definition seen_before (l : list str) (a b : str) : Prop :=
  exists p q, l = p ++ a :: q /\ ~ In b p /\ a <> b.

(** [a] ranks before [b]: it is more frequent, or as frequent and seen
    first. *)
Definition ranked_before (l : list str) (a b : str) : Prop :=
  count l b < count l a \/ (count l a = count l b /\ seen_before l a b).

(** [counter[k]] *)
Fixpoint counter_get (c : list (str * nat)) (k : str) : nat :=
  match c with
  | [] => 0
  | (k', n) :: rest => if str_eqb k' k then n else counter_get rest k
  end.

(** The order of a stable descending sort, over the order [R] of the
    input. *)
Definition desc_then {A : Type} (key : A -> Z) (R : A -> A -> Prop)
  (x y : A) : Prop :=
  (key y < key x)%Z \/ (key x = key y /\ R x y).

(** A list of collected keywords with the counts AI: 5, GPT: 5,
    인공지능: 3, in which AI is seen first. *)
Definition sample_keywords : list str :=
  List.map py
    [ "AI"; "인공지능"; "GPT"; "AI"; "GPT"; "AI"; "인공지능"; "GPT"; "AI";
      "GPT"; "AI"; "인공지능"; "GPT" ]%string.

(** [config.py] as it stands, with the search keywords read from
    [AI_KEYWORDS]. *)
Definition repository_config : Config := {|
  TIMEOUT := None;
  REQUEST_DELAY := 1;
  AI_KEYWORDS := config_AI_KEYWORDS;
  CATEGORY_KEYWORDS := None;
  get_search_keywords := config_AI_KEYWORDS
|}.

(** The same configuration with the two attributes that the code reads
    and [config.py] lacks: a timeout of 30 seconds and the category table
    of the specification's scenario. *)
Definition sample_config : Config := {|
  TIMEOUT := Some 30%Z;
  REQUEST_DELAY := 1;
  AI_KEYWORDS := config_AI_KEYWORDS;
  CATEGORY_KEYWORDS :=
    Some [ (py "AI 뉴스", [py "AI"; py "인공지능"]);
           (py "기술", [py "스타트업"]) ];
  get_search_keywords := config_AI_KEYWORDS
|}.

(** A dict with the keys the feed collector and the specification's
    scenarios give a stub. *)
Definition stub (t l s : string) : article :=
  {| title := Some (py t); link := Some (py l); url := None;
     summary := Some (py s); source := None; published := None;
     content := None; images := None; content_length := None;
     crawl_status := None; crawled_at := None |}.

(** A world in which every request runs into its timeout. *)
Definition offline : World := {|
  session_get := fun _ _ => Raise (RequestException "Timeout");
  time_time := fun _ => 0%Q
|}.

(** A world in which every address serves the same page. *)
Definition serving (page : node) : World := {|
  session_get := fun _ _ =>
    Ok {| status_ok := true; encoding := Some (py "utf-8");
          document := page |};
  time_time := fun _ => 0%Q
|}.

(** What one pass of the loop writes: [a'] is [a] with the five crawl
    fields stored, either by the handler (no link to fetch) or from what
    [_extract_content] answers for the link. *)
Definition crawl_outcome `{PyLib} `{World} `{Config}
  (selectors : list (str * list selector)) (i : nat) (a a' : article) : Prop :=
  exists c imgs st,
    a' = store_crawl a c imgs st (time_time i) /\
    ((link a = None /\ c = default [] (summary a) /\ imgs = [] /\ st = error)
     \/
     (exists l self self',
         link a = Some l /\
         content_selectors self = selectors /\
         _extract_content self l = (self', (c, imgs)) /\
         st = if truthy c then success else failed)).

(** The counters before and after [n] passes of the loop. *)
Definition counted (n : nat) (s s' : statistics) : Prop :=
  total_attempts s' = total_attempts s /\
  successful_crawls s' + failed_crawls s'
    = successful_crawls s + failed_crawls s + n /\
  successful_crawls s <= successful_crawls s' /\
  failed_crawls s <= failed_crawls s' /\
  fallback_used s <= fallback_used s' <= fallback_used s + n.

(** The stub of the specification's fetch scenario. *)
Definition sample_stub : article :=
  stub "Sample AI Launch" "https://example.com/a" "short".

(** The invariant of an enriched record. *)
Definition enriched (a' : article) : Prop :=
  exists c imgs,
    content a' = Some c /\
    content_length a' = Some (length c) /\
    images a' = Some imgs /\
    length imgs <= 5 /\
    (crawl_status a' = Some failed -> c = []).

(** The record [a'] is the stub [a] with the five crawl fields written:
    the content [c], the images, the length of the content, the status
    and the time. *)
Definition crawled (a a' : article) (c : str) (imgs : list image)
  (st : status) (now : Q) : Prop :=
  title a' = title a /\ link a' = link a /\ url a' = url a /\
  summary a' = summary a /\ source a' = source a /\
  published a' = published a /\
  content a' = Some c /\
  images a' = Some imgs /\
  content_length a' = Some (length c) /\
  crawl_status a' = Some st /\
  crawled_at a' = Some now.

(** ** The cascade in words

    An element without the noise below it, and its cleaned text. *)
Definition remove_noise (e : node) : node :=
  fold_left (fun e selector => decompose_all selector e) remove_selectors e.

Definition cleaned_text `{PyLib} (e : node) : str :=
  _clean_text (Some (get_text [SPACE] true (remove_noise e))).

(** The first match of a selector in a page: where it is, and what. *)
Definition first_match (s : selector) (page : node) :
  option (element * node) :=
  match select_one s page with
  | Some el =>
    match subtree page el with
    | Some e => Some (el, e)
    | None => None
    end
  | None => None
  end.

(** The page after the attempt with a selector: the noise below its
    first match is gone from the page itself. *)
Definition attempt (page : node) (s : selector) : node :=
  match first_match s page with
  | Some (el, _) => update_at el remove_noise page
  | None => page
  end.

(** The text a selector offers in a page, and whether it clears the
    threshold of 200 characters. *)
Definition candidate `{PyLib} (page : node) (s : selector) : option str :=
  match first_match s page with
  | Some (_, e) => Some (cleaned_text e)
  | None => None
  end.

Definition clears `{PyLib} (page : node) (s : selector) : bool :=
  match candidate page s with
  | Some text => 200 <? length text
  | None => false
  end.

(** The page when the selectors [tried] have been tried one after the
    other. *)
Definition page_after (page : node) (tried : list selector) : node :=
  fold_left attempt tried page.

(** No selector of the list clears the threshold at its turn. *)
Fixpoint none_clears `{PyLib} (page : node) (selectors : list selector) :
  bool :=
  match selectors with
  | [] => true
  | s :: rest => negb (clears page s) && none_clears (attempt page s) rest
  end.

(** ** The cascade as the specification words it

    The noise below an element is removed in a copy of the element, and
    every selector is matched against the page as it was given. *)
Fixpoint cascade_on_copy `{PyLib} (soup : node) (selectors : list selector) :
  option str :=
  match selectors with
  | [] => None
  | selector :: rest =>
    match select_one selector soup with
    | Some content_element =>
      match subtree soup content_element with
      | Some e =>
        if 200 <? length (cleaned_text e) then Some (cleaned_text e)
        else cascade_on_copy soup rest
      | None => cascade_on_copy soup rest
      end
    | None => cascade_on_copy soup rest
    end
  end.

(** Sample pages. *)
Definition soup_of (contents : list node) : node :=
  Tag (py "[document]") [] [] contents.

Definition tag (name : string) (classes : list string)
  (contents : list node) : node :=
  Tag (py name) (List.map py classes) [] contents.

Definition long_text : str := repeat 97%N 300.

(** A block of class article-content with 300 characters of text. *)
Definition page_with_content : node :=
  soup_of
    [tag "html" []
       [tag "body" []
          [tag "div" ["article-content"%string]
             [NavigableString Plain long_text]]]].

(** An article whose only text stands in a block of class post-content
    inside an aside. *)
Definition page_with_aside : node :=
  soup_of
    [tag "html" []
       [tag "body" []
          [tag "article" []
             [tag "aside" []
                [tag "div" ["post-content"%string]
                   [NavigableString Plain long_text]]]]]].

(** An article whose only paragraph stands in its footer. *)
Definition page_with_footer : node :=
  soup_of
    [tag "html" []
       [tag "body" []
          [tag "article" []
             [tag "footer" []
                [tag "p" [] [NavigableString Plain (py "hello")]]]]]].

(** The page with the block of 300 characters, followed by an image
    whose source cannot be split. *)
Definition page_with_bad_image : node :=
  soup_of
    [tag "html" []
       [tag "body" []
          [tag "div" ["article-content"%string]
             [NavigableString Plain long_text];
           Tag (py "img") [] [(py "src", py "//[x")] []]]].

(** A body without paragraphs that holds a script and a text. *)
Definition page_with_script : node :=
  soup_of
    [tag "html" []
       [tag "body" []
          [tag "script" [] [NavigableString Script (py "var x = 1;")];
           NavigableString Plain (py " hello ")]]].

Definition sample_url : str := py "https://example.com/a".

(** The fields of an article as the summary reads them. *)
Definition published_at (a : article) : Z := default 0%Z (published a).

Definition source_of (a : article) : str :=
  default (py "Unknown Source") (source a).

Definition content_of (a : article) : str := default [] (content a).

(** Two crawled articles for running the summary. *)
Definition dated (t : string) (src : string) (at_ : Z) (c : string) : article :=
  {| title := Some (py t); link := None; url := Some (py "https://example.com");
     summary := Some []; source := Some (py src); published := Some at_;
     content := Some (py c); images := Some [];
     content_length := Some (length (py c)); crawl_status := Some success;
     crawled_at := Some 0%Q |}.

Definition sample_articles : list article :=
  [ dated "older" "Daily" 100 "abc"; dated "newer" "Daily" 200 "abcd" ].

(** ** Further functions of [article_crawler.py] *)

(** [get_content_preview] *)
Definition get_content_preview (a : article) : str :=
  let content := default [] (content a) in
  if 300 <? length content then firstn 300 content ++ py "..." else content.

(** The two lists of [_is_valid_image]. *)
Definition valid_extensions : list str :=
  List.map py [".jpg"; ".jpeg"; ".png"; ".gif"; ".webp"]%string.

Definition exclude_keywords : list str :=
  List.map py ["icon"; "logo"; "avatar"; "thumbnail"; "1x1"; "pixel"]%string.

(** [src] of an [img] tag as [_extract_images] reads it. *)
Definition image_source (img : node) : option str :=
  match img with
  | NavigableString _ _ => None
  | Tag _ _ attrs _ =>
    or_else (attr_get (py "src") attrs) (attr_get (py "data-src") attrs)
  end.

(** The images that the loop of [_extract_images] appends for one tag,
    none when the tag makes it raise. *)
Definition images_of_tag `{PyLib} (base_url : str) (img : node) : list image :=
  match image_of base_url img with
  | Ok found => found
  | Raise _ => []
  end.

(** The source of the tag, when it has one, can be joined to the base
    address. *)
Definition joins `{PyLib} (base_url : str) (img : node) : Prop :=
  forall src, image_source img = Some src -> src <> [] ->
              exists absolute_url, urljoin base_url src = Ok absolute_url.

(** [test_single_article] *)
Definition test_single_article `{PyLib} `{World} `{Config}
  (self : ArticleCrawler) (url : str) : ArticleCrawler * (str * list image) :=
  _extract_content self url.

Definition status_eqb (a b : status) : bool :=
  match a, b with
  | success, success | failed, failed | error, error => true
  | _, _ => false
  end.

(** The number of records with a given status. *)
Definition count_status (st : status) (l : list article) : nat :=
  length (List.filter
            (fun a => match crawl_status a with
                      | Some s => status_eqb s st
                      | None => false
                      end) l).

(** What the handler of [crawl_articles] stores for the i-th stub. *)
Definition error_record `{World} (ia : nat * article) : article :=
  store_crawl (snd ia) (default [] (summary (snd ia))) [] error
              (time_time (fst ia)).

(** ** [GoogleNewsCollector.filter_recent_articles]

    The collector carries the number of articles it may return. The
    loop keeps the articles published at or after the cut-off and raises
    [KeyError] at an article without ['published']; [list.sort] with
    [reverse=True] is the stable descending sort. [timedelta] is the
    length of a number of hours in the unit of the time points. *)
Record GoogleNewsCollector := { max_articles : nat }.

Fixpoint recent_loop (cutoff_time : Z) (articles : list article)
  (recent_articles : list article) : result (list article) :=
  match articles with
  | [] => Ok recent_articles
  | a :: rest =>
    match getitem "published" (published a) with
    | Raise e => Raise e
    | Ok p =>
      recent_loop cutoff_time rest
        (if (cutoff_time <=? p)%Z then recent_articles ++ [a]
         else recent_articles)
    end
  end.

Definition filter_recent_articles (self : GoogleNewsCollector)
  (datetime_now : Z) (timedelta : Z -> Z) (articles : list article)
  (hours : Z) : result (list article) :=
  let cutoff_time := (datetime_now - timedelta hours)%Z in
  match recent_loop cutoff_time articles [] with
  | Raise e => Raise e
  | Ok recent_articles =>
    Ok (firstn (max_articles self)
               (sorted_reverse published_at recent_articles))
  end.

(** The title and the text in which [create_simple_summary] looks for
    the search keywords. *)
Definition title_of (a : article) : str := default (py "No Title") (title a).

Definition text_to_check `{PyLib} (a : article) : str :=
  lower (title_of a ++ [SPACE] ++ content_of a).

(** The articles tagged with their place in the input, in the order of
    [sort_by_published]. *)
Definition sorted_with_position (now : nat -> Z) (articles : list article) :
  list (nat * article) :=
  sorted_reverse (fun ia => published_or (now (fst ia)) (snd ia))
                 (combine (seq 0 (length articles)) articles).

(** ** [ai_summarizer.py]: the summaries

    The summarizer object holds the parameters of its requests
    ([Config.AI_MODEL], which [config.py] does not declare, and the two
    OpenAI settings). The chat service answers a request with the text of
    [response.choices[0].message.content] or raises; an answer without
    text counts as raising, since [.strip()] fails on it inside the same
    [try]. [strftime_minute] formats a time point with the pattern
    ['%Y-%m-%d %H:%M']. *)
Record AISummarizer := { model : str; max_tokens : Z; temperature : Q }.

Record chat_request := {
  rq_model : str;
  rq_system : str;
  rq_user : str;
  rq_max_tokens : Z;
  rq_temperature : Q
}.

Class Service := {
  chat_completions_create : chat_request -> result str;
  strftime_minute : Z -> str
}.

Definition NEWLINE : char := 10%N.

(** [str(n)] *)
Definition str_of_nat (n : nat) : str :=
  py (NilEmpty.string_of_uint (Nat.to_uint n)).

(** [_format_published_date]; the published time of an article is a
    time point or missing. *)
Definition _format_published_date `{Service} (published : option Z) : str :=
  match published with
  | None => py "날짜 미상"
  | Some t => strftime_minute t
  end.

Definition summary_prompt (title body : str) : str :=
  py "
다음 AI 관련 뉴스 기사를 한국어로 간결하게 요약해주세요 (150자 이내):

제목: " ++ title ++ py "
내용: " ++ body ++ py "

요약 조건:
- 핵심 내용만 간결하게
- 기술적 용어는 이해하기 쉽게
- 한국어로 자연스럽게
- 150자 이내로 제한
".

(** [_generate_ai_summary]: the body of its [try], then its handler. *)
Definition request_summary `{Service} (self : AISummarizer) (a : article) :
  result str :=
  t ← getitem "title" (title a);
  let body :=
    match content a with
    | Some c => c
    | None => default [] (summary a)
    end in
  answer ← chat_completions_create
             {| rq_model := model self;
                rq_system := py "당신은 AI 뉴스 전문 요약가입니다.";
                rq_user := summary_prompt t (firstn 1000 body);
                rq_max_tokens := max_tokens self;
                rq_temperature := temperature self |};
  Ok (firstn 200 (strip answer)).

Definition _generate_ai_summary `{Service} (self : AISummarizer)
  (a : article) : str :=
  match request_summary self a with
  | Ok s => s
  | Raise _ => firstn 150 (default [] (summary a)) ++ py "..."
  end.

Record summarized_article := {
  sa_title : str;
  sa_summary : str;
  sa_url : str;
  sa_published : str;
  sa_source : str;
  sa_keywords : list str;
  sa_category : str
}.

Record summary_result := {
  res_articles : list summarized_article;
  top_keywords : list str;
  res_summary : str;
  total_count : option nat;
  generation_time : option str
}.

Definition overall_prompt (n : nat) (titles_text : str) : str :=
  py "
다음 " ++ str_of_nat n
  ++ py "개의 AI 뉴스 제목들을 바탕으로 오늘의 AI 뉴스 트렌드를 한 문장으로 요약해주세요:

" ++ titles_text ++ py "

조건:
- 한국어로 작성
- 50자 내외로 간결하게
- 주요 트렌드나 키워드 포함
".

(** [_generate_overall_summary] *)
Definition _generate_overall_summary `{Service} (self : AISummarizer)
  (articles : list summarized_article) : str :=
  match articles with
  | [] => py "오늘 수집된 AI 뉴스가 없습니다."
  | _ :: _ =>
    let titles := List.map sa_title articles in
    let titles_text :=
      join [NEWLINE] (List.map (fun t => py "- " ++ t) titles) in
    match chat_completions_create
            {| rq_model := model self;
               rq_system := py "당신은 AI 뉴스 트렌드 분석가입니다.";
               rq_user := overall_prompt (length articles) titles_text;
               rq_max_tokens := 100;
               rq_temperature := 0.5 |} with
    | Ok answer => strip answer
    | Raise _ =>
      py "오늘 " ++ str_of_nat (length articles)
        ++ py "개의 AI 관련 뉴스가 발표되었습니다."
    end
  end.

(** The body of the [try] of [generate_summary] for one article: the
    entry, and the keywords that extend [all_keywords]. *)
Definition summarize_one `{PyLib} `{Config} `{Service} (self : AISummarizer)
  (a : article) : result (summarized_article * list str) :=
  getitem "title" (title a) ;;
  let summary := _generate_ai_summary self a in
  keywords ← _extract_keywords a summary;
  let published_str := _format_published_date (published a) in
  t ← getitem "title" (title a);
  u ← getitem "url" (url a);
  category ← _categorize_article a summary;
  Ok ({| sa_title := t;
         sa_summary := summary;
         sa_url := u;
         sa_published := published_str;
         sa_source := default (py "Unknown") (source a);
         sa_keywords := keywords;
         sa_category := category |}, keywords).

(** The entry that the handler makes. *)
Definition summarize_fallback `{Service} (a : article) :
  result summarized_article :=
  t ← getitem "title" (title a);
  u ← getitem "url" (url a);
  Ok {| sa_title := t;
        sa_summary := firstn 200 (default [] (summary a)) ++ py "...";
        sa_url := u;
        sa_published := _format_published_date (published a);
        sa_source := default (py "Unknown") (source a);
        sa_keywords := [];
        sa_category := py "AI 뉴스" |}.

Fixpoint summarize_loop `{PyLib} `{Config} `{Service} (self : AISummarizer)
  (articles : list article) (summarized_articles : list summarized_article)
  (all_keywords : list str) :
  result (list summarized_article * list str) :=
  match articles with
  | [] => Ok (summarized_articles, all_keywords)
  | a :: rest =>
    match summarize_one self a with
    | Ok (entry, keywords) =>
      summarize_loop self rest (summarized_articles ++ [entry])
                     (all_keywords ++ keywords)
    | Raise _ =>
      match summarize_fallback a with
      | Ok entry =>
        summarize_loop self rest (summarized_articles ++ [entry])
                       all_keywords
      | Raise e => Raise e
      end
    end
  end.

(** [generate_summary]; [now] is the reading of [datetime.now()]. *)
Definition generate_summary `{PyLib} `{Config} `{Service}
  (self : AISummarizer) (now : Z) (articles : list article) :
  result summary_result :=
  match articles with
  | [] =>
    Ok {| res_articles := []; top_keywords := []; res_summary := [];
          total_count := None; generation_time := None |}
  | _ :: _ =>
    found ← summarize_loop self articles [] [];
    let '(summarized_articles, all_keywords) := found in
    Ok {| res_articles := summarized_articles;
          top_keywords := _get_top_keywords all_keywords;
          res_summary := _generate_overall_summary self summarized_articles;
          total_count := Some (length summarized_articles);
          generation_time := Some (strftime now) |}
  end.

(** An entry made from an article by the [try] of [generate_summary]. *)
Definition summarized_from `{PyLib} `{Config} `{Service}
  (self : AISummarizer) (a : article) (e : summarized_article) : Prop :=
  title a = Some (sa_title e) /\
  url a = Some (sa_url e) /\
  sa_summary e = _generate_ai_summary self a /\
  _extract_keywords a (sa_summary e) = Ok (sa_keywords e) /\
  _categorize_article a (sa_summary e) = Ok (sa_category e) /\
  sa_published e = _format_published_date (published a) /\
  sa_source e = default (py "Unknown") (source a).

(** An entry made from an article by the handler of the loop of
    [generate_summary]. *)
Definition summarized_by_handler `{Service} (a : article)
  (e : summarized_article) : Prop :=
  title a = Some (sa_title e) /\
  url a = Some (sa_url e) /\
  sa_summary e = firstn 200 (default [] (summary a)) ++ py "..." /\
  sa_keywords e = [] /\
  sa_category e = py "AI 뉴스" /\
  sa_published e = _format_published_date (published a) /\
  sa_source e = default (py "Unknown") (source a).

(** The entry of an article with a title and a url: the [try] makes it
    when the configuration declares the category table, and the handler
    when it does not. *)
Definition entry_of `{PyLib} `{Config} `{Service}
  (self : AISummarizer) (a : article) (e : summarized_article) : Prop :=
  match CATEGORY_KEYWORDS with
  | Some _ => summarized_from self a e
  | None => summarized_by_handler a e
  end.

(** A service for running the model: it answers every request with the
    same text, or it is down. *)
Definition constant_service (answer : str) : Service := {|
  chat_completions_create := fun _ => Ok answer;
  strftime_minute := fun t => py (NilEmpty.string_of_uint (N.to_uint (Z.to_N t)))
|}.

Definition service_down : Service := {|
  chat_completions_create := fun _ => Raise (RequestException "APIError");
  strftime_minute := fun t => py (NilEmpty.string_of_uint (N.to_uint (Z.to_N t)))
|}.

Definition sample_summarizer : AISummarizer :=
  {| model := py "gpt-3.5-turbo"; max_tokens := 1500; temperature := 0.3 |}.

(* ================================================================== *)
(** * Properties *)
(* ================================================================== *)

Example py_decodes_korean :
  py "AI 뉴스" = [65; 73; 32; 45684; 49828]%N.
Proof. reflexivity. Qed.

(** ** The text normaliser *)

Section Normaliser.
Context `{L : PyLib}.

Lemma lstrip_head text c :
  head (lstrip text) = Some c -> isspace c = false.
Proof.
  induction text as [|x rest IH]; simpl; [discriminate|].
  destruct (isspace x) eqn:Hx; [exact IH|].
  simpl. intros [= <-]. exact Hx.
Qed.

Lemma lstrip_snoc text c :
  isspace c = false -> lstrip (text ++ [c]) = lstrip text ++ [c].
Proof.
  intros Hc. induction text as [|x rest IH]; simpl.
  - now rewrite Hc.
  - destruct (isspace x); [exact IH|reflexivity].
Qed.

Lemma rstrip_cons c text :
  isspace c = false -> rstrip (c :: text) = c :: rstrip text.
Proof.
  intros Hc. unfold rstrip. simpl.
  rewrite lstrip_snoc by exact Hc.
  now rewrite rev_app_distr.
Qed.

Lemma strip_head text c :
  head (strip text) = Some c -> isspace c = false.
Proof.
  unfold strip. intros Hh.
  destruct (lstrip text) as [|x rest] eqn:Hl.
  - discriminate Hh.
  - assert (Hx : isspace x = false)
      by (apply (lstrip_head text); now rewrite Hl).
    rewrite rstrip_cons in Hh by exact Hx.
    simpl in Hh. now injection Hh as <-.
Qed.

Lemma last_rev_head {A : Type} (l : list A) : last (rev l) = head l.
Proof.
  destruct l as [|x l]; [reflexivity|].
  simpl. now rewrite last_snoc.
Qed.

Lemma strip_last text c :
  last (strip text) = Some c -> isspace c = false.
Proof.
  unfold strip, rstrip. rewrite last_rev_head. apply lstrip_head.
Qed.

Lemma lstrip_suffix text : exists p, text = p ++ lstrip text.
Proof.
  induction text as [|x rest [p Hp]]; simpl.
  - now exists [].
  - destruct (isspace x).
    + exists (x :: p). simpl. now f_equal.
    + now exists [].
Qed.

Lemma strip_infix text : exists p q, text = p ++ strip text ++ q.
Proof.
  destruct (lstrip_suffix text) as [p Hp].
  destruct (lstrip_suffix (rev (lstrip text))) as [q Hq].
  exists p, (rev q). unfold strip, rstrip.
  rewrite <- rev_app_distr, <- Hq, rev_involutive. exact Hp.
Qed.

Lemma strip_In text c : In c (strip text) -> In c text.
Proof.
  destruct (strip_infix text) as (p & q & Heq). intros Hin.
  rewrite Heq, !in_app_iff. tauto.
Qed.

Lemma has_space_run_app_l a b :
  has_space_run (a ++ b) = false -> has_space_run b = false.
Proof.
  induction a as [|x a IH]; simpl; [tauto|].
  destruct (a ++ b) as [|y r] eqn:Hab.
  - apply app_eq_nil in Hab as [_ ->]. reflexivity.
  - intros Hrun. apply orb_false_iff in Hrun as [_ Hrun]. now apply IH.
Qed.

Lemma has_space_run_app_r a b :
  has_space_run (a ++ b) = false -> has_space_run a = false.
Proof.
  induction a as [|x a IH]; simpl; [tauto|].
  destruct a as [|y a]; [reflexivity|].
  simpl app in *. intros Hrun.
  apply orb_false_iff in Hrun as [Hxy Hrun].
  rewrite Hxy. simpl. now apply IH.
Qed.

Lemma strip_no_run text :
  has_space_run text = false -> has_space_run (strip text) = false.
Proof.
  destruct (strip_infix text) as (p & q & Heq). intros Hrun.
  rewrite Heq in Hrun.
  apply has_space_run_app_l in Hrun. now apply has_space_run_app_r in Hrun.
Qed.

Lemma collapse_head_not_space c rest :
  isspace c = false ->
  collapse_whitespace (c :: rest) = c :: collapse_whitespace rest.
Proof. intros Hc. simpl. now rewrite Hc. Qed.

Lemma has_space_run_cons c1 c2 rest :
  has_space_run (c1 :: c2 :: rest)
  = (isspace c1 && isspace c2) || has_space_run (c2 :: rest).
Proof. reflexivity. Qed.

Lemma collapse_no_run text : has_space_run (collapse_whitespace text) = false.
Proof.
  induction text as [|c rest IH]; [reflexivity|].
  cbn [collapse_whitespace].
  destruct (isspace c) eqn:Hc.
  - destruct rest as [|c' rest']; [reflexivity|].
    destruct (isspace c') eqn:Hc'; [exact IH|].
    rewrite collapse_head_not_space in * by exact Hc'.
    rewrite has_space_run_cons, Hc', andb_false_r. exact IH.
  - destruct (collapse_whitespace rest) as [|y r]; [reflexivity|].
    rewrite has_space_run_cons, Hc. exact IH.
Qed.

Lemma collapse_In text c :
  In c (collapse_whitespace text) -> c = SPACE \/ In c text.
Proof.
  induction text as [|x rest IH]; [intros []|].
  cbn [collapse_whitespace].
  destruct (isspace x).
  - destruct rest as [|c' rest'].
    + intros [<-|[]]. now left.
    + destruct (isspace c').
      * intros Hin. destruct (IH Hin); [now left|right; now right].
      * intros [<-|Hin]; [now left|].
        destruct (IH Hin); [now left|right; now right].
  - intros [<-|Hin]; [right; now left|].
    destruct (IH Hin); [now left|right; now right].
Qed.

Lemma remove_char_absent ch text :
  ~ In ch text -> remove_char ch text = text.
Proof.
  unfold remove_char. induction text as [|x rest IH]; [reflexivity|].
  intros Hn. simpl.
  destruct (N.eqb_spec x ch) as [->|Hne].
  - exfalso. apply Hn. now left.
  - simpl. f_equal. apply IH. intros Hin. apply Hn. now right.
Qed.

Lemma remove_char_In ch text c :
  In c (remove_char ch text) <-> In c text /\ c <> ch.
Proof.
  unfold remove_char. rewrite filter_In.
  destruct (N.eqb_spec c ch); simpl; intuition congruence.
Qed.

Lemma before_unescape_In text c :
  In c (before_unescape text) ->
  (c = SPACE \/ In c text) /\ is_zero_width c = false.
Proof.
  unfold before_unescape. rewrite !remove_char_In.
  intros [[Hin Hz] Hb]. split; [now apply collapse_In|].
  unfold is_zero_width.
  destruct (N.eqb_spec c ZERO_WIDTH_SPACE); [contradiction|].
  destruct (N.eqb_spec c BOM); [contradiction|reflexivity].
Qed.

Lemma clean_text_unfold c rest :
  _clean_text (Some (c :: rest))
  = strip (html_unescape (before_unescape (c :: rest))).
Proof. reflexivity. Qed.

(** X25: the normaliser answers the empty string to [None] and to the
    empty string; its answer never starts or ends with whitespace; for a
    text without ['&'] the answer holds no zero-width character, and for
    a text without ['&'] and without zero-width characters it holds no
    two adjacent whitespace characters. *)
Theorem clean_text_normalises (text : option str) :
  _clean_text None = [] /\
  _clean_text (Some []) = [] /\
  (forall c, head (_clean_text text) = Some c -> isspace c = false) /\
  (forall c, last (_clean_text text) = Some c -> isspace c = false) /\
  (forall t, text = Some t -> unescape_plain -> ~ In AMPERSAND t ->
     (forall c, In c (_clean_text text) -> is_zero_width c = false) /\
     ((forall c, In c t -> is_zero_width c = false) ->
      has_space_run (_clean_text text) = false)).
Proof.
  split; [reflexivity|]. split; [reflexivity|].
  split; [|split].
  - destruct text as [[|c rest]|]; simpl; try discriminate.
    apply strip_head.
  - destruct text as [[|c rest]|]; simpl; try discriminate.
    apply strip_last.
  - intros t -> Hplain Hamp.
    destruct t as [|c rest].
    { split; [intros c []|reflexivity]. }
    rewrite clean_text_unfold.
    assert (Hno : ~ In AMPERSAND (before_unescape (c :: rest))).
    { intros Hin. apply before_unescape_In in Hin as [[Hsp|Hin] _].
      - discriminate Hsp.
      - contradiction. }
    rewrite (Hplain _ Hno). split.
    + intros x Hx. apply strip_In in Hx.
      now apply before_unescape_In in Hx.
    + intros Hzw. unfold before_unescape.
      assert (Hz : ~ In ZERO_WIDTH_SPACE (collapse_whitespace (c :: rest))).
      { intros Hin. apply collapse_In in Hin as [Hsp|Hin];
          [discriminate Hsp|]. now apply Hzw in Hin. }
      rewrite (remove_char_absent ZERO_WIDTH_SPACE) by exact Hz.
      assert (Hb : ~ In BOM (collapse_whitespace (c :: rest))).
      { intros Hin. apply collapse_In in Hin as [Hsp|Hin];
          [discriminate Hsp|]. now apply Hzw in Hin. }
      rewrite (remove_char_absent BOM) by exact Hb.
      apply strip_no_run, collapse_no_run.
Qed.

End Normaliser.

(** C9: the normaliser collapses the whitespace before it removes the
    zero-width characters. The text "a", space, U+200B, space, "b" holds
    no ['&'], so [html.unescape] returns it as it is; its two spaces are
    no run when the whitespace is collapsed, and they meet once U+200B is
    removed: the answer is "a", two spaces, "b", with a run of
    consecutive whitespace. *)
Lemma clean_text_keeps_space_run :
  let text := py "a " ++ [ZERO_WIDTH_SPACE] ++ py " b" in
  ~ In AMPERSAND text /\
  collapse_whitespace text = text /\
  @_clean_text plain_lib (Some text) = py "a  b" /\
  has_space_run (@_clean_text plain_lib (Some text)) = true.
Proof.
  split; [|split; [|split]]; try reflexivity.
  vm_compute. intuition discriminate.
Qed.

Lemma clean_text_normalises_witness :
  let text := py "  Breaking   news " in
  has_space_run (@_clean_text plain_lib (Some text)) = false.
Proof.
  intros text.
  destruct (@clean_text_normalises plain_lib (Some text))
    as (_ & _ & _ & _ & Hplain).
  apply (Hplain text eq_refl).
  - intros s _. reflexivity.
  - vm_compute. intuition discriminate.
  - intros c Hc. vm_compute in Hc.
    repeat (destruct Hc as [<-|Hc]; [reflexivity|]). destruct Hc.
Defined.

(** ** Stable descending sort *)

Section StableSort.
Context {A : Type} (key : A -> Z) (R : A -> A -> Prop).

Lemma insert_desc_perm x l : Permutation (x :: l) (insert_desc key x l).
Proof.
  induction l as [|y rest IH]; simpl; [reflexivity|].
  destruct (key x <? key y)%Z; [|reflexivity].
  rewrite perm_swap. now apply perm_skip.
Qed.

Lemma sorted_reverse_perm l : Permutation l (sorted_reverse key l).
Proof.
  induction l as [|x rest IH]; simpl; [reflexivity|].
  rewrite <- insert_desc_perm. now apply perm_skip.
Qed.

Lemma sorted_reverse_length l : length (sorted_reverse key l) = length l.
Proof. symmetry. apply Permutation_length, sorted_reverse_perm. Qed.

Lemma desc_then_key x y : desc_then key R x y -> (key y <= key x)%Z.
Proof. intros [Hlt|[Heq _]]; lia. Qed.

Lemma insert_desc_sorted x s :
  StronglySorted (desc_then key R) s ->
  Forall (R x) s ->
  StronglySorted (desc_then key R) (insert_desc key x s).
Proof.
  induction s as [|y rest IH]; intros Hs Hx; simpl.
  - constructor; constructor.
  - apply StronglySorted_inv in Hs as [Hrest Hy].
    destruct (Z.ltb_spec (key x) (key y)) as [Hlt|Hge].
    + constructor.
      * apply IH; [exact Hrest|]. now apply Forall_inv_tail in Hx.
      * eapply Permutation_Forall; [apply insert_desc_perm|].
        constructor; [now left|exact Hy].
    + constructor; [now constructor|].
      rewrite List.Forall_forall in Hx, Hy |- *.
      intros z Hz.
      assert (Hzy : (key z <= key y)%Z).
      { destruct Hz as [<-|Hz]; [lia|]. now apply desc_then_key, Hy. }
      destruct (Z.eq_dec (key x) (key z)) as [Heq|Hne].
      * right. split; [exact Heq|]. now apply Hx.
      * left. lia.
Qed.

Lemma sorted_reverse_sorted l :
  StronglySorted R l ->
  StronglySorted (desc_then key R) (sorted_reverse key l).
Proof.
  induction l as [|x rest IH]; intros Hl; simpl.
  - constructor.
  - apply StronglySorted_inv in Hl as [Hrest Hx].
    apply insert_desc_sorted; [now apply IH|].
    eapply Permutation_Forall; [apply sorted_reverse_perm|exact Hx].
Qed.

End StableSort.

Lemma StronglySorted_split {A : Type} (R : A -> A -> Prop) l r1 a r2 b r3 :
  StronglySorted R l -> l = r1 ++ a :: r2 ++ b :: r3 -> R a b.
Proof.
  intros Hs ->. induction r1 as [|x r1 IH]; simpl in Hs.
  - apply StronglySorted_inv in Hs as [_ Ha].
    rewrite List.Forall_forall in Ha. apply Ha.
    rewrite in_app_iff. right. now left.
  - apply StronglySorted_inv in Hs as [Hs _]. now apply IH.
Qed.

Lemma firstn_In {A : Type} (n : nat) (l : list A) x :
  In x (firstn n l) -> In x l.
Proof.
  intros Hin. rewrite <- (firstn_skipn n l), in_app_iff. now left.
Qed.

Lemma firstn_NoDup {A : Type} (n : nat) (l : list A) :
  List.NoDup l -> List.NoDup (firstn n l).
Proof.
  intros Hnd. rewrite <- (firstn_skipn n l) in Hnd.
  now apply NoDup_app_remove_r in Hnd.
Qed.

Lemma StronglySorted_firstn {A : Type} (R : A -> A -> Prop) n l :
  StronglySorted R l -> StronglySorted R (firstn n l).
Proof.
  revert n. induction l as [|x rest IH]; intros [|n] Hs; simpl;
    try constructor.
  - apply StronglySorted_inv in Hs as [Hs _]. now apply IH.
  - apply StronglySorted_inv in Hs as [_ Hx].
    rewrite List.Forall_forall in Hx |- *. intros z Hz.
    apply Hx. eapply firstn_In; exact Hz.
Qed.

Lemma StronglySorted_snoc {A : Type} (R : A -> A -> Prop) l x :
  StronglySorted R l -> Forall (fun y => R y x) l ->
  StronglySorted R (l ++ [x]).
Proof.
  induction l as [|y rest IH]; intros Hs Hx; simpl.
  - constructor; constructor.
  - apply StronglySorted_inv in Hs as [Hs Hy].
    constructor.
    + apply IH; [exact Hs|]. now apply Forall_inv_tail in Hx.
    + apply Forall_app. split; [exact Hy|].
      constructor; [|constructor]. now apply Forall_inv in Hx.
Qed.

Lemma StronglySorted_weaken {A : Type} (R R' : A -> A -> Prop) l :
  (forall x y, R x y -> R' x y) -> StronglySorted R l -> StronglySorted R' l.
Proof.
  intros Himp. induction 1 as [|x l Hs IH Hx]; constructor; [exact IH|].
  eapply List.Forall_impl; [|exact Hx]. apply Himp.
Qed.

Lemma StronglySorted_map {A B : Type} (f : A -> B) (R : B -> B -> Prop) l :
  StronglySorted R (List.map f l) ->
  StronglySorted (fun x y => R (f x) (f y)) l.
Proof.
  induction l as [|x rest IH]; simpl; intros Hs; [constructor|].
  apply StronglySorted_inv in Hs as [Hs Hx]. constructor; [now apply IH|].
  rewrite List.Forall_forall in Hx |- *. intros y Hy.
  apply Hx. now apply in_map.
Qed.

(** ** Ranking of the keywords *)

Lemma str_eqb_true a b : str_eqb a b = true <-> a = b.
Proof. unfold str_eqb. apply bool_decide_eq_true. Qed.

Lemma str_eqb_false a b : str_eqb a b = false <-> a <> b.
Proof. unfold str_eqb. apply bool_decide_eq_false. Qed.

Lemma str_eqb_refl a : str_eqb a a = true.
Proof. now apply str_eqb_true. Qed.

Lemma counter_add_get k c k' :
  counter_get (counter_add k c) k'
  = if str_eqb k k' then S (counter_get c k') else counter_get c k'.
Proof.
  induction c as [|[k0 n] rest IH]; simpl.
  - now destruct (str_eqb k k').
  - destruct (str_eqb k0 k) eqn:H0k; simpl.
    + apply str_eqb_true in H0k as ->. now destruct (str_eqb k k').
    + destruct (str_eqb k0 k') eqn:H0k'; [|exact IH].
      apply str_eqb_true in H0k' as ->.
      apply str_eqb_false in H0k.
      assert (Hkk : str_eqb k k' = false)
        by (apply str_eqb_false; congruence).
      now rewrite Hkk.
Qed.

Lemma Counter_snoc l k : Counter (l ++ [k]) = counter_add k (Counter l).
Proof. unfold Counter. now rewrite fold_left_app. Qed.

Lemma count_snoc l k k' :
  count (l ++ [k]) k' = if str_eqb k k' then S (count l k') else count l k'.
Proof.
  unfold count. rewrite count_occ_app. simpl.
  destruct (str_eq_dec k k') as [->|Hne].
  - rewrite str_eqb_refl. lia.
  - apply str_eqb_false in Hne. rewrite Hne. lia.
Qed.

Lemma Counter_get l k : counter_get (Counter l) k = count l k.
Proof.
  induction l as [|k0 l IH] using rev_ind; [reflexivity|].
  now rewrite Counter_snoc, counter_add_get, count_snoc, IH.
Qed.

Lemma counter_add_keys_old k c :
  In k (List.map fst c) ->
  List.map fst (counter_add k c) = List.map fst c.
Proof.
  induction c as [|[k0 n] rest IH]; simpl; [intros []|].
  destruct (str_eqb k0 k) eqn:H0k; [reflexivity|].
  apply str_eqb_false in H0k.
  intros [Heq|Hin]; [contradiction|]. simpl. f_equal. now apply IH.
Qed.

Lemma counter_add_keys_new k c :
  ~ In k (List.map fst c) ->
  List.map fst (counter_add k c) = List.map fst c ++ [k].
Proof.
  induction c as [|[k0 n] rest IH]; simpl; [reflexivity|].
  intros Hn. destruct (str_eqb k0 k) eqn:H0k.
  - apply str_eqb_true in H0k. exfalso. apply Hn. now left.
  - simpl. f_equal. apply IH. intros Hin. apply Hn. now right.
Qed.

Lemma Counter_keys_In l k : In k (List.map fst (Counter l)) <-> In k l.
Proof.
  induction l as [|k0 l IH] using rev_ind; [reflexivity|].
  rewrite Counter_snoc, in_app_iff.
  destruct (in_dec str_eq_dec k0 (List.map fst (Counter l))) as [Hin|Hn].
  - rewrite counter_add_keys_old by exact Hin. rewrite IH. simpl.
    split; [tauto|].
    intros [H|[<-|[]]]; [exact H|]. now apply IH.
  - rewrite counter_add_keys_new by exact Hn.
    rewrite in_app_iff, IH. reflexivity.
Qed.

Lemma Counter_keys_NoDup l : List.NoDup (List.map fst (Counter l)).
Proof.
  induction l as [|k0 l IH] using rev_ind; [constructor|].
  rewrite Counter_snoc.
  destruct (in_dec str_eq_dec k0 (List.map fst (Counter l))) as [Hin|Hn].
  - now rewrite counter_add_keys_old.
  - rewrite counter_add_keys_new by exact Hn.
    eapply Permutation_NoDup; [apply Permutation_cons_append|].
    now constructor.
Qed.

Lemma seen_before_snoc l k a b :
  seen_before l a b -> seen_before (l ++ [k]) a b.
Proof.
  intros (p & q & -> & Hp & Hne). exists p, (q ++ [k]).
  split; [now rewrite <- app_assoc|]. now split.
Qed.

Lemma Counter_keys_order l :
  StronglySorted (seen_before l) (List.map fst (Counter l)).
Proof.
  induction l as [|k0 l IH] using rev_ind; [constructor|].
  rewrite Counter_snoc.
  apply (StronglySorted_weaken _ (seen_before (l ++ [k0]))) in IH;
    [|intros x y; apply seen_before_snoc].
  destruct (in_dec str_eq_dec k0 (List.map fst (Counter l))) as [Hin|Hn].
  - now rewrite counter_add_keys_old.
  - rewrite counter_add_keys_new by exact Hn.
    apply StronglySorted_snoc; [exact IH|].
    rewrite List.Forall_forall. intros a Ha.
    assert (Hal : In a l) by now apply Counter_keys_In.
    assert (Hkl : ~ In k0 l) by now rewrite <- Counter_keys_In.
    destruct (in_split _ _ Hal) as (p & q & ->).
    exists p, (q ++ [k0]). split; [now rewrite <- app_assoc|].
    split.
    + intros Hin. apply Hkl. rewrite in_app_iff. now left.
    + intros ->. contradiction.
Qed.

Lemma counter_In_get c k n :
  List.NoDup (List.map fst c) -> In (k, n) c -> counter_get c k = n.
Proof.
  induction c as [|[k0 n0] rest IH]; simpl; [intros _ []|].
  intros Hnd Hin. apply NoDup_cons_iff in Hnd as [Hk0 Hnd].
  destruct Hin as [[= -> ->]|Hin].
  - now rewrite str_eqb_refl.
  - destruct (str_eqb k0 k) eqn:H0k.
    + apply str_eqb_true in H0k as ->. exfalso. apply Hk0.
      change k with (fst (k, n)). now apply in_map.
    + now apply IH.
Qed.

Lemma Counter_In l k n : In (k, n) (Counter l) -> n = count l k /\ In k l.
Proof.
  intros Hin. split.
  - rewrite <- Counter_get. symmetry.
    apply counter_In_get; [apply Counter_keys_NoDup|exact Hin].
  - apply Counter_keys_In. change k with (fst (k, n)). now apply in_map.
Qed.

Lemma Counter_length l : length (Counter l) = length (nodup str_eq_dec l).
Proof.
  rewrite <- (length_map fst). apply Permutation_length.
  apply Permutation.NoDup_Permutation.
  - apply Counter_keys_NoDup.
  - apply NoDup_nodup.
  - intros k. now rewrite Counter_keys_In, nodup_In.
Qed.

(** The counter's items in the order of [most_common]. *)
Lemma ranking_sorted l :
  StronglySorted
    (desc_then (fun kv : str * nat => Z.of_nat (snd kv))
               (fun x y => seen_before l (fst x) (fst y)))
    (sorted_reverse (fun kv => Z.of_nat (snd kv)) (Counter l)).
Proof.
  apply sorted_reverse_sorted, StronglySorted_map, Counter_keys_order.
Qed.

Lemma ranking_In l k n :
  In (k, n) (sorted_reverse (fun kv => Z.of_nat (snd kv)) (Counter l)) ->
  n = count l k /\ In k l.
Proof.
  intros Hin. apply Counter_In.
  eapply Permutation_in; [symmetry; apply sorted_reverse_perm|exact Hin].
Qed.

Lemma ranking_order l x y :
  let ranking := sorted_reverse (fun kv => Z.of_nat (snd kv)) (Counter l) in
  In x ranking -> In y ranking ->
  desc_then (fun kv : str * nat => Z.of_nat (snd kv))
            (fun x y => seen_before l (fst x) (fst y)) x y ->
  ranked_before l (fst x) (fst y).
Proof.
  intros ranking Hx Hy Hxy. destruct x as [a na], y as [b nb].
  apply ranking_In in Hx as [-> _]. apply ranking_In in Hy as [-> _].
  unfold desc_then in Hxy. simpl in *. destruct Hxy as [Hlt|[Heq Hsb]].
  - left. lia.
  - right. split; [lia|exact Hsb].
Qed.

Lemma top_keywords_unfold k rest :
  _get_top_keywords (k :: rest)
  = List.map fst
      (firstn 10 (sorted_reverse (fun kv => Z.of_nat (snd kv))
                                 (Counter (k :: rest)))).
Proof. reflexivity. Qed.

(** C6: the top keywords of an empty collection are the five default
    keywords, so the list is never empty; otherwise they are distinct
    collected keywords, as many as there are distinct keywords up to ten,
    each one ranking before those after it and before every collected
    keyword left out, where a keyword ranks first when it is more frequent
    or as frequent and seen first; for the counts AI: 5, GPT: 5,
    인공지능: 3 with AI seen first the list is AI, GPT, 인공지능. *)
Theorem top_keywords_ranked (all_keywords : list str) :
  let top := _get_top_keywords all_keywords in
  (all_keywords = [] -> top = default_keywords) /\
  top <> [] /\
  (all_keywords <> [] ->
     length top = Nat.min (length (nodup str_eq_dec all_keywords)) 10 /\
     List.NoDup top /\
     (forall k, In k top -> In k all_keywords) /\
     (forall r1 a r2 b r3,
         top = r1 ++ a :: r2 ++ b :: r3 -> ranked_before all_keywords a b) /\
     (forall a b,
         In a top -> In b all_keywords -> ~ In b top ->
         ranked_before all_keywords a b)) /\
  (count sample_keywords (py "AI") = 5 /\
   count sample_keywords (py "GPT") = 5 /\
   count sample_keywords (py "인공지능") = 3 /\
   _get_top_keywords sample_keywords = List.map py ["AI"; "GPT"; "인공지능"]%string).
Proof.
  intros top.
  assert (Hmain : all_keywords <> [] ->
     length top = Nat.min (length (nodup str_eq_dec all_keywords)) 10 /\
     List.NoDup top /\
     (forall k, In k top -> In k all_keywords) /\
     (forall r1 a r2 b r3,
         top = r1 ++ a :: r2 ++ b :: r3 -> ranked_before all_keywords a b) /\
     (forall a b,
         In a top -> In b all_keywords -> ~ In b top ->
         ranked_before all_keywords a b)).
  { intros Hne. destruct all_keywords as [|k0 rest]; [contradiction|].
    subst top. rewrite top_keywords_unfold.
    set (l := k0 :: rest).
    set (key := fun kv : str * nat => Z.of_nat (snd kv)).
    set (ranking := sorted_reverse key (Counter l)).
    assert (Hsorted := ranking_sorted l). fold key ranking in Hsorted.
    assert (Hperm : Permutation (Counter l) ranking)
      by apply sorted_reverse_perm.
    split; [|split; [|split; [|split]]].
    - rewrite length_map, length_firstn.
      unfold ranking. rewrite sorted_reverse_length, Counter_length. lia.
    - rewrite <- firstn_map. apply firstn_NoDup.
      eapply Permutation_NoDup;
        [apply Permutation_map, Hperm|apply Counter_keys_NoDup].
    - intros k Hk. apply in_map_iff in Hk as ([k' n] & <- & Hin).
      apply firstn_In in Hin. now apply ranking_In in Hin.
    - intros r1 a r2 b r3 Heq.
      apply map_eq_app in Heq as (t1 & t2 & Ht & _ & Heq).
      apply map_eq_cons in Heq as (x & t3 & -> & Hx & Heq).
      apply map_eq_app in Heq as (t4 & t5 & -> & _ & Heq).
      apply map_eq_cons in Heq as (y & t6 & -> & Hy & _).
      subst a b. apply ranking_order.
      + apply (firstn_In 10). fold key ranking. rewrite Ht.
        apply in_elt.
      + apply (firstn_In 10). fold key ranking. rewrite Ht.
        apply in_or_app. right. right. apply in_elt.
      + eapply StronglySorted_split;
          [apply (StronglySorted_firstn _ 10), Hsorted|exact Ht].
    - intros a b Ha Hb Hnb.
      apply in_map_iff in Ha as (x & <- & Hx).
      apply Counter_keys_In in Hb.
      apply in_map_iff in Hb as (y & <- & Hy).
      apply (Permutation_in _ Hperm) in Hy.
      assert (Hsk : In y (skipn 10 ranking)).
      { rewrite <- (firstn_skipn 10 ranking) in Hy.
        apply in_app_iff in Hy as [Hy|Hy]; [|exact Hy].
        exfalso. apply Hnb. now apply in_map. }
      apply ranking_order.
      + now apply firstn_In in Hx.
      + exact Hy.
      + destruct (in_split _ _ Hx) as (t1 & t2 & Ht).
        destruct (in_split _ _ Hsk) as (t3 & t4 & Hs).
        eapply (StronglySorted_split _ ranking t1 x (t2 ++ t3) y t4);
          [exact Hsorted|].
        rewrite <- (firstn_skipn 10 ranking), Ht, Hs.
        now rewrite <- !app_assoc. }
  split; [|split; [|split]].
  - intros ->. reflexivity.
  - destruct all_keywords as [|k0 rest]; [discriminate|].
    destruct Hmain as [Hlen _]; [discriminate|].
    intros Hnil. rewrite Hnil in Hlen.
    assert (Hin : In k0 (nodup str_eq_dec (k0 :: rest)))
      by (apply nodup_In; now left).
    destruct (nodup str_eq_dec (k0 :: rest)); [destruct Hin|].
    simpl in Hlen. lia.
  - exact Hmain.
  - vm_compute. repeat split.
Qed.

Lemma top_keywords_ranked_witness :
  ranked_before sample_keywords (py "AI") (py "GPT").
Proof.
  destruct (top_keywords_ranked sample_keywords) as (_ & _ & Hmain & _).
  destruct Hmain as (_ & _ & _ & Horder & _); [discriminate|].
  apply (Horder [] (py "AI") [] (py "GPT") [py "인공지능"]).
  reflexivity.
Defined.

(** ** Tagging *)

Lemma find_first {A : Type} (f : A -> bool) l x :
  List.find f l = Some x ->
  exists pre post,
    l = pre ++ x :: post /\ f x = true /\ Forall (fun e => f e = false) pre.
Proof.
  induction l as [|y rest IH]; simpl; [discriminate|].
  destruct (f y) eqn:Hy.
  - intros [= ->]. exists [], rest. repeat split; [exact Hy|constructor].
  - intros Hfind. destruct (IH Hfind) as (pre & post & -> & Hx & Hpre).
    exists (y :: pre), post. repeat split; [exact Hx|now constructor].
Qed.

Lemma find_nothing {A : Type} (f : A -> bool) l :
  List.find f l = None -> Forall (fun e => f e = false) l.
Proof.
  intros Hfind. rewrite List.Forall_forall. intros e He.
  exact (find_none f l Hfind e He).
Qed.

Section Tagger.
Context `{L : PyLib} `{Cfg : Config}.

(** X24: for an article with a title, the keywords are the vocabulary
    terms whose lower-cased form occurs in the lower-cased title, space,
    summary: the first five of them in the order of the vocabulary, and
    all of them when they are at most five; when the configuration
    declares the category table, the category is the first entry of the
    table with a keyword that occurs in that text, and "AI 뉴스" when no
    entry has one; when it declares none, the lookup of the table raises
    [AttributeError]. *)
Theorem tagger_first_match (a : article) (t summary : str) :
  title a = Some t ->
  let text := lower (t ++ [SPACE] ++ summary) in
  let occurs keyword := contains text (lower keyword) in
  (exists keywords rest,
      _extract_keywords a summary = Ok keywords /\
      List.filter occurs AI_KEYWORDS = keywords ++ rest /\
      length keywords = Nat.min 5 (length (List.filter occurs AI_KEYWORDS)) /\
      (forall k, In k keywords -> In k AI_KEYWORDS /\ occurs k = true) /\
      (length (List.filter occurs AI_KEYWORDS) <= 5 ->
       forall k, In k AI_KEYWORDS -> occurs k = true -> In k keywords)) /\
  (forall table,
      CATEGORY_KEYWORDS = Some table ->
      exists category,
        _categorize_article a summary = Ok category /\
        ((exists pre keywords post hit,
             table = pre ++ (category, keywords) :: post /\
             In hit keywords /\ occurs hit = true /\
             Forall (fun e => forall k, In k (snd e) -> occurs k = false) pre)
         \/
         (category = py "AI 뉴스" /\
          Forall (fun e => forall k, In k (snd e) -> occurs k = false)
                 table))) /\
  (CATEGORY_KEYWORDS = None ->
   _categorize_article a summary = Raise (AttributeError "CATEGORY_KEYWORDS")).
Proof.
  intros Ht text occurs.
  assert (Hmiss : forall e : str * list str,
             category_hit text e = false ->
             forall k, In k (snd e) -> occurs k = false).
  { intros e He k Hk. unfold category_hit in He.
    destruct (occurs k) eqn:Hok; [|reflexivity].
    assert (Hex : existsb (fun keyword => contains text (lower keyword))
                          (snd e) = true)
      by (apply existsb_exists; now exists k).
    congruence. }
  split; [|split].
  - unfold _extract_keywords, tagged_text. rewrite Ht. cbn [getitem].
    change (lower (t ++ [SPACE] ++ summary)) with text. fold occurs.
    set (found := List.filter occurs AI_KEYWORDS).
    exists (firstn 5 found), (skipn 5 found).
    split; [reflexivity|]. split; [now rewrite firstn_skipn|].
    split; [apply length_firstn|]. split.
    + intros k Hk. apply firstn_In in Hk. now apply filter_In in Hk.
    + intros Hlen k Hk Hok. rewrite firstn_all2 by exact Hlen.
      apply filter_In. now split.
  - intros table Htable.
    unfold _categorize_article, tagged_text. rewrite Ht, Htable.
    cbn [getitem getattr mbind result_bind].
    change (lower (t ++ [SPACE] ++ summary)) with text.
    destruct (List.find (category_hit text) table)
      as [[category keywords]|] eqn:Hfind.
    + exists category. split; [reflexivity|]. left.
      apply find_first in Hfind as (pre & post & Heq & Hhit & Hpre).
      unfold category_hit in Hhit. simpl in Hhit.
      apply existsb_exists in Hhit as (hit & Hin & Hhit).
      exists pre, keywords, post, hit. repeat split; try assumption.
      eapply List.Forall_impl; [|exact Hpre]. exact Hmiss.
    + exists (py "AI 뉴스"). split; [reflexivity|]. right.
      split; [reflexivity|].
      apply find_nothing in Hfind.
      eapply List.Forall_impl; [|exact Hfind]. exact Hmiss.
  - intros Hnone. unfold _categorize_article, tagged_text.
    rewrite Ht, Hnone. reflexivity.
Qed.

End Tagger.

Lemma tagger_first_match_witness :
  exists keywords rest,
    @_extract_keywords plain_lib sample_config
       (stub "OpenAI unveils GPT update" "https://example.com/a" "")
       (py "a new LLM") = Ok keywords /\
    keywords ++ rest = List.map py ["AI"; "OpenAI"; "LLM"; "GPT"]%string.
Proof.
  destruct (@tagger_first_match plain_lib sample_config
              (stub "OpenAI unveils GPT update" "https://example.com/a" "")
              (py "OpenAI unveils GPT update") (py "a new LLM") eq_refl)
    as ((keywords & rest & Hk & Hall & _) & _).
  exists keywords, rest. split; [exact Hk|].
  rewrite <- Hall. vm_compute. reflexivity.
Defined.

(** C7: [config.py] declares no [CATEGORY_KEYWORDS], so with the
    configuration as it stands [_categorize_article] raises
    [AttributeError] for the article of the scenario, whose text holds
    스타트업 alone, where the table of the scenario gives 기술; the
    keywords of an article are found all the same. *)
Lemma categorize_without_table :
  let a := stub "스타트업 투자 확대" "https://example.com/a" "" in
  @CATEGORY_KEYWORDS repository_config = None /\
  @_categorize_article plain_lib repository_config a []
  = Raise (AttributeError "CATEGORY_KEYWORDS") /\
  @_categorize_article plain_lib sample_config a [] = Ok (py "기술") /\
  @_extract_keywords plain_lib repository_config
     (stub "OpenAI unveils GPT update" "https://example.com/a" "")
     (py "a new LLM")
  = Ok (List.map py ["AI"; "OpenAI"; "LLM"; "GPT"]%string).
Proof. vm_compute. repeat split. Qed.

Lemma enumerate_map_snd {A : Type} (l : list A) : forall i,
  List.map snd (enumerate i l) = l.
Proof.
  induction l as [|x rest IH]; intros i; simpl; [reflexivity|].
  now rewrite IH.
Qed.

Lemma enumerate_length {A : Type} (l : list A) i :
  length (enumerate i l) = length l.
Proof. rewrite <- (length_map snd). now rewrite enumerate_map_snd. Qed.

(** ** The crawl loop *)

Section Crawl.
Context `{L : PyLib} `{W : World} `{Cfg : Config}.

Lemma extract_main_content_counters self soup url :
  let '(self', _, _) := _extract_main_content self soup url in
  self' = self \/ self' = use_fallback self.
Proof.
  unfold _extract_main_content.
  destruct (try_selectors soup _) as [soup' [content|]]; [now left|].
  destruct (find_all (py "p") soup') as [|p ps].
  - destruct (find (py "body") soup'); now left.
  - now right.
Qed.

Lemma extract_content_counters self link :
  let '(self', _) := _extract_content self link in
  self' = self \/ self' = use_fallback self.
Proof.
  unfold _extract_content. destruct (fetch link) as [soup|e]; [|now left].
  pose proof (extract_main_content_counters self soup link) as Hc.
  destruct (_extract_main_content self soup link) as [[self' soup'] content].
  now destruct (_extract_images soup' link).
Qed.

Lemma extract_images_length soup base_url images :
  _extract_images soup base_url = Ok images -> length images <= 5.
Proof.
  unfold _extract_images.
  destruct (images_loop base_url _ []) as [all|e];
    cbn [mbind result_bind]; [|intros Heq; discriminate Heq].
  intros [= <-]. rewrite length_firstn. lia.
Qed.

Lemma extract_content_images self link :
  length (snd (snd (_extract_content self link))) <= 5.
Proof.
  unfold _extract_content. destruct (fetch link) as [soup|e]; simpl; [|lia].
  destruct (_extract_main_content self soup link) as [[self' soup'] content].
  destruct (_extract_images soup' link) as [images|e] eqn:Himg; simpl; [|lia].
  eapply extract_images_length, Himg.
Qed.

Lemma extract_content_offline self link e :
  fetch link = Raise e -> _extract_content self link = (self, ([], [])).
Proof. intros Hf. unfold _extract_content. now rewrite Hf. Qed.

Lemma step_no_title i a fr :
  title a = None ->
  crawl_step i a fr
  = (Raise (KeyError "title"),
     {| self_ := with_stats (self_ fr) count_failure;
        crawled_articles := crawled_articles fr |}).
Proof.
  intros Ht. unfold crawl_step, try_except, crawl_one, crawl_failed.
  rewrite Ht. reflexivity.
Qed.

Lemma step_no_link i a fr t :
  title a = Some t -> link a = None ->
  crawl_step i a fr
  = (Ok tt,
     {| self_ := with_stats (self_ fr) count_failure;
        crawled_articles :=
          crawled_articles fr
            ++ [store_crawl a (default [] (summary a)) [] error
                            (time_time i)] |}).
Proof.
  intros Ht Hl. unfold crawl_step, try_except, crawl_one, crawl_failed.
  rewrite Ht, Hl. reflexivity.
Qed.

Lemma step_link i a fr t l :
  title a = Some t -> link a = Some l ->
  crawl_step i a fr
  = (let '(self', (c, imgs)) := _extract_content (self_ fr) l in
     (Ok tt,
      {| self_ :=
           with_stats self'
             (if truthy c then count_success else count_failure);
         crawled_articles :=
           crawled_articles fr
             ++ [store_crawl a c imgs
                   (if truthy c then success else failed)
                   (time_time i)] |})).
Proof.
  intros Ht Hl. unfold crawl_step, try_except, crawl_one.
  rewrite Ht, Hl.
  unfold mbind, M_bind, bind, lift, getitem, with_crawler.
  destruct (_extract_content (self_ fr) l) as [self' [c imgs]].
  unfold append, set_stats, with_crawler.
  now destruct (truthy c).
Qed.

Lemma step_spec i a fr t :
  title a = Some t ->
  exists a' self',
    crawl_step i a fr
    = (Ok tt, {| self_ := self';
                 crawled_articles := crawled_articles fr ++ [a'] |}) /\
    crawl_outcome (content_selectors (self_ fr)) i a a' /\
    content_selectors self' = content_selectors (self_ fr) /\
    counted 1 (stats (self_ fr)) (stats self').
Proof.
  intros Ht. destruct (link a) as [l|] eqn:Hl.
  - rewrite (step_link i a fr t l Ht Hl).
    pose proof (extract_content_counters (self_ fr) l) as Hc.
    destruct (_extract_content (self_ fr) l) as [self' [c imgs]] eqn:Hx.
    eexists _, _. split; [reflexivity|]. split; [|split].
    + exists c, imgs, (if truthy c then success else failed).
      split; [reflexivity|]. right. exists l, (self_ fr), self'.
      now rewrite Hl.
    + destruct Hc as [->| ->]; reflexivity.
    + unfold counted.
      destruct Hc as [->| ->]; destruct (truthy c); simpl; lia.
  - rewrite (step_no_link i a fr t Ht Hl).
    eexists _, _. split; [reflexivity|]. split; [|split].
    + exists (default [] (summary a)), [], error.
      split; [reflexivity|]. left. now rewrite Hl.
    + reflexivity.
    + unfold counted. simpl. lia.
Qed.

End Crawl.

Section CrawlLoop.
Context `{L : PyLib} `{W : World} `{Cfg : Config}.

Lemma counted_trans n m s1 s2 s3 :
  counted n s1 s2 -> counted m s2 s3 -> counted (n + m) s1 s3.
Proof. unfold counted. lia. Qed.

Lemma loop_spec articles : forall i fr,
  Forall (fun a => title a <> None) articles ->
  exists out self',
    for_enumerate crawl_step i articles fr
    = (Ok tt, {| self_ := self';
                 crawled_articles := crawled_articles fr ++ out |}) /\
    Forall2 (fun ia a' =>
               crawl_outcome (content_selectors (self_ fr))
                             (fst ia) (snd ia) a')
            (enumerate i articles) out /\
    content_selectors self' = content_selectors (self_ fr) /\
    counted (length articles) (stats (self_ fr)) (stats self').
Proof.
  induction articles as [|a rest IH]; intros i fr Hwf.
  - exists [], (self_ fr). simpl. rewrite app_nil_r.
    destruct fr. repeat split; try constructor; simpl; lia.
  - apply Forall_cons_iff in Hwf as [Ha Hrest].
    destruct (title a) as [t|] eqn:Ht; [|contradiction].
    destruct (step_spec i a fr t Ht) as (a' & self1 & Hstep & Hout & Hsel & Hcnt).
    destruct (IH (S i) {| self_ := self1;
                          crawled_articles := crawled_articles fr ++ [a'] |}
                 Hrest)
      as (out & self2 & Hloop & Houts & Hsel2 & Hcnt2).
    exists (a' :: out), self2. simpl in *.
    unfold mbind, M_bind, bind. rewrite Hstep, Hloop.
    rewrite <- app_assoc. simpl. repeat split.
    + constructor; [exact Hout|].
      now rewrite Hsel in Houts.
    + now rewrite Hsel2.
    + unfold counted in *. lia.
    + unfold counted in *. lia.
    + unfold counted in *. lia.
    + unfold counted in *. lia.
    + unfold counted in *. lia.
    + unfold counted in *. lia.
Qed.

Lemma loop_ok_titles articles : forall i fr fr',
  for_enumerate crawl_step i articles fr = (Ok tt, fr') ->
  Forall (fun a => title a <> None) articles.
Proof.
  induction articles as [|a rest IH]; intros i fr fr' Hrun; [constructor|].
  simpl in Hrun. unfold mbind, M_bind, bind in Hrun.
  destruct (title a) as [t|] eqn:Ht.
  - destruct (step_spec i a fr t Ht) as (a' & self1 & Hstep & _).
    rewrite Hstep in Hrun. constructor; [congruence|].
    eapply IH. exact Hrun.
  - rewrite (step_no_title i a fr Ht) in Hrun. discriminate Hrun.
Qed.

Lemma print_statistics_total self : exists q, _print_statistics self = Ok q.
Proof.
  unfold _print_statistics.
  destruct (Nat.ltb_spec 0 (total_attempts (stats self))) as [Hpos|Hzero].
  - destruct (total_attempts (stats self)) as [|n]; [lia|].
    simpl. eauto.
  - eauto.
Qed.

Lemma crawl_articles_unfold self articles :
  crawl_articles self articles
  = (let '(r, fr) :=
       for_enumerate crawl_step 1 articles
         {| self_ := with_stats self (set_total (length articles));
            crawled_articles := [] |} in
     match r with
     | Ok _ =>
       match _print_statistics (self_ fr) with
       | Ok _ => (Ok (crawled_articles fr), self_ fr)
       | Raise e => (Raise e, self_ fr)
       end
     | Raise e => (Raise e, self_ fr)
     end).
Proof.
  unfold crawl_articles, mbind, M_bind, bind, set_stats, with_crawler,
    print_statistics, return_crawled.
  simpl.
  destruct (for_enumerate crawl_step 1 articles _) as [[u|e] fr];
    [|reflexivity].
  now destruct (_print_statistics (self_ fr)).
Qed.

Lemma crawl_articles_spec self articles :
  Forall (fun a => title a <> None) articles ->
  exists out self',
    crawl_articles self articles = (Ok out, self') /\
    Forall2 (fun ia a' =>
               crawl_outcome (content_selectors self) (fst ia) (snd ia) a')
            (enumerate 1 articles) out /\
    content_selectors self' = content_selectors self /\
    counted (length articles)
            (set_total (length articles) (stats self)) (stats self').
Proof.
  intros Hwf. rewrite crawl_articles_unfold.
  destruct (loop_spec articles 1
              {| self_ := with_stats self (set_total (length articles));
                 crawled_articles := [] |} Hwf)
    as (out & self' & Hloop & Houts & Hsel & Hcnt).
  rewrite Hloop. simpl.
  destruct (print_statistics_total self') as [q ->].
  simpl in *. exists out, self'. split; [reflexivity|].
  split; [exact Houts|]. split; [exact Hsel|exact Hcnt].
Qed.

Lemma crawl_articles_ok_titles self articles out self' :
  crawl_articles self articles = (Ok out, self') ->
  Forall (fun a => title a <> None) articles.
Proof.
  rewrite crawl_articles_unfold.
  destruct (for_enumerate crawl_step 1 articles _) as [[[]|e] fr] eqn:Hloop;
    [|discriminate].
  intros _. eapply loop_ok_titles. exact Hloop.
Qed.

Lemma Forall2_enumerate {B : Type} (P : article -> B -> Prop)
  (Q : nat * article -> B -> Prop) articles : forall i out,
  (forall j a b, Q (j, a) b -> P a b) ->
  Forall2 Q (enumerate i articles) out -> Forall2 P articles out.
Proof.
  induction articles as [|a rest IH]; intros i out Himp Hq;
    simpl in Hq; inversion Hq; subst; constructor.
  - eapply Himp. eassumption.
  - eapply IH; eassumption.
Qed.

Lemma outcome_enriched selectors i a a' :
  crawl_outcome selectors i a a' -> enriched a'.
Proof.
  intros (c & imgs & st & -> & Hcase). exists c, imgs. simpl.
  repeat split.
  - destruct Hcase as [(_ & _ & -> & _)|(l & self & self' & _ & _ & Hx & _)].
    + simpl. lia.
    + pose proof (extract_content_images self l) as Hlen.
      now rewrite Hx in Hlen.
  - intros [= Hst].
    destruct Hcase as [(_ & _ & _ & ->)|(l & self & self' & _ & _ & _ & ->)];
      [discriminate|].
    destruct c; [reflexivity|discriminate].
Qed.

Lemma store_crawled (a : article) c imgs st now :
  crawled a (store_crawl a c imgs st now) c imgs st now.
Proof. unfold crawled. cbn. repeat split; reflexivity. Qed.

(** C1: for a batch in which every stub has a title (as every stub
    with a title, a link and a summary has), [crawl_articles] returns
    and does not raise; it returns as many records as there are stubs,
    and the record at each place is the stub of that place: it has the
    stub's title, link, url, summary, source and published time, and on
    top of them a content, the list of its images, the length of the
    content, a status and the time of the crawl, whatever happened while
    it was fetched. *)
Theorem crawl_articles_total self (articles : list article) :
  Forall (fun a => title a <> None) articles ->
  exists out self',
    crawl_articles self articles = (Ok out, self') /\
    length out = length articles /\
    Forall2 (fun ia a' => exists c imgs st,
                 crawled (snd ia) a' c imgs st (time_time (fst ia)))
            (enumerate 1 articles) out.
Proof.
  intros Hwf.
  destruct (crawl_articles_spec self articles Hwf)
    as (out & self' & Hrun & Houts & _).
  exists out, self'. split; [exact Hrun|].
  assert (Hall : Forall2 (fun ia a' => exists c imgs st,
                             crawled (snd ia) a' c imgs st
                                     (time_time (fst ia)))
                         (enumerate 1 articles) out).
  { eapply Forall2_impl; [exact Houts|].
    intros [i a] b (c & imgs & st & -> & _).
    exists c, imgs, st. apply store_crawled. }
  split; [|exact Hall].
  rewrite <- (enumerate_length articles 1).
  symmetry. eapply Forall2_length. exact Hall.
Qed.

(** X23: in a batch of stubs with titles, a stub whose link cannot be
    fetched (the timeout is not configured, the request raises, the
    status is an error status, or the page cannot be read) keeps its own
    fields and gets the status [failed], the empty content, the length 0
    and no image; the status [error] with the summary as content and no
    image is what a stub without a link gets. *)
Theorem fetch_error_marks_failed self (articles : list article) :
  Forall (fun a => title a <> None) articles ->
  exists out self',
    crawl_articles self articles = (Ok out, self') /\
    Forall2 (fun ia a' =>
               (forall l e,
                   link (snd ia) = Some l -> fetch l = Raise e ->
                   crawled (snd ia) a' [] [] failed (time_time (fst ia)) /\
                   content_length a' = Some 0) /\
               (link (snd ia) = None ->
                crawled (snd ia) a' (default [] (summary (snd ia))) []
                        error (time_time (fst ia))))
            (enumerate 1 articles) out.
Proof.
  intros Hwf.
  destruct (crawl_articles_spec self articles Hwf)
    as (out & self' & Hrun & Houts & _).
  exists out, self'. split; [exact Hrun|].
  eapply Forall2_impl; [exact Houts|].
  intros [i a] a' (c & imgs & st & -> & Hcase). simpl in *. split.
  - intros l e Hl Hf.
    destruct Hcase as [(Hnone & _)|(l' & s0 & s1 & Hl' & _ & Hx & ->)];
      [congruence|].
    assert (l' = l) as -> by congruence.
    rewrite (extract_content_offline s0 l e Hf) in Hx.
    injection Hx as _ <- <-.
    split; [apply store_crawled|reflexivity].
  - intros Hnone.
    destruct Hcase as [(_ & -> & -> & ->)|(l' & _ & _ & Hl' & _)];
      [apply store_crawled|congruence].
Qed.

(** C5: every record that a run of [crawl_articles] returns has a
    content, which is a string and is empty when the status is [failed];
    its [content_length] is the length of that content; it has at most
    five images; and the keywords of an article are at most five. *)
Theorem enriched_records_invariant self (articles out : list article) self' :
  crawl_articles self articles = (Ok out, self') ->
  Forall enriched out /\
  (forall a summary keywords,
      _extract_keywords a summary = Ok keywords -> length keywords <= 5).
Proof.
  intros Hrun. split.
  - pose proof (crawl_articles_ok_titles _ _ _ _ Hrun) as Hwf.
    destruct (crawl_articles_spec self articles Hwf)
      as (out' & self'' & Hrun' & Houts & _).
    assert (out' = out) as -> by congruence.
    clear Hrun Hrun'. induction Houts as [|ia a' ias out Ho _ IH];
      constructor; [|exact IH].
    eapply outcome_enriched. exact Ho.
  - intros a summary keywords. unfold _extract_keywords.
    destruct (tagged_text a summary); [|discriminate].
    intros [= <-]. rewrite length_firstn. lia.
Qed.

(** C10 (as amended): a run over N stubs with titles returns; it sets
    [total_attempts] to N, adds N to the sum of [successful_crawls] and
    [failed_crawls] and at most N to [fallback_used]; so on a crawler
    whose counters are the zeros of [__init__] the two counters sum to
    [total_attempts] and [fallback_used] does not exceed it, and for
    N = 0 all four are zero; the statistics printout never divides by
    zero. *)
Theorem statistics_after_run self (articles : list article) :
  Forall (fun a => title a <> None) articles ->
  exists out self',
    crawl_articles self articles = (Ok out, self') /\
    let s := stats self in
    let s' := stats self' in
    let n := length articles in
    total_attempts s' = n /\
    successful_crawls s' + failed_crawls s'
      = successful_crawls s + failed_crawls s + n /\
    fallback_used s <= fallback_used s' <= fallback_used s + n /\
    (s = stats new_crawler ->
       successful_crawls s' + failed_crawls s' = total_attempts s' /\
       fallback_used s' <= total_attempts s' /\
       (n = 0 -> s' = stats new_crawler)) /\
    (forall c, exists rate, _print_statistics c = Ok rate).
Proof.
  intros Hwf.
  destruct (crawl_articles_spec self articles Hwf)
    as (out & self' & Hrun & _ & _ & Hcnt).
  exists out, self'. split; [exact Hrun|].
  unfold counted in Hcnt. simpl in Hcnt.
  destruct Hcnt as (Htot & Hsum & Hs & Hf & Hfb).
  cbv zeta. split; [lia|]. split; [lia|]. split; [lia|].
  split; [|apply print_statistics_total].
  intros Hz. rewrite Hz in *. simpl in *.
  split; [lia|]. split; [lia|].
  intros Hn. destruct (stats self') as [t s f fb]. simpl in *.
  f_equal; lia.
Qed.

End CrawlLoop.

(** The batch of the fetch scenario, run where every request times
    out. *)
Lemma sample_run :
  @crawl_articles plain_lib offline sample_config new_crawler [sample_stub]
  = (Ok [store_crawl sample_stub [] [] failed 0%Q],
     with_stats new_crawler
       (fun _ => {| total_attempts := 1; successful_crawls := 0;
                    failed_crawls := 1; fallback_used := 0 |})).
Proof. vm_compute. reflexivity. Qed.

Lemma sample_stub_titled : Forall (fun a => title a <> None) [sample_stub].
Proof. constructor; [discriminate|constructor]. Qed.

Lemma crawl_articles_total_witness :
  exists out self',
    @crawl_articles plain_lib offline sample_config new_crawler [sample_stub]
    = (Ok out, self') /\
    length out = 1.
Proof.
  destruct (@crawl_articles_total plain_lib offline sample_config new_crawler
              [sample_stub] sample_stub_titled)
    as (out & self' & Hrun & Hlen & _).
  exists out, self'. split; [exact Hrun|exact Hlen].
Defined.

(** C2: the stub of the scenario, fetched where the request runs into
    its timeout, is returned with the status [failed], the empty
    content, the length 0 and no image, not with the status [error] and
    its summary "short": [_extract_content] catches the error of the
    request itself and answers the empty content, so the handler of
    [crawl_articles], which stores the summary and [error], does not
    run. *)
Lemma fetch_timeout_not_error :
  exists a' self',
    @crawl_articles plain_lib offline sample_config new_crawler [sample_stub]
    = (Ok [a'], self') /\
    title sample_stub = Some (py "Sample AI Launch") /\
    link sample_stub = Some (py "https://example.com/a") /\
    summary sample_stub = Some (py "short") /\
    @fetch offline sample_config (py "https://example.com/a")
    = Raise (RequestException "Timeout") /\
    crawl_status a' = Some failed /\
    crawl_status a' <> Some error /\
    content a' = Some [] /\
    content a' <> Some (py "short") /\
    content_length a' = Some 0 /\
    images a' = Some [].
Proof.
  eexists _, _. split; [exact sample_run|].
  repeat split; discriminate.
Qed.

Lemma fetch_error_marks_failed_witness :
  exists out self',
    @crawl_articles plain_lib offline sample_config new_crawler [sample_stub]
    = (Ok out, self') /\
    Forall (fun a' => crawl_status a' = Some failed /\ content a' = Some [])
           out.
Proof.
  destruct (@fetch_error_marks_failed plain_lib offline sample_config
              new_crawler [sample_stub] sample_stub_titled)
    as (out & self' & Hrun & Houts).
  exists out, self'. split; [exact Hrun|].
  inversion Houts as [|ia a' ias out' [Hfail _] Hrest]; subst.
  inversion Hrest; subst.
  constructor; [|constructor].
  destruct (Hfail (py "https://example.com/a") (RequestException "Timeout")
                  eq_refl eq_refl) as [Hrec _].
  destruct Hrec as (_ & _ & _ & _ & _ & _ & Hc & _ & _ & Hst & _).
  split; [exact Hst|exact Hc].
Defined.

Lemma enriched_records_invariant_witness :
  Forall enriched [store_crawl sample_stub [] [] failed 0%Q].
Proof.
  exact (proj1 (@enriched_records_invariant plain_lib offline sample_config
                  new_crawler [sample_stub] _ _ sample_run)).
Defined.

Lemma statistics_after_run_witness :
  exists out self',
    @crawl_articles plain_lib offline sample_config new_crawler [sample_stub]
    = (Ok out, self') /\
    successful_crawls (stats self') + failed_crawls (stats self')
    = total_attempts (stats self').
Proof.
  destruct (@statistics_after_run plain_lib offline sample_config new_crawler
              [sample_stub] sample_stub_titled)
    as (out & self' & Hrun & _ & _ & _ & Hfresh & _).
  exists out, self'. split; [exact Hrun|].
  exact (proj1 (Hfresh eq_refl)).
Defined.

(** C10, counterexample: a crawler that has run on the sample batch and
    then runs on the empty batch ends with [total_attempts] 0 and
    [failed_crawls] 1. *)
Lemma reused_crawler_counters :
  let first_run :=
    @crawl_articles plain_lib offline sample_config new_crawler [sample_stub] in
  let second_run :=
    @crawl_articles plain_lib offline sample_config (snd first_run) [] in
  fst second_run = Ok [] /\
  total_attempts (stats (snd second_run)) = 0 /\
  failed_crawls (stats (snd second_run)) = 1 /\
  successful_crawls (stats (snd second_run))
    + failed_crawls (stats (snd second_run))
  <> total_attempts (stats (snd second_run)).
Proof. vm_compute. repeat split. discriminate. Qed.

(** ** The parsed page *)

Lemma node_induction (P : node -> Prop) :
  (forall kind s, P (NavigableString kind s)) ->
  (forall name classes attrs contents,
      Forall P contents -> P (Tag name classes attrs contents)) ->
  forall n, P n.
Proof.
  intros Hs Ht. fix IH 1. intros [kind s|name classes attrs contents].
  - apply Hs.
  - apply Ht. induction contents as [|k rest IHrest]; constructor.
    + apply IH.
    + exact IHrest.
Qed.

Lemma subtree_update_at p f : forall n e,
  subtree n p = Some e -> subtree (update_at p f n) p = Some (f e).
Proof.
  induction p as [|i p IH]; intros n e; simpl.
  - now intros [= ->].
  - destruct n as [kind s|name classes attrs contents]; [discriminate|].
    destruct (contents !! i) as [k|] eqn:Hk; [|discriminate].
    intros Hsub. rewrite list_lookup_alter_eq, Hk. simpl.
    now apply IH.
Qed.

Lemma subtree_clean_up p selectors : forall soup e,
  subtree soup p = Some e ->
  subtree (fold_left (fun soup s => update_at p (decompose_all s) soup)
                     selectors soup) p
  = Some (fold_left (fun e s => decompose_all s e) selectors e).
Proof.
  induction selectors as [|s rest IH]; intros soup e Hsub; simpl.
  - exact Hsub.
  - apply IH. now apply subtree_update_at.
Qed.

(** The text that [_clean_content] returns is the cleaned text of the
    element the reference points to. *)
Lemma clean_content_text `{PyLib} soup p e :
  subtree soup p = Some e ->
  snd (_clean_content soup p) = cleaned_text e.
Proof.
  intros Hsub. unfold _clean_content. cbv zeta. cbn [snd].
  now rewrite (subtree_clean_up p remove_selectors soup e Hsub).
Qed.

Lemma first_path_spec (sel : selector) contents :
  Forall (fun n =>
            match find_path sel n with
            | Some p => exists e, subtree n p = Some e
                                  /\ head (matches_in sel n) = Some e
            | None => matches_in sel n = []
            end) contents ->
  forall i,
    match first_path (find_path sel) i contents with
    | Some [] => False
    | Some (j :: p) =>
      exists k e, i <= j /\ contents !! (j - i) = Some k
                  /\ subtree k p = Some e
                  /\ head (flat_map (matches_in sel) contents) = Some e
    | None => flat_map (matches_in sel) contents = []
    end.
Proof.
  induction 1 as [|n rest Hn _ IH]; intros i; simpl; [reflexivity|].
  destruct (find_path sel n) as [p|].
  - destruct Hn as (e & Hsub & Hhead). exists n, e.
    rewrite Nat.sub_diag. repeat split; [lia|exact Hsub|].
    destruct (matches_in sel n); [discriminate|exact Hhead].
  - rewrite Hn. simpl. specialize (IH (S i)).
    destruct (first_path (find_path sel) (S i) rest) as [[|j p]|];
      [exact IH| |exact IH].
    destruct IH as (k & e & Hle & Hk & Hsub & Hhead).
    exists k, e. repeat split; [lia| |exact Hsub|exact Hhead].
    replace (j - i) with (S (j - S i)) by lia. exact Hk.
Qed.

Lemma find_path_spec (sel : selector) n :
  match find_path sel n with
  | Some p => exists e, subtree n p = Some e
                        /\ head (matches_in sel n) = Some e
  | None => matches_in sel n = []
  end.
Proof.
  induction n as [kind s|name classes attrs contents IH] using node_induction;
    [reflexivity|].
  cbn [find_path matches_in].
  destruct (matches sel (Tag name classes attrs contents)).
  - eexists. split; reflexivity.
  - pose proof (first_path_spec sel contents IH 0) as Hfirst.
    destruct (first_path (find_path sel) 0 contents) as [[|j p]|];
      [destruct Hfirst| |exact Hfirst].
    destruct Hfirst as (k & e & _ & Hk & Hsub & Hhead).
    rewrite Nat.sub_0_r in Hk.
    exists e. split; [|exact Hhead]. simpl. now rewrite Hk.
Qed.

(** [select_one] refers to the first element of [select]. *)
Lemma select_one_first (sel : selector) soup p :
  select_one sel soup = Some p ->
  exists e, subtree soup p = Some e /\ head (select sel soup) = Some e.
Proof.
  destruct soup as [kind s|name classes attrs contents]; [discriminate|].
  unfold select_one, select. intros Hp.
  assert (Hall : Forall (fun n =>
            match find_path sel n with
            | Some p => exists e, subtree n p = Some e
                                  /\ head (matches_in sel n) = Some e
            | None => matches_in sel n = []
            end) contents)
    by (rewrite List.Forall_forall; intros n _; apply find_path_spec).
  pose proof (first_path_spec sel contents Hall 0) as Hfirst.
  rewrite Hp in Hfirst. destruct p as [|j p]; [destruct Hfirst|].
  destruct Hfirst as (k & e & _ & Hk & Hsub & Hhead).
  rewrite Nat.sub_0_r in Hk.
  exists e. split; [|exact Hhead]. simpl. now rewrite Hk.
Qed.

Lemma select_one_none (sel : selector) soup :
  select_one sel soup = None -> select sel soup = [].
Proof.
  destruct soup as [kind s|name classes attrs contents]; [reflexivity|].
  unfold select_one, select. intros Hp.
  assert (Hall : Forall (fun n =>
            match find_path sel n with
            | Some p => exists e, subtree n p = Some e
                                  /\ head (matches_in sel n) = Some e
            | None => matches_in sel n = []
            end) contents)
    by (rewrite List.Forall_forall; intros n _; apply find_path_spec).
  pose proof (first_path_spec sel contents Hall 0) as Hfirst.
  now rewrite Hp in Hfirst.
Qed.

(** ** Noise removal *)

Lemma matches_decompose_all (s s' : selector) n :
  matches s (decompose_all s' n) = matches s n.
Proof. now destruct n. Qed.

Lemma decompose_all_self (s : selector) n :
  (matches s n = false -> matches_in s (decompose_all s n) = []) /\
  select s (decompose_all s n) = [].
Proof.
  induction n as [kind t|name classes attrs contents IH] using node_induction;
    [split; reflexivity|].
  assert (Hkids : select s (decompose_all s (Tag name classes attrs contents))
                  = []).
  { cbn [decompose_all select].
    induction IH as [|k rest [Hk _] _ IHrest]; [reflexivity|].
    destruct (matches s k) eqn:Hm; [exact IHrest|].
    cbn [flat_map]. now rewrite (Hk eq_refl), IHrest. }
  split; [|exact Hkids].
  intros Hm. cbn [decompose_all matches_in].
  change (matches s (Tag name classes attrs _)) with
    (matches s (Tag name classes attrs contents)).
  rewrite Hm. exact Hkids.
Qed.

Lemma decompose_all_keeps_clean (s s' : selector) n :
  (matches_in s n = [] -> matches_in s (decompose_all s' n) = []) /\
  (select s n = [] -> select s (decompose_all s' n) = []).
Proof.
  induction n as [kind t|name classes attrs contents IH] using node_induction;
    [split; reflexivity|].
  assert (Hkids : select s (Tag name classes attrs contents) = [] ->
                  select s (decompose_all s' (Tag name classes attrs contents))
                  = []).
  { cbn [decompose_all select].
    induction IH as [|k rest [Hk _] _ IHrest]; [reflexivity|].
    cbn [flat_map]. intros Hnil. apply app_eq_nil in Hnil as [Hk0 Hrest0].
    destruct (matches s' k); [now apply IHrest|].
    cbn [flat_map]. now rewrite (Hk Hk0), (IHrest Hrest0). }
  split; [|exact Hkids].
  cbn [matches_in]. intros Hnil.
  change (matches s (Tag name classes attrs contents)
          = matches s (decompose_all s' (Tag name classes attrs contents)))
    with (matches s (Tag name classes attrs contents)
          = matches s (Tag name classes attrs contents)) in *.
  destruct (matches s (Tag name classes attrs contents)) eqn:Hm;
    [discriminate Hnil|].
  cbn [decompose_all matches_in].
  change (matches s (Tag name classes attrs _)) with
    (matches s (Tag name classes attrs contents)).
  rewrite Hm. apply Hkids. exact Hnil.
Qed.

Lemma decompose_all_descendants (s : selector) n ks :
  In ks (descendant_strings (decompose_all s n)) ->
  In ks (descendant_strings n).
Proof.
  induction n as [kind x|name classes attrs contents IH] using node_induction;
    [exact (fun H => H)|].
  cbn [decompose_all descendant_strings].
  induction IH as [|k rest Hk _ IHrest]; [exact (fun H => H)|].
  cbn [flat_map]. rewrite in_app_iff.
  destruct (matches s k).
  - intros Hin. right. now apply IHrest.
  - cbn [flat_map]. rewrite in_app_iff.
    intros [Hin|Hin]; [left; now apply Hk|right; now apply IHrest].
Qed.

Lemma decompose_all_strings (s : selector) n t :
  In t (strings (decompose_all s n)) -> In t (strings n).
Proof.
  destruct n as [kind x|name classes attrs contents]; [exact (fun H => H)|].
  pose proof (fun ks =>
                decompose_all_descendants s (Tag name classes attrs contents) ks)
    as Hsub.
  cbn [decompose_all] in *. unfold strings. rewrite !in_map_iff.
  intros (ks & Ht & Hin). exists ks. split; [exact Ht|].
  apply filter_In in Hin as [Hin Hf]. apply filter_In.
  split; [now apply Hsub|exact Hf].
Qed.

Lemma remove_all_clean (selectors : list selector) : forall done e,
  (forall s, In s done -> select s e = []) ->
  forall s, In s (done ++ selectors) ->
    select s (fold_left (fun e s => decompose_all s e) selectors e) = [].
Proof.
  induction selectors as [|s0 rest IH]; intros done e Hdone s Hin.
  - rewrite app_nil_r in Hin. now apply Hdone.
  - cbn [fold_left]. apply (IH (done ++ [s0])).
    + intros s1 Hs1. apply in_app_iff in Hs1 as [Hs1|[<-|[]]].
      * now apply decompose_all_keeps_clean, Hdone.
      * apply decompose_all_self.
    + now rewrite <- app_assoc.
Qed.

Lemma remove_all_strings (selectors : list selector) : forall e t,
  In t (strings (fold_left (fun e s => decompose_all s e) selectors e)) ->
  In t (strings e).
Proof.
  induction selectors as [|s0 rest IH]; intros e t; [exact (fun H => H)|].
  cbn [fold_left]. intros Hin.
  eapply decompose_all_strings, IH, Hin.
Qed.

Lemma remove_noise_clean e r :
  In r remove_selectors -> select r (remove_noise e) = [].
Proof.
  intros Hr. unfold remove_noise.
  apply (remove_all_clean remove_selectors [] e); [intros s' []|exact Hr].
Qed.

Lemma matches_in_nil (s : selector) n :
  matches_in s n = [] -> matches s n = false /\ select s n = [].
Proof.
  destruct n as [kind t|name classes attrs contents]; [now split|].
  cbn [matches_in select].
  destruct (matches s (Tag name classes attrs contents));
    [intros Hnil; discriminate Hnil|].
  cbn [app]. now split.
Qed.

(** Where nothing matches, nothing is removed. *)
Lemma decompose_all_clean (s : selector) n :
  select s n = [] -> decompose_all s n = n.
Proof.
  induction n as [kind t|name classes attrs contents IH] using node_induction;
    [reflexivity|].
  cbn [select decompose_all]. intros Hnil. f_equal.
  induction IH as [|k rest Hk _ IHrest]; [reflexivity|].
  cbn [flat_map] in Hnil. apply app_eq_nil in Hnil as [Hk0 Hrest0].
  apply matches_in_nil in Hk0 as [Hm Hsel].
  rewrite Hm, (Hk Hsel), (IHrest Hrest0). reflexivity.
Qed.

Lemma remove_all_fixed (selectors : list selector) e :
  (forall r, In r selectors -> select r e = []) ->
  fold_left (fun e s => decompose_all s e) selectors e = e.
Proof.
  induction selectors as [|s0 rest IH]; intros Hclean; [reflexivity|].
  cbn [fold_left]. rewrite (decompose_all_clean s0 e) by (apply Hclean; now left).
  apply IH. intros r Hr. apply Hclean. now right.
Qed.

Lemma remove_noise_fixed e :
  (forall r, In r remove_selectors -> select r e = []) -> remove_noise e = e.
Proof. apply remove_all_fixed. Qed.

(** ** Mutation through a reference *)

Lemma update_at_compose p (f g : node -> node) : forall n,
  update_at p f (update_at p g n) = update_at p (fun e => f (g e)) n.
Proof.
  induction p as [|i p IH]; intros n; [reflexivity|].
  destruct n as [kind t|name classes attrs contents]; [reflexivity|].
  cbn [update_at]. f_equal. rewrite list_alter_alter_eq.
  apply list_alter_ext; [|reflexivity]. intros k _. apply IH.
Qed.

Lemma update_at_fixed p (f : node -> node) : forall n e,
  subtree n p = Some e -> f e = e -> update_at p f n = n.
Proof.
  induction p as [|i p IH]; intros n e; cbn [subtree update_at].
  - now intros [= ->].
  - destruct n as [kind t|name classes attrs contents]; [reflexivity|].
    destruct (contents !! i) as [k|] eqn:Hk; [|discriminate].
    intros Hsub Hf. f_equal.
    rewrite <- (list_alter_id (fun x => x) contents i) at 2 by reflexivity.
    apply list_alter_ext; [|reflexivity].
    intros x Hx. rewrite Hk in Hx. injection Hx as <-.
    now apply (IH k e).
Qed.

Lemma clean_up_in_place p selectors : forall (f : node -> node) soup,
  fold_left (fun soup s => update_at p (decompose_all s) soup) selectors
            (update_at p f soup)
  = update_at p (fun e => fold_left (fun e s => decompose_all s e)
                                    selectors (f e)) soup.
Proof.
  induction selectors as [|s rest IH]; intros f soup; [reflexivity|].
  cbn [fold_left]. rewrite update_at_compose. apply (IH (fun e => decompose_all s (f e))).
Qed.

(** What [_clean_content] does: the noise below the element leaves the
    page, and the text is the cleaned text of the element. *)
Lemma clean_content_in_place `{PyLib} soup el e :
  subtree soup el = Some e ->
  _clean_content soup el = (update_at el remove_noise soup, cleaned_text e).
Proof.
  intros Hsub.
  rewrite (surjective_pairing (_clean_content soup el)).
  rewrite (clean_content_text soup el e Hsub). f_equal.
  unfold _clean_content. cbv zeta. cbn [fst].
  destruct remove_selectors as [|s rest] eqn:Hsel; [discriminate Hsel|].
  cbn [fold_left].
  rewrite (clean_up_in_place el rest (decompose_all s) soup).
  unfold remove_noise. rewrite Hsel. reflexivity.
Qed.

(** ** The selector cascade *)

Section Cascade.
Context `{L : PyLib}.

Lemma try_selectors_app pre post : forall soup soup1,
  try_selectors soup pre = (soup1, None) ->
  try_selectors soup (pre ++ post) = try_selectors soup1 post.
Proof.
  induction pre as [|s pre IH]; intros soup soup1;
    cbn [try_selectors app].
  - now intros [= ->].
  - destruct (select_one s soup) as [el|]; [|apply IH].
    destruct (_clean_content soup el) as [soup2 content].
    destruct (200 <? length content);
      [intros Heq; discriminate Heq|apply IH].
Qed.

Lemma try_selectors_hit selectors : forall soup soup' content,
  try_selectors soup selectors = (soup', Some content) ->
  exists pre s post soup1 el,
    selectors = pre ++ s :: post /\
    try_selectors soup pre = (soup1, None) /\
    select_one s soup1 = Some el /\
    _clean_content soup1 el = (soup', content) /\
    200 < length content.
Proof.
  induction selectors as [|s rest IH]; intros soup soup' content;
    cbn [try_selectors]; [discriminate|].
  destruct (select_one s soup) as [el|] eqn:Hsel.
  - destruct (_clean_content soup el) as [soup2 c] eqn:Hclean.
    destruct (Nat.ltb_spec 200 (length c)) as [Hlong|Hshort].
    + intros [= <- <-]. exists [], s, rest, soup, el.
      repeat split; assumption.
    + intros Hrest.
      destruct (IH _ _ _ Hrest) as (pre & s' & post & soup1 & el' & -> & Hpre & Hrem).
      exists (s :: pre), s', post, soup1, el'. split; [reflexivity|].
      split; [|exact Hrem]. cbn [try_selectors]. rewrite Hsel, Hclean.
      destruct (Nat.ltb_spec 200 (length c)); [lia|exact Hpre].
  - intros Hrest.
    destruct (IH _ _ _ Hrest) as (pre & s' & post & soup1 & el' & -> & Hpre & Hrem).
    exists (s :: pre), s', post, soup1, el'. split; [reflexivity|].
    split; [|exact Hrem]. cbn [try_selectors]. now rewrite Hsel.
Qed.

Lemma first_match_found (s : selector) page el :
  select_one s page = Some el ->
  exists e, subtree page el = Some e /\ head (select s page) = Some e /\
            first_match s page = Some (el, e).
Proof.
  intros Hsel. destruct (select_one_first s page el Hsel) as (e & Hsub & Hhead).
  exists e. unfold first_match. now rewrite Hsel, Hsub.
Qed.

Lemma first_match_none (s : selector) page :
  select_one s page = None -> first_match s page = None.
Proof. intros Hsel. unfold first_match. now rewrite Hsel. Qed.

(** One pass of the loop. *)
Lemma try_selectors_step page s rest :
  try_selectors page (s :: rest)
  = if clears page s then (attempt page s, candidate page s)
    else try_selectors (attempt page s) rest.
Proof.
  cbn [try_selectors]. unfold clears, candidate, attempt.
  destruct (select_one s page) as [el|] eqn:Hsel.
  - destruct (first_match_found s page el Hsel) as (e & Hsub & _ & ->).
    rewrite (clean_content_in_place page el e Hsub).
    now destruct (200 <? length (cleaned_text e)).
  - now rewrite (first_match_none s page Hsel).
Qed.

Lemma try_selectors_none selectors : forall page,
  none_clears page selectors = true ->
  try_selectors page selectors = (page_after page selectors, None).
Proof.
  induction selectors as [|s rest IH]; intros page; [reflexivity|].
  cbn [none_clears]. intros Hnone.
  apply andb_true_iff in Hnone as [Hs Hrest].
  rewrite try_selectors_step. apply negb_true_iff in Hs. rewrite Hs.
  exact (IH _ Hrest).
Qed.

Lemma try_selectors_first pre s post page :
  none_clears page pre = true ->
  clears (page_after page pre) s = true ->
  try_selectors page (pre ++ s :: post)
  = (attempt (page_after page pre) s, candidate (page_after page pre) s).
Proof.
  intros Hpre Hs.
  rewrite (try_selectors_app pre (s :: post) page _
             (try_selectors_none pre page Hpre)).
  rewrite try_selectors_step. now rewrite Hs.
Qed.

Lemma none_clears_snoc pre s : forall page,
  none_clears page (pre ++ [s])
  = none_clears page pre && negb (clears (page_after page pre) s).
Proof.
  induction pre as [|x pre IH]; intros page; cbn [app none_clears].
  - unfold page_after. cbn [fold_left]. now rewrite andb_true_r.
  - rewrite IH, andb_assoc. reflexivity.
Qed.

(** Either no selector clears the threshold at its turn, or there is a
    first one that does. *)
Lemma cascade_cases selectors : forall page,
  none_clears page selectors = true \/
  exists pre s post,
    selectors = pre ++ s :: post /\
    none_clears page pre = true /\
    clears (page_after page pre) s = true.
Proof.
  induction selectors as [|s rest IH]; intros page; [now left|].
  cbn [none_clears].
  destruct (clears page s) eqn:Hs.
  - right. exists [], s, rest. now repeat split.
  - destruct (IH (attempt page s)) as [Hnone|(pre & s' & post & -> & Hpre & Hs')].
    + left. now rewrite Hnone.
    + right. exists (s :: pre), s', post. split; [reflexivity|].
      cbn [none_clears]. rewrite Hs, Hpre. now split.
Qed.

Lemma page_after_no_match selectors : forall page,
  (forall s, In s selectors -> select_one s page = None) ->
  none_clears page selectors = true /\ page_after page selectors = page.
Proof.
  induction selectors as [|s rest IH]; intros page Hnone; [now split|].
  assert (Hs : first_match s page = None)
    by (apply first_match_none, Hnone; now left).
  assert (Ha : attempt page s = page) by (unfold attempt; now rewrite Hs).
  cbn [none_clears]. unfold page_after. cbn [fold_left].
  unfold clears, candidate. rewrite Ha, Hs. cbn [negb andb].
  apply IH. intros s' Hs'. apply Hnone. now right.
Qed.

Lemma clears_candidate page s :
  clears page s = true ->
  exists el e,
    select_one s page = Some el /\
    subtree page el = Some e /\
    head (select s page) = Some e /\
    candidate page s = Some (cleaned_text e) /\
    attempt page s = update_at el remove_noise page /\
    200 < length (cleaned_text e).
Proof.
  unfold clears, candidate, attempt.
  destruct (select_one s page) as [el|] eqn:Hsel.
  - destruct (first_match_found s page el Hsel) as (e & Hsub & Hhead & ->).
    intros Hlong. apply Nat.ltb_lt in Hlong.
    exists el, e. now repeat split.
  - rewrite (first_match_none s page Hsel). intros Heq. discriminate Heq.
Qed.

(** What an attempt does to the page. *)
Lemma attempt_spec page s el e :
  select_one s page = Some el -> subtree page el = Some e ->
  attempt page s = update_at el remove_noise page /\
  subtree (attempt page s) el = Some (remove_noise e) /\
  (forall r, In r remove_selectors -> select r (remove_noise e) = []) /\
  (forall t, In t (strings (remove_noise e)) -> In t (strings e)) /\
  ((forall r, In r remove_selectors -> select r e = []) ->
   attempt page s = page).
Proof.
  intros Hsel Hsub.
  assert (Hatt : attempt page s = update_at el remove_noise page).
  { unfold attempt, first_match. now rewrite Hsel, Hsub. }
  rewrite Hatt. split; [reflexivity|].
  split; [now apply subtree_update_at|].
  split; [intros r; apply remove_noise_clean|].
  split; [intros t; apply remove_all_strings|].
  intros Hclean. apply (update_at_fixed el remove_noise page e Hsub).
  now apply remove_noise_fixed.
Qed.

(** C3 (as amended): the extractor tries the selectors of the first
    registered site whose domain occurs in the host, or the twelve
    generic ones when there is none, in order; each selector is matched
    against the page as the attempts with the selectors before it left
    it, and an attempt removes the noise below the first match of its
    selector from the page itself: the element then has no descendant
    that matches a noise selector, and a page without such noise stays
    as it is. The first selector whose first matching element has a
    cleaned text of more than 200 characters ends the loop: that text is
    returned whatever selectors follow, and the counters are untouched;
    when there is no such selector, no selector clears the threshold at
    its turn. For an address of no registered site and a page without an
    [article] element, whose first element of class article-content has
    no noise below it and a normalised text of more than 200 characters,
    the extractor returns that text and leaves the page and the counters
    as they are, as it does on the page with the block of class
    article-content holding 300 characters. *)
Theorem selector_cascade_first_hit self (soup : node) (url : str) :
  let selectors := chosen_selectors self url in
  let site := selectors_for (content_selectors self) (lower (netloc url)) in
  (selectors = site \/ (site = [] /\ selectors = generic_selectors)) /\
  (forall pre s post,
      selectors = pre ++ s :: post ->
      none_clears soup pre = true ->
      clears (page_after soup pre) s = true ->
      exists el e,
        select_one s (page_after soup pre) = Some el /\
        subtree (page_after soup pre) el = Some e /\
        head (select s (page_after soup pre)) = Some e /\
        200 < length (cleaned_text e) /\
        _extract_main_content self soup url
        = (self, update_at el remove_noise (page_after soup pre),
           cleaned_text e)) /\
  (none_clears soup selectors = true \/
   exists pre s post,
     selectors = pre ++ s :: post /\
     none_clears soup pre = true /\
     clears (page_after soup pre) s = true) /\
  (forall pre s,
      none_clears soup (pre ++ [s])
      = none_clears soup pre && negb (clears (page_after soup pre) s)) /\
  (forall page s el e,
      select_one s page = Some el -> subtree page el = Some e ->
      attempt page s = update_at el remove_noise page /\
      subtree (attempt page s) el = Some (remove_noise e) /\
      (forall r, In r remove_selectors -> select r (remove_noise e) = []) /\
      (forall t, In t (strings (remove_noise e)) -> In t (strings e)) /\
      ((forall r, In r remove_selectors -> select r e = []) ->
       attempt page s = page)) /\
  (forall page s, select_one s page = None -> attempt page s = page) /\
  (forall el e,
      site = [] ->
      select_one (ByName (py "article")) soup = None ->
      select_one (ByClass (py "article-content")) soup = Some el ->
      subtree soup el = Some e ->
      (forall r, In r remove_selectors -> select r e = []) ->
      200 < length (_clean_text (Some (get_text [SPACE] true e))) ->
      _extract_main_content self soup url
      = (self, soup, _clean_text (Some (get_text [SPACE] true e)))) /\
  @_extract_main_content plain_lib new_crawler page_with_content sample_url
  = (new_crawler, page_with_content, long_text).
Proof.
  intros selectors site.
  assert (Hhit : forall pre s post,
      selectors = pre ++ s :: post ->
      none_clears soup pre = true ->
      clears (page_after soup pre) s = true ->
      exists el e,
        select_one s (page_after soup pre) = Some el /\
        subtree (page_after soup pre) el = Some e /\
        head (select s (page_after soup pre)) = Some e /\
        200 < length (cleaned_text e) /\
        _extract_main_content self soup url
        = (self, update_at el remove_noise (page_after soup pre),
           cleaned_text e)).
  { intros pre s post Hsplit Hpre Hs.
    destruct (clears_candidate _ _ Hs)
      as (el & e & Hsel & Hsub & Hhead & Hcand & Hatt & Hlong).
    exists el, e. repeat (split; [assumption|]).
    unfold _extract_main_content. fold selectors.
    rewrite Hsplit, (try_selectors_first pre s post soup Hpre Hs).
    now rewrite Hcand, Hatt. }
  split; [|split; [exact Hhit|split; [apply cascade_cases|split;
    [intros pre s; apply none_clears_snoc|split; [apply attempt_spec|split;
    [|split]]]]]].
  - subst selectors site. unfold chosen_selectors.
    destruct (selectors_for _ _); [right|left]; auto.
  - intros page s Hsel. unfold attempt.
    now rewrite (first_match_none s page Hsel).
  - intros el e Hsite Hart Hsel Hsub Hclean Hlong.
    assert (Hsels : selectors
                    = [ByName (py "article")]
                        ++ ByClass (py "article-content")
                        :: skipn 2 generic_selectors).
    { subst selectors site. unfold chosen_selectors. now rewrite Hsite. }
    destruct (page_after_no_match [ByName (py "article")] soup)
      as [Hnone Hpage].
    { intros s [<-|[]]. exact Hart. }
    assert (Htext : cleaned_text e
                    = _clean_text (Some (get_text [SPACE] true e))).
    { unfold cleaned_text. now rewrite (remove_noise_fixed e Hclean). }
    destruct (Hhit _ _ _ Hsels Hnone) as (el' & e' & Hsel' & Hsub' & _ & _ & Hrun).
    { rewrite Hpage. unfold clears, candidate, first_match.
      rewrite Hsel, Hsub, Htext. now apply Nat.ltb_lt. }
    rewrite Hpage in *.
    assert (el' = el) as -> by congruence.
    assert (e' = e) as -> by congruence.
    rewrite Hrun, Htext. f_equal. f_equal.
    apply (update_at_fixed el remove_noise soup e Hsub).
    now apply remove_noise_fixed.
  - vm_compute. reflexivity.
Qed.

(** C4 (as amended): when no selector clears the threshold at its turn,
    the paragraphs and the body are looked up in the page as the
    attempts with the selectors left it, in which the noise below the
    first match of every selector is gone; this is the page as given
    when no selector matched. If that page has a paragraph, the content
    is the normalised texts of all its paragraphs joined by single
    spaces, and [fallback_used] grows by one; if it has none, the content
    is the normalised first 1000 characters of the body's text, and the
    empty string when there is no body; the text of a body leaves out
    what stands in a script, as on the page whose body holds a script
    and the text "hello". *)
Theorem fallback_order self (soup : node) (url : str) :
  let selectors := chosen_selectors self url in
  let page := page_after soup selectors in
  ((forall s, In s selectors -> select_one s soup = None) ->
   none_clears soup selectors = true /\ page = soup) /\
  (forall tried s,
      page_after soup (tried ++ [s]) = attempt (page_after soup tried) s) /\
  (forall page s el e,
      select_one s page = Some el -> subtree page el = Some e ->
      attempt page s = update_at el remove_noise page /\
      subtree (attempt page s) el = Some (remove_noise e) /\
      (forall r, In r remove_selectors -> select r (remove_noise e) = []) /\
      (forall t, In t (strings (remove_noise e)) -> In t (strings e)) /\
      ((forall r, In r remove_selectors -> select r e = []) ->
       attempt page s = page)) /\
  (none_clears soup selectors = true ->
   match find_all (py "p") page with
   | (_ :: _) as paragraphs =>
     _extract_main_content self soup url
     = (use_fallback self, page,
        _clean_text
          (Some (join [SPACE] (List.map (get_text [] true) paragraphs))))
     /\ fallback_used (stats (use_fallback self))
        = fallback_used (stats self) + 1
   | [] =>
     match find (py "body") page with
     | Some body =>
       _extract_main_content self soup url
       = (self, page,
          _clean_text (Some (firstn 1000 (get_text [] false body))))
       /\ length (firstn 1000 (get_text [] false body)) <= 1000
     | None => _extract_main_content self soup url = (self, page, [])
     end
   end) /\
  @_extract_main_content plain_lib new_crawler page_with_script sample_url
  = (new_crawler, page_with_script, py "hello").
Proof.
  intros selectors page. split; [apply page_after_no_match|].
  split; [intros tried s; unfold page_after; now rewrite fold_left_app|].
  split; [apply attempt_spec|].
  split; [|vm_compute; reflexivity].
  intros Hnone. unfold _extract_main_content. fold selectors.
  rewrite (try_selectors_none selectors soup Hnone). fold page.
  destruct (find_all (py "p") page) as [|p ps].
  - destruct (find (py "body") page) as [body|]; [|reflexivity].
    split; [reflexivity|]. rewrite length_firstn. lia.
  - split; reflexivity.
Qed.

End Cascade.

(** C3, counterexample: in the page whose article holds its text in a
    block of class post-content inside an aside, the first selector
    whose element has more than 200 characters of cleaned text is
    [.post-content], with the 300 characters; the extractor removes the
    aside from the page while it tries [article] and returns the empty
    string. *)
Lemma cascade_sees_earlier_removals :
  @chosen_selectors plain_lib new_crawler sample_url = generic_selectors /\
  @cascade_on_copy plain_lib page_with_aside generic_selectors
  = Some long_text /\
  length long_text = 300 /\
  snd (@_extract_main_content plain_lib new_crawler page_with_aside sample_url)
  = [].
Proof. vm_compute. repeat split. Qed.

Lemma selector_cascade_first_hit_witness :
  @_extract_main_content plain_lib new_crawler page_with_content sample_url
  = (new_crawler, page_with_content, long_text).
Proof.
  destruct (@selector_cascade_first_hit plain_lib new_crawler
              page_with_content sample_url)
    as (_ & _ & _ & _ & _ & _ & Hscenario & _).
  apply (Hscenario [0; 0; 0]
           (tag "div" ["article-content"%string]
                [NavigableString Plain long_text])).
  - reflexivity.
  - reflexivity.
  - reflexivity.
  - reflexivity.
  - intros r Hr. vm_compute in Hr.
    repeat (destruct Hr as [<-|Hr]; [reflexivity|]). destruct Hr.
  - vm_compute. lia.
Defined.

(** C4, counterexample: in the page whose article holds its only
    paragraph in its footer no selector yields more than 200 characters
    and the page has a paragraph, with the text "hello"; the extractor
    removes the footer while it tries [article], answers the empty string
    from the body, and leaves [fallback_used] at 0. *)
Lemma paragraph_lost_to_cleanup :
  List.map (get_text [] true) (find_all (py "p") page_with_footer)
  = [py "hello"] /\
  snd (@try_selectors plain_lib page_with_footer generic_selectors) = None /\
  @cascade_on_copy plain_lib page_with_footer generic_selectors = None /\
  snd (@_extract_main_content plain_lib new_crawler page_with_footer sample_url)
  = [] /\
  fallback_used
    (stats (fst (fst (@_extract_main_content plain_lib new_crawler
                        page_with_footer sample_url)))) = 0.
Proof. vm_compute. repeat split. Qed.

Lemma fallback_order_witness :
  @_extract_main_content plain_lib new_crawler
     (soup_of [tag "body" [] [tag "p" [] [NavigableString Plain (py " one ")];
                              tag "p" [] [NavigableString Plain (py "two")]]])
     sample_url
  = (use_fallback new_crawler,
     soup_of [tag "body" [] [tag "p" [] [NavigableString Plain (py " one ")];
                             tag "p" [] [NavigableString Plain (py "two")]]],
     py "one two").
Proof.
  destruct (@fallback_order plain_lib new_crawler
     (soup_of [tag "body" [] [tag "p" [] [NavigableString Plain (py " one ")];
                              tag "p" [] [NavigableString Plain (py "two")]]])
     sample_url) as (_ & _ & _ & Hcases & _).
  exact (proj1 (Hcases eq_refl)).
Defined.

(** ** The batch summary *)

Lemma insert_desc_map {A B : Type} (f : B -> A) (key : A -> Z)
  (key' : B -> Z) x s :
  key' x = key (f x) -> Forall (fun y => key' y = key (f y)) s ->
  List.map f (insert_desc key' x s) = insert_desc key (f x) (List.map f s).
Proof.
  intros Hx. induction 1 as [|y rest Hy _ IH]; simpl; [reflexivity|].
  rewrite Hx, Hy. destruct (key (f x) <? key (f y))%Z; simpl; [|reflexivity].
  now rewrite IH.
Qed.

Lemma sorted_reverse_map {A B : Type} (f : B -> A) (key : A -> Z)
  (key' : B -> Z) l :
  Forall (fun y => key' y = key (f y)) l ->
  List.map f (sorted_reverse key' l) = sorted_reverse key (List.map f l).
Proof.
  induction 1 as [|x rest Hx Hrest IH]; simpl; [reflexivity|].
  rewrite <- IH. apply insert_desc_map; [exact Hx|].
  eapply Permutation_Forall; [apply sorted_reverse_perm|exact Hrest].
Qed.

Lemma map_snd_combine_seq {A : Type} (l : list A) : forall i,
  List.map snd (combine (seq i (length l)) l) = l.
Proof.
  induction l as [|x rest IH]; intros i; simpl; [reflexivity|].
  now rewrite IH.
Qed.

Lemma sort_by_published_dated now articles :
  Forall (fun a => published a <> None) articles ->
  sort_by_published now articles = sorted_reverse published_at articles.
Proof.
  intros Hwf. unfold sort_by_published.
  rewrite (sorted_reverse_map snd published_at).
  - now rewrite map_snd_combine_seq.
  - rewrite List.Forall_forall. intros [i a] Hin. simpl.
    apply in_combine_r in Hin.
    rewrite List.Forall_forall in Hwf. specialize (Hwf a Hin).
    unfold published_or, published_at.
    destruct (published a); [reflexivity|contradiction].
Qed.

Lemma sort_by_published_perm now articles :
  Permutation articles (sort_by_published now articles).
Proof.
  unfold sort_by_published.
  rewrite <- (map_snd_combine_seq articles 0) at 1.
  apply Permutation_map, sorted_reverse_perm.
Qed.

Lemma StronglySorted_any {A : Type} (l : list A) :
  StronglySorted (fun _ _ => True) l.
Proof.
  induction l; constructor; [assumption|].
  rewrite List.Forall_forall. trivial.
Qed.

Lemma sorted_reverse_descending {A : Type} (key : A -> Z) l :
  StronglySorted (fun x y => (key y <= key x)%Z) (sorted_reverse key l).
Proof.
  eapply StronglySorted_weaken;
    [|apply (sorted_reverse_sorted key (fun _ _ => True)), StronglySorted_any].
  intros x y. apply desc_then_key.
Qed.

Lemma sum_list_perm l l' : Permutation l l' -> sum_list l = sum_list l'.
Proof. induction 1; simpl; lia. Qed.

Lemma distinct_count (l : list str) :
  length (elements (list_to_set l : gset str))
  = length (nodup str_eq_dec l).
Proof.
  apply Permutation_length, Permutation.NoDup_Permutation.
  - apply NoDup_ListNoDup, NoDup_elements.
  - apply NoDup_nodup.
  - intros x. rewrite nodup_In, <- list_elem_of_In, elem_of_elements,
      elem_of_list_to_set. apply list_elem_of_In.
Qed.

Lemma distinct_count_perm (l l' : list str) :
  Permutation l l' ->
  length (nodup str_eq_dec l) = length (nodup str_eq_dec l').
Proof.
  intros Hperm. apply Permutation_length, Permutation.NoDup_Permutation.
  - apply NoDup_nodup.
  - apply NoDup_nodup.
  - intros x. rewrite !nodup_In.
    split; apply Permutation_in; [exact Hperm|now symmetry].
Qed.

Lemma head_map {A B : Type} (f : A -> B) l :
  head (List.map f l) = option_map f (head l).
Proof. now destruct l. Qed.

Lemma last_map {A B : Type} (f : A -> B) l :
  last (List.map f l) = option_map f (last l).
Proof.
  induction l as [|x [|y rest] IH]; [reflexivity|reflexivity|].
  exact IH.
Qed.

Lemma sorted_head_max {A : Type} (key : A -> Z) l x :
  StronglySorted (fun x y => (key y <= key x)%Z) l ->
  head l = Some x -> forall y, In y l -> (key y <= key x)%Z.
Proof.
  intros Hs Hh y Hy. destruct l as [|z rest]; [discriminate|].
  injection Hh as ->. apply StronglySorted_inv in Hs as [_ Hx].
  destruct Hy as [<-|Hy]; [lia|].
  rewrite List.Forall_forall in Hx. now apply Hx.
Qed.

Lemma sorted_last_min {A : Type} (key : A -> Z) l x :
  StronglySorted (fun x y => (key y <= key x)%Z) l ->
  last l = Some x -> forall y, In y l -> (key x <= key y)%Z.
Proof.
  induction l as [|z rest IH]; intros Hs Hl y Hy; [discriminate|].
  apply StronglySorted_inv in Hs as [Hs Hz].
  destruct rest as [|w rest'].
  - injection Hl as <-. destruct Hy as [<-|[]]. lia.
  - change (last (w :: rest') = Some x) in Hl.
    destruct Hy as [<-|Hy].
    + rewrite List.Forall_forall in Hz. apply Hz.
      clear -Hl. revert Hl. generalize (w :: rest'). intros l.
      induction l as [|a [|b l'] IHl]; [discriminate| |].
      * intros [= ->]. now left.
      * intros Hl. right. now apply IHl.
    + now apply IH.
Qed.

Lemma enumerate_map_fst {A : Type} (l : list A) : forall i,
  List.map fst (enumerate i l) = seq i (length l).
Proof.
  induction l as [|x rest IH]; intros i; simpl; [reflexivity|].
  now rewrite IH.
Qed.

Lemma map_enumerate_snd {A B : Type} (g : A -> B) (l : list A) i :
  List.map (fun ia => g (snd ia)) (enumerate i l) = List.map g l.
Proof. now rewrite <- (map_map snd g), enumerate_map_snd. Qed.

Section Summary.
Context `{L : PyLib} `{Cfg : Config}.

Lemma summary_articles now articles :
  sd_articles (create_simple_summary now articles)
  = List.map (fun ia => make_article_data now (length articles)
                                          (fst ia) (snd ia))
             (enumerate 1 (sort_by_published now articles)).
Proof. unfold create_simple_summary. simpl. now rewrite map_map. Qed.

Lemma summary_field {B : Type} (field : article_data -> B)
  (g : article -> B) now articles :
  (forall n i a, field (make_article_data now n i a) = g a) ->
  List.map field (sd_articles (create_simple_summary now articles))
  = List.map g (sort_by_published now articles).
Proof.
  intros Hfield. rewrite summary_articles, map_map.
  rewrite <- (map_enumerate_snd g _ 1).
  apply map_ext. intros [i a]. apply Hfield.
Qed.

Lemma summary_published now articles :
  Forall (fun a => published a <> None) articles ->
  List.map ad_published (sd_articles (create_simple_summary now articles))
  = List.map (fun a => strftime (published_at a))
             (sort_by_published now articles).
Proof.
  intros Hwf. rewrite summary_articles, map_map.
  rewrite <- (map_enumerate_snd (fun a => strftime (published_at a)) _ 1).
  apply map_ext_in. intros [i a] Hin. simpl.
  assert (Ha : In a articles).
  { eapply Permutation_in;
      [symmetry; apply (sort_by_published_perm now)|].
    rewrite <- (enumerate_map_snd (sort_by_published now articles) 1).
    change a with (snd (i, a)). now apply in_map. }
  rewrite List.Forall_forall in Hwf. specialize (Hwf a Ha).
  unfold published_or, published_at.
  destruct (published a); [reflexivity|contradiction].
Qed.

(** C8: the summary counts the articles, ranks them from 1, counts
    the distinct sources and takes as average content length the sum of
    the content lengths divided by the number of articles, rounded
    down; for no article the average is 0, the list is empty and the
    date range is unset; for a non-empty batch of articles with a
    published time the rows stand in descending order of that time, the
    range's [latest] is the time of the first row and its [earliest]
    the time of the last row, and no article is later than the first
    or earlier than the last. *)
Theorem summary_totals (now : nat -> Z) (articles : list article) :
  let s := create_simple_summary now articles in
  let n := length articles in
  total_articles s = n /\
  length (sd_articles s) = n /\
  List.map rank (sd_articles s) = seq 1 n /\
  total_sources (sd_stats s)
  = length (nodup str_eq_dec (List.map source_of articles)) /\
  avg_content_length (sd_stats s)
  = match articles with
    | [] => 0
    | _ :: _ =>
      sum_list (List.map (fun a => length (content_of a)) articles) / n
    end /\
  (articles = [] ->
     sd_articles s = [] /\ avg_content_length (sd_stats s) = 0 /\
     date_range_latest s = None /\ date_range_earliest s = None) /\
  (articles <> [] ->
   Forall (fun a => published a <> None) articles ->
     exists sorted first final,
       Permutation articles sorted /\
       StronglySorted
         (fun a b => (published_at b <= published_at a)%Z) sorted /\
       List.map ad_title (sd_articles s)
       = List.map (fun a => default (py "No Title") (title a)) sorted /\
       List.map ad_published (sd_articles s)
       = List.map (fun a => strftime (published_at a)) sorted /\
       head sorted = Some first /\ last sorted = Some final /\
       date_range_latest s = Some (strftime (published_at first)) /\
       date_range_earliest s = Some (strftime (published_at final)) /\
       (forall a, In a articles ->
          (published_at final <= published_at a <= published_at first)%Z)).
Proof.
  intros s n.
  pose proof (sort_by_published_perm now articles) as Hperm.
  assert (Hlen : length (sd_articles s) = n).
  { subst s. rewrite summary_articles, length_map, enumerate_length.
    symmetry. now apply Permutation_length. }
  split; [reflexivity|]. split; [exact Hlen|].
  split; [|split; [|split; [|split]]].
  - subst s. rewrite summary_articles, map_map. simpl.
    rewrite (enumerate_map_fst _ 1). f_equal.
    symmetry. now apply Permutation_length.
  - change (total_sources (sd_stats s))
      with (length (elements (list_to_set
              (List.map ad_source (sd_articles s)) : gset str))).
    rewrite distinct_count. subst s.
    rewrite (summary_field ad_source source_of) by reflexivity.
    apply distinct_count_perm, Permutation_map. now symmetry.
  - change (avg_content_length (sd_stats s))
      with (match sd_articles s with
            | [] => 0
            | _ :: _ =>
              sum_list (List.map ad_content_length (sd_articles s))
              / length (sd_articles s)
            end).
    rewrite Hlen.
    destruct articles as [|a rest].
    + destruct (sd_articles s); [reflexivity|discriminate Hlen].
    + destruct (sd_articles s) as [|d ds] eqn:Hd; [discriminate Hlen|].
      rewrite <- Hd. subst s.
      rewrite (summary_field ad_content_length
                 (fun a => length (content_of a))) by reflexivity.
      f_equal. apply sum_list_perm, Permutation_map. now symmetry.
  - intros ->. vm_compute. repeat split.
  - intros Hne Hwf.
    set (sorted := sort_by_published now articles) in *.
    assert (Hsorted : StronglySorted
              (fun a b => (published_at b <= published_at a)%Z) sorted).
    { subst sorted. rewrite sort_by_published_dated by exact Hwf.
      apply sorted_reverse_descending. }
    assert (Hpub := summary_published now articles Hwf).
    fold s sorted in Hpub.
    destruct sorted as [|first rest] eqn:Hs.
    { apply Permutation_sym, Permutation_nil in Hperm. contradiction. }
    destruct (last (first :: rest)) as [final|] eqn:Hlast.
    2:{ exfalso. clear -Hlast. revert first Hlast.
        induction rest as [|x r IH]; intros first; [discriminate|].
        apply IH. }
    exists (first :: rest), first, final.
    split; [exact Hperm|]. split; [exact Hsorted|].
    split; [|split; [exact Hpub|]].
    { subst s. rewrite (summary_field ad_title
                 (fun a => default (py "No Title") (title a)))
        by reflexivity.
      fold sorted. now rewrite Hs. }
    split; [reflexivity|]. split; [exact Hlast|].
    split; [|split].
    + change (date_range_latest s)
        with (option_map ad_published (head (sd_articles s))).
      now rewrite <- head_map, Hpub.
    + change (date_range_earliest s)
        with (option_map ad_published (last (sd_articles s))).
      now rewrite <- last_map, Hpub, last_map, Hlast.
    + intros a Ha. apply (Permutation_in _ Hperm) in Ha. split.
      * eapply (sorted_last_min published_at); eassumption.
      * eapply (sorted_head_max published_at); [exact Hsorted|reflexivity|exact Ha].
Qed.

End Summary.

Lemma summary_totals_witness :
  let s := @create_simple_summary plain_lib (fun _ => 0%Z) sample_config
             sample_articles in
  List.map ad_title (sd_articles s) = [py "newer"; py "older"] /\
  date_range_latest s = Some (py "200") /\
  date_range_earliest s = Some (py "100") /\
  avg_content_length (sd_stats s) = 3 /\
  total_sources (sd_stats s) = 1.
Proof.
  destruct (@summary_totals plain_lib sample_config (fun _ => 0%Z)
              sample_articles)
    as (_ & _ & _ & Hsrc & Havg & _ & Hdated).
  destruct Hdated as (sorted & first & final & _ & _ & Htitles & _ & _ & _
                      & Hlatest & Hearliest & _).
  - discriminate.
  - repeat constructor; discriminate.
  - cbv zeta. rewrite Hsrc, Havg. repeat split; vm_compute; reflexivity.
Defined.

(** * Further properties of the crawler *)

(** ** Substrings *)

Lemma startswith_spec hay needle :
  startswith hay needle = true <-> exists q, hay = needle ++ q.
Proof.
  revert hay. induction needle as [|n ns IH]; intros hay.
  - destruct hay; simpl; split; eauto.
  - destruct hay as [|h hs]; simpl.
    + split; [discriminate|]. intros [q Hq]. discriminate Hq.
    + rewrite andb_true_iff, N.eqb_eq, IH. split.
      * intros [-> [q ->]]. now exists q.
      * intros [q [= -> ->]]. split; [reflexivity|now exists q].
Qed.

Lemma contains_spec hay needle :
  contains hay needle = true <-> exists p q, hay = p ++ needle ++ q.
Proof.
  induction hay as [|h hs IH].
  - cbn [contains]. rewrite orb_false_r, startswith_spec. split.
    + intros [q Hq]. now exists [], q.
    + intros (p & q & Hq). symmetry in Hq.
      apply app_eq_nil in Hq as [-> Hq]. now exists q.
  - cbn [contains]. rewrite orb_true_iff, startswith_spec, IH. split.
    + intros [[q Hq]|(p & q & ->)].
      * now exists [], q.
      * now exists (h :: p), q.
    + intros ([|x p] & q & Hq).
      * left. now exists q.
      * right. injection Hq as -> ->. now exists p, q.
Qed.

(** X1: the preview of an article is its content when that has at
    most 300 characters, and otherwise its first 300 characters followed
    by three dots; it never has more than 303 characters, and it is empty
    for an article without content. *)
Theorem content_preview_bounded (a : article) :
  let c := default [] (content a) in
  let preview := get_content_preview a in
  length preview <= 303 /\
  (length c <= 300 -> preview = c) /\
  (300 < length c ->
     preview = firstn 300 c ++ py "..." /\ length preview = 303) /\
  (content a = None -> preview = []).
Proof.
  intros c preview. subst preview. unfold get_content_preview. fold c.
  destruct (Nat.ltb_spec 300 (length c)) as [Hlong|Hshort].
  - assert (Hlen : length (firstn 300 c ++ py "...") = 303).
    { rewrite length_app, length_firstn.
      change (length (py "...")) with 3. lia. }
    repeat split; try lia.
    intros Hnone. subst c. rewrite Hnone in Hlong. simpl in Hlong. lia.
  - repeat split; try lia.
    intros Hnone. subst c. now rewrite Hnone.
Qed.

Section Images.
Context `{L : PyLib}.

(** X2: an image address is kept when it is not empty and its
    lower-cased form either holds one of the five image extensions
    anywhere, whatever else it holds, or holds none of the six excluded
    words; every other address is dropped. *)
Theorem valid_image_rule (url : str) :
  _is_valid_image url = true <->
  url <> [] /\
  ((exists ext, In ext valid_extensions /\ contains (lower url) ext = true)
   \/ (forall word, In word exclude_keywords ->
                    contains (lower url) word = false)).
Proof.
  unfold _is_valid_image. fold valid_extensions exclude_keywords.
  destruct url as [|c rest]; simpl truthy; cbn [negb].
  - split; [discriminate|]. intros [Hne _]. contradiction.
  - set (u := lower (c :: rest)).
    destruct (existsb (contains u) valid_extensions) eqn:Hext.
    + split; [|reflexivity]. intros _. split; [discriminate|]. left.
      apply existsb_exists in Hext. exact Hext.
    + destruct (existsb (contains u) exclude_keywords) eqn:Hexc.
      * split; [discriminate|]. intros [_ [(ext & Hin & Hc)|Hnone]].
        -- assert (existsb (contains u) valid_extensions = true)
             by (apply existsb_exists; eauto).
           congruence.
        -- apply existsb_exists in Hexc as (w & Hin & Hc).
           rewrite (Hnone w Hin) in Hc. discriminate Hc.
      * split; [|reflexivity]. intros _. split; [discriminate|]. right.
        intros w Hin. destruct (contains u w) eqn:Hc; [|reflexivity].
        assert (existsb (contains u) exclude_keywords = true)
          by (apply existsb_exists; eauto).
        congruence.
Qed.

Lemma image_of_spec base_url img found im :
  image_of base_url img = Ok found -> In im found ->
  exists src,
    image_source img = Some src /\ src <> [] /\
    urljoin base_url src = Ok (img_url im) /\
    _is_valid_image (img_url im) = true.
Proof.
  destruct img as [kind s|name classes attrs contents];
    [intros [= <-] []|].
  unfold image_of, image_source.
  destruct (or_else _ _) as [src|]; [|intros [= <-] []].
  destruct src as [|c rest]; [intros [= <-] []|]. cbn [truthy].
  destruct (urljoin base_url (c :: rest)) as [u|e] eqn:Hjoin;
    cbn [mbind result_bind]; [|intros Heq; discriminate Heq].
  destruct (_is_valid_image u) eqn:Hv; intros [= <-]; [|intros []].
  intros [<-|[]]. exists (c :: rest).
  repeat split; [discriminate|exact Hjoin|exact Hv].
Qed.

Lemma image_of_returns base_url img :
  (exists found, image_of base_url img = Ok found) <-> joins base_url img.
Proof.
  unfold joins.
  destruct img as [kind s|name classes attrs contents].
  - split; [intros _ src Hsrc; discriminate Hsrc|intros _; now eexists].
  - unfold image_of, image_source.
    destruct (or_else _ _) as [src|].
    + destruct src as [|c rest]; cbn [truthy].
      * split; [|intros _; now eexists].
        intros _ src [= <-] Hne. contradiction.
      * split.
        -- intros [found Hf] src [= <-] _.
           destruct (urljoin base_url (c :: rest)) as [u|e];
             [now exists u|discriminate Hf].
        -- intros Hj. destruct (Hj (c :: rest) eq_refl) as [u ->];
             [discriminate|]. cbn [mbind result_bind]. now eexists.
    + split; [intros _ src Hsrc; discriminate Hsrc|intros _; now eexists].
Qed.

Lemma image_of_raises base_url img src e :
  image_source img = Some src -> src <> [] ->
  urljoin base_url src = Raise e -> image_of base_url img = Raise e.
Proof.
  destruct img as [kind s|name classes attrs contents];
    [intros Hsrc; discriminate Hsrc|].
  unfold image_of, image_source. intros -> Hne Hjoin.
  destruct src as [|c rest]; [contradiction|]. cbn [truthy].
  now rewrite Hjoin.
Qed.

Lemma images_loop_returns base_url imgs : forall images,
  Forall (joins base_url) imgs ->
  images_loop base_url imgs images
  = Ok (images ++ flat_map (images_of_tag base_url) imgs).
Proof.
  induction imgs as [|img rest IH]; intros images Hall; cbn [images_loop].
  - cbn. now rewrite app_nil_r.
  - apply Forall_cons_iff in Hall as [Himg Hrest].
    apply image_of_returns in Himg as [found Hfound].
    cbn [flat_map]. unfold images_of_tag at 1. rewrite Hfound.
    cbn [mbind result_bind]. rewrite (IH _ Hrest). now rewrite app_assoc.
Qed.

Lemma images_loop_ok base_url imgs : forall images all,
  images_loop base_url imgs images = Ok all -> Forall (joins base_url) imgs.
Proof.
  induction imgs as [|img rest IH]; intros images all; [constructor|].
  cbn [images_loop].
  destruct (image_of base_url img) as [found|e] eqn:Hfound;
    cbn [mbind result_bind]; [|intros Heq; discriminate Heq].
  intros Hloop. constructor.
  - apply image_of_returns. now exists found.
  - eapply IH, Hloop.
Qed.

Lemma images_loop_raises base_url pre img post e : forall images,
  Forall (joins base_url) pre ->
  image_of base_url img = Raise e ->
  images_loop base_url (pre ++ img :: post) images = Raise e.
Proof.
  induction pre as [|k pre IH]; intros images Hpre Himg;
    cbn [app images_loop].
  - now rewrite Himg.
  - apply Forall_cons_iff in Hpre as [Hk Hpre].
    apply image_of_returns in Hk as [found ->]. cbn [mbind result_bind].
    now apply IH.
Qed.

(** X3: [_extract_images] returns exactly when every [img] tag of the
    page with a source ([src], or [data-src] when [src] is missing or
    empty) has one that [urljoin] can join to the base address, and it
    raises what [urljoin] raises at the first tag where it cannot; when
    it returns, it returns at most five images; each one comes from an
    [img] tag of the page whose source is not empty; its address is that
    source joined to the base address and passes [_is_valid_image]; and
    the images are the first ones of the page, in document order, that
    do. *)
Theorem extract_images_sound (soup : node) (base_url : str) :
  let imgs := find_all (py "img") soup in
  ((exists images, _extract_images soup base_url = Ok images)
   <-> Forall (joins base_url) imgs) /\
  (forall pre img post src e,
      imgs = pre ++ img :: post -> Forall (joins base_url) pre ->
      image_source img = Some src -> src <> [] ->
      urljoin base_url src = Raise e ->
      _extract_images soup base_url = Raise e) /\
  (forall images,
      _extract_images soup base_url = Ok images ->
      length images <= 5 /\
      (forall im, In im images ->
         exists img src,
           In img imgs /\
           image_source img = Some src /\ src <> [] /\
           urljoin base_url src = Ok (img_url im) /\
           _is_valid_image (img_url im) = true) /\
      (exists rest,
          flat_map (images_of_tag base_url) imgs = images ++ rest /\
          (length images < 5 -> rest = []))).
Proof.
  intros imgs. unfold _extract_images. fold imgs.
  split; [|split].
  - split.
    + intros [images Hrun].
      destruct (images_loop base_url imgs []) as [all|e] eqn:Hloop;
        [|discriminate Hrun].
      eapply images_loop_ok, Hloop.
    + intros Hall. rewrite (images_loop_returns base_url imgs [] Hall).
      cbn [mbind result_bind]. now eexists.
  - intros pre img post src e -> Hpre Hsrc Hne Hjoin.
    rewrite (images_loop_raises base_url pre img post e [] Hpre
               (image_of_raises base_url img src e Hsrc Hne Hjoin)).
    reflexivity.
  - intros images Hrun.
    destruct (images_loop base_url imgs []) as [all|e] eqn:Hloop;
      [|discriminate Hrun].
    cbn [mbind result_bind] in Hrun. injection Hrun as <-.
    pose proof (images_loop_ok base_url imgs [] all Hloop) as Hall.
    rewrite (images_loop_returns base_url imgs [] Hall) in Hloop.
    injection Hloop as <-. cbn [app].
    set (all := flat_map (images_of_tag base_url) imgs).
    split; [rewrite length_firstn; lia|]. split.
    + intros im Hin. apply firstn_In in Hin.
      apply in_flat_map in Hin as (img & Himg & Him).
      unfold images_of_tag in Him.
      destruct (image_of base_url img) as [found|e] eqn:Hfound;
        [|destruct Him].
      destruct (image_of_spec base_url img found im Hfound Him)
        as (src & Hsrc).
      now exists img, src.
    + exists (skipn 5 all). split; [now rewrite firstn_skipn|].
      rewrite length_firstn. intros Hlt.
      apply skipn_all2. lia.
Qed.

End Images.

Lemma content_preview_bounded_witness :
  get_content_preview
    (store_crawl sample_stub (repeat 97%N 400) [] success 0%Q)
  = repeat 97%N 300 ++ py "...".
Proof.
  destruct (content_preview_bounded
              (store_crawl sample_stub (repeat 97%N 400) [] success 0%Q))
    as (_ & _ & Hlong & _).
  apply Hlong. vm_compute. lia.
Defined.

(** A page whose image has an empty [src] and the [data-src]
    [/logo.png], and one whose image has the [src] [//[x]. *)
Lemma extract_images_sound_witness :
  (exists images,
      @_extract_images plain_lib
         (soup_of [Tag (py "img") []
                     [(py "src", []); (py "data-src", py "/logo.png")] []])
         sample_url = Ok images /\
      Forall (fun im => img_url im = py "https://example.com/logo.png")
             images) /\
  @_extract_images plain_lib
     (soup_of [Tag (py "img") [] [(py "src", py "//[x")] []]) sample_url
  = Raise (ValueError "Invalid IPv6 URL").
Proof.
  split.
  - destruct (@extract_images_sound plain_lib
               (soup_of [Tag (py "img") []
                           [(py "src", []); (py "data-src", py "/logo.png")]
                           []])
               sample_url) as (Hreturns & _ & Hsound).
    destruct (proj2 Hreturns) as [images Hrun].
    { repeat constructor. intros src [= <-] _.
      exists (py "https://example.com/logo.png"). vm_compute. reflexivity. }
    exists images. split; [exact Hrun|].
    apply List.Forall_forall. intros im Hin.
    destruct (Hsound images Hrun) as (_ & Himgs & _).
    destruct (Himgs im Hin) as (img & src & Himg & Hsrc & _ & Hurl & _).
    vm_compute in Himg. destruct Himg as [<-|[]].
    vm_compute in Hsrc. injection Hsrc as <-.
    vm_compute in Hurl. injection Hurl as Hurl.
    vm_compute. symmetry. exact Hurl.
  - destruct (@extract_images_sound plain_lib
               (soup_of [Tag (py "img") [] [(py "src", py "//[x")] []])
               sample_url) as (_ & Hraises & _).
    apply (Hraises [] (Tag (py "img") [] [(py "src", py "//[x")] []) []
                   (py "//[x"));
      [reflexivity|constructor|reflexivity|discriminate
      |vm_compute; reflexivity].
Defined.

Lemma valid_image_rule_witness :
  @_is_valid_image plain_lib (py "https://example.com/logo.png") = true.
Proof.
  apply (proj2 (@valid_image_rule plain_lib (py "https://example.com/logo.png"))).
  split; [discriminate|]. left. exists (py ".png").
  split; [right; right; now left|reflexivity].
Defined.

(** ** The selector table *)

Lemma selectors_for_registered {host d : str} sels table :
  contains host d = true ->
  (forall k v, In (k, v) table -> k <> d -> contains host k = false) ->
  selectors_for (dict_set d sels table) host = sels.
Proof.
  intros Hd. induction table as [|[k w] rest IH]; intros Hother; simpl.
  - now rewrite Hd.
  - destruct (str_eqb k d) eqn:Hk; simpl.
    + apply str_eqb_true in Hk as ->. now rewrite Hd.
    + apply str_eqb_false in Hk.
      rewrite (Hother k w) by (now left || exact Hk).
      apply IH. intros k' v Hin. apply (Hother k' v). now right.
Qed.

Lemma selectors_for_shadowed {host d : str} sels table :
  ~ In d (List.map fst table) ->
  (exists k, In k (List.map fst table) /\ contains host k = true) ->
  selectors_for (dict_set d sels table) host = selectors_for table host.
Proof.
  induction table as [|[k w] rest IH]; intros Hnew (k0 & Hin & Hk0); simpl.
  - destruct Hin.
  - simpl in Hnew.
    destruct (str_eqb k d) eqn:Hk.
    + apply str_eqb_true in Hk. exfalso. apply Hnew. now left.
    + simpl. destruct (contains host k) eqn:Hc; [reflexivity|].
      apply IH; [tauto|]. destruct Hin as [Heq|Hin].
      * simpl in Heq. subst k0. congruence.
      * now exists k0.
Qed.

Section Table.
Context `{L : PyLib}.

(** X4: registering selectors for a domain leaves the counters alone;
    a page whose host holds the domain and no other key of the table is
    extracted with the registered selectors, when these are not empty;
    and registering a new domain changes nothing for a host that holds a
    key the table already had, since the first key found in the host
    decides. *)
Theorem custom_selector_lookup self (domain : str)
  (selectors : list selector) (url : str) :
  let self' := add_custom_selector self domain selectors in
  let host := lower (netloc url) in
  stats self' = stats self /\
  (selectors <> [] -> contains host domain = true ->
   (forall k v, In (k, v) (content_selectors self) -> k <> domain ->
                contains host k = false) ->
   chosen_selectors self' url = selectors) /\
  (~ In domain (List.map fst (content_selectors self)) ->
   (exists k, In k (List.map fst (content_selectors self))
              /\ contains host k = true) ->
   chosen_selectors self' url = chosen_selectors self url).
Proof.
  intros self' host. split; [reflexivity|]. split.
  - intros Hne Hd Hother. unfold chosen_selectors. fold host.
    subst self'. unfold add_custom_selector. cbn [content_selectors].
    rewrite (selectors_for_registered selectors _ Hd Hother).
    destruct selectors; [contradiction|reflexivity].
  - intros Hnew Hold. unfold chosen_selectors. fold host.
    subst self'. unfold add_custom_selector. cbn [content_selectors].
    now rewrite (selectors_for_shadowed selectors _ Hnew Hold).
Qed.

(** X5: the extractor always has at least one selector to try; a
    site registered with an empty list is extracted with the twelve
    generic selectors, like a site that is not in the table. *)
Theorem chosen_selectors_nonempty self (url : str) :
  let host := lower (netloc url) in
  chosen_selectors self url <> [] /\
  (selectors_for (content_selectors self) host = [] ->
   chosen_selectors self url = generic_selectors) /\
  length generic_selectors = 12 /\
  (forall domain,
      contains host domain = true ->
      (forall k v, In (k, v) (content_selectors self) -> k <> domain ->
                   contains host k = false) ->
      chosen_selectors (add_custom_selector self domain []) url
      = generic_selectors).
Proof.
  intros host. split; [|split; [|split]].
  - unfold chosen_selectors. fold host.
    destruct (selectors_for (content_selectors self) host); discriminate.
  - intros Hnone. unfold chosen_selectors. fold host. now rewrite Hnone.
  - reflexivity.
  - intros domain Hd Hother. unfold chosen_selectors. fold host.
    unfold add_custom_selector. cbn [content_selectors].
    now rewrite (selectors_for_registered [] _ Hd Hother).
Qed.

End Table.

Lemma custom_selector_lookup_witness :
  @chosen_selectors plain_lib
     (add_custom_selector new_crawler (py "example.com")
                          [ByClass (py "story")])
     sample_url
  = [ByClass (py "story")].
Proof.
  destruct (@custom_selector_lookup plain_lib new_crawler (py "example.com")
              [ByClass (py "story")] sample_url) as (_ & Hused & _).
  apply Hused; [discriminate|reflexivity|].
  intros k v Hin _. vm_compute in Hin.
  repeat (destruct Hin as [[= <- <-]|Hin]; [reflexivity|]). destruct Hin.
Defined.

Lemma chosen_selectors_nonempty_witness :
  @chosen_selectors plain_lib
     (add_custom_selector new_crawler (py "example.com") []) sample_url
  = generic_selectors.
Proof.
  destruct (@chosen_selectors_nonempty plain_lib new_crawler sample_url)
    as (_ & _ & _ & Hempty).
  apply (Hempty (py "example.com")); [reflexivity|].
  intros k v Hin _. vm_compute in Hin.
  repeat (destruct Hin as [[= <- <-]|Hin]; [reflexivity|]). destruct Hin.
Defined.

(** ** More on the crawl loop *)

Lemma rate_bound (s n : nat) :
  s <= S n ->
  (0 <= inject_Z (Z.of_nat s) / inject_Z (Z.of_nat (S n)) * 100 <= 100)%Q.
Proof.
  intros Hle.
  unfold Qle, Qdiv, Qmult, Qinv, inject_Z. simpl Qnum. simpl Qden.
  rewrite Pos.mul_1_l, Pos.mul_1_r, Zpos_P_of_succ_nat. lia.
Qed.

Lemma print_statistics_rate self :
  successful_crawls (stats self) <= total_attempts (stats self) ->
  exists rate,
    _print_statistics self = Ok rate /\ (0 <= rate <= 100)%Q /\
    (total_attempts (stats self) = 0 -> rate = 0%Q).
Proof.
  intros Hle. unfold _print_statistics.
  destruct (total_attempts (stats self)) as [|n] eqn:Htot.
  - exists 0%Q. repeat split; discriminate.
  - cbn [Nat.ltb Nat.leb truediv]. eexists. split; [reflexivity|].
    split; [now apply rate_bound|discriminate].
Qed.

Section CrawlMore.
Context `{L : PyLib} `{W : World} `{Cfg : Config}.

(** X6: after a run over stubs with titles on a crawler whose
    counters are the zeros of [__init__], the success rate that
    [_print_statistics] prints lies between 0 and 100, and it is 0 for
    the empty batch. *)
Theorem success_rate_bounded self (articles : list article) :
  Forall (fun a => title a <> None) articles ->
  stats self = stats new_crawler ->
  exists out self' rate,
    crawl_articles self articles = (Ok out, self') /\
    _print_statistics self' = Ok rate /\
    (0 <= rate <= 100)%Q /\
    (articles = [] -> rate = 0%Q).
Proof.
  intros Hwf Hfresh.
  destruct (crawl_articles_spec self articles Hwf)
    as (out & self' & Hrun & _ & _ & Hcnt).
  unfold counted in Hcnt. rewrite Hfresh in Hcnt. simpl in Hcnt.
  destruct Hcnt as (Htot & Hsum & _).
  destruct (print_statistics_rate self') as (rate & Hrate & Hbound & Hnone);
    [lia|].
  exists out, self', rate. repeat split; try assumption; try apply Hbound.
  intros ->. apply Hnone. exact Htot.
Qed.

Lemma for_enumerate_app {A : Type} (body : nat -> A -> M unit) l1 l2 :
  forall i fr,
    for_enumerate body i (l1 ++ l2) fr
    = match for_enumerate body i l1 fr with
      | (Ok _, fr1) => for_enumerate body (i + length l1) l2 fr1
      | (Raise e, fr1) => (Raise e, fr1)
      end.
Proof.
  induction l1 as [|x l1 IH]; intros i fr; simpl.
  - now rewrite Nat.add_0_r.
  - unfold mbind, M_bind, bind.
    destruct (body i x fr) as [[u|e] fr1]; [|reflexivity].
    rewrite IH. now replace (S i + length l1) with (i + S (length l1)) by lia.
Qed.

(** X7: a stub without a title aborts the batch: the handler of the
    loop reads the title for its log message, so [crawl_articles] raises
    [KeyError] to its caller, who gets none of the records made for the
    stubs before; the stub was counted as a failure. *)
Theorem missing_title_aborts self (before : list article) (a : article)
  (after : list article) :
  Forall (fun a => title a <> None) before ->
  title a = None ->
  exists self',
    crawl_articles self (before ++ a :: after)
    = (Raise (KeyError "title"), self') /\
    total_attempts (stats self') = length (before ++ a :: after) /\
    successful_crawls (stats self') + failed_crawls (stats self')
    = successful_crawls (stats self) + failed_crawls (stats self)
      + length before + 1.
Proof.
  intros Hwf Ht. rewrite crawl_articles_unfold, for_enumerate_app.
  destruct (loop_spec before 1
              {| self_ := with_stats self
                            (set_total (length (before ++ a :: after)));
                 crawled_articles := [] |} Hwf)
    as (out & self1 & Hloop & _ & _ & Hcnt).
  rewrite Hloop. cbn [for_enumerate]. unfold mbind, M_bind, bind.
  rewrite (step_no_title _ a _ Ht). cbn [self_].
  eexists. split; [reflexivity|].
  unfold counted in Hcnt. simpl in Hcnt |- *. lia.
Qed.

Lemma loop_without_link articles : forall i fr,
  Forall (fun a => title a <> None /\ link a = None) articles ->
  exists self',
    for_enumerate crawl_step i articles fr
    = (Ok tt, {| self_ := self';
                 crawled_articles :=
                   crawled_articles fr
                     ++ List.map error_record (enumerate i articles) |}) /\
    content_selectors self' = content_selectors (self_ fr) /\
    total_attempts (stats self') = total_attempts (stats (self_ fr)) /\
    successful_crawls (stats self') = successful_crawls (stats (self_ fr)) /\
    failed_crawls (stats self')
    = failed_crawls (stats (self_ fr)) + length articles /\
    fallback_used (stats self') = fallback_used (stats (self_ fr)).
Proof.
  induction articles as [|a rest IH]; intros i fr Hwf.
  - exists (self_ fr). simpl. rewrite app_nil_r. destruct fr.
    repeat split; simpl; lia.
  - apply Forall_cons_iff in Hwf as [[Ht Hl] Hrest].
    destruct (title a) as [t|] eqn:Htitle; [|contradiction].
    cbn [for_enumerate]. unfold mbind, M_bind, bind.
    rewrite (step_no_link i a fr t Htitle Hl).
    destruct (IH (S i)
                {| self_ := with_stats (self_ fr) count_failure;
                   crawled_articles :=
                     crawled_articles fr
                       ++ [store_crawl a (default [] (summary a)) [] error
                                       (time_time i)] |} Hrest)
      as (self' & Hloop & Hsel & Htot & Hs & Hf & Hfb).
    exists self'. rewrite Hloop. simpl in *.
    rewrite <- app_assoc. repeat split; try assumption; lia.
Qed.

Lemma Forall2_map_r {A B : Type} (P : A -> B -> Prop) (f : A -> B) l :
  (forall x, P x (f x)) -> Forall2 P l (List.map f l).
Proof. intros Hf. induction l; simpl; constructor; auto. Qed.

(** X8: for stubs that have a title and no ['link'] key, as the dicts
    that [GoogleNewsCollector.extract_article_info] builds (their address
    is under ['url']), [crawl_articles] fetches nothing: whatever the
    network would answer, every record is its stub with the status
    [error], the stub's summary (the empty string when it has none) as
    content, the length of that summary and no image, and all stubs are
    counted as failures. *)
Theorem crawl_without_link self (articles : list article) :
  Forall (fun a => title a <> None /\ link a = None) articles ->
  exists out self',
    crawl_articles self articles = (Ok out, self') /\
    Forall2 (fun ia a' =>
               crawled (snd ia) a' (default [] (summary (snd ia))) [] error
                       (time_time (fst ia)))
            (enumerate 1 articles) out /\
    total_attempts (stats self') = length articles /\
    successful_crawls (stats self') = successful_crawls (stats self) /\
    failed_crawls (stats self') = failed_crawls (stats self) + length articles /\
    fallback_used (stats self') = fallback_used (stats self).
Proof.
  intros Hwf. rewrite crawl_articles_unfold.
  destruct (loop_without_link articles 1
              {| self_ := with_stats self (set_total (length articles));
                 crawled_articles := [] |} Hwf)
    as (self' & Hloop & _ & Htot & Hs & Hf & Hfb).
  rewrite Hloop. cbn [self_ crawled_articles app].
  destruct (print_statistics_total self') as [q ->].
  exists (List.map error_record (enumerate 1 articles)), self'.
  split; [reflexivity|]. split.
  - apply Forall2_map_r. intros [i a]. unfold error_record.
    apply store_crawled.
  - simpl in *. repeat split; assumption.
Qed.

(** X26: when a page was fetched and one of the [img] tags that the
    extractor left in it has a source that [urljoin] cannot join to the
    address, [_extract_content] answers the empty content and no image,
    whatever content the extractor had found; what the extractor counted
    stays counted. *)
Theorem bad_image_discards_content self (url : str) (soup : node) :
  fetch url = Ok soup ->
  forall self1 soup1 content pre img post src e,
    _extract_main_content self soup url = (self1, soup1, content) ->
    find_all (py "img") soup1 = pre ++ img :: post ->
    Forall (joins url) pre ->
    image_source img = Some src -> src <> [] ->
    urljoin url src = Raise e ->
    _extract_content self url = (self1, ([], [])) /\
    (self1 = self \/ self1 = use_fallback self).
Proof.
  intros Hfetch self1 soup1 content pre img post src e Hmain Himgs Hpre
    Hsrc Hne Hjoin.
  split.
  - unfold _extract_content. rewrite Hfetch, Hmain.
    unfold _extract_images. rewrite Himgs.
    rewrite (images_loop_raises url pre img post e [] Hpre
               (image_of_raises url img src e Hsrc Hne Hjoin)).
    reflexivity.
  - pose proof (extract_main_content_counters self soup url) as Hc.
    now rewrite Hmain in Hc.
Qed.

Lemma step_status i a fr t :
  title a = Some t ->
  exists a' self' st,
    crawl_step i a fr
    = (Ok tt, {| self_ := self';
                 crawled_articles := crawled_articles fr ++ [a'] |}) /\
    crawl_status a' = Some st /\
    successful_crawls (stats self')
    = successful_crawls (stats (self_ fr))
      + (if status_eqb st success then 1 else 0) /\
    failed_crawls (stats self')
    = failed_crawls (stats (self_ fr))
      + (if status_eqb st success then 0 else 1) /\
    (st = success -> exists c, content a' = Some c /\ c <> []) /\
    (st = failed -> content a' = Some []).
Proof.
  intros Ht. destruct (link a) as [l|] eqn:Hl.
  - rewrite (step_link i a fr t l Ht Hl).
    pose proof (extract_content_counters (self_ fr) l) as Hc.
    destruct (_extract_content (self_ fr) l) as [self' [c imgs]].
    eexists _, _, (if truthy c then success else failed).
    split; [reflexivity|]. split; [reflexivity|].
    destruct c as [|x c]; cbn [truthy status_eqb].
    + destruct Hc as [->| ->]; simpl; repeat split; try lia; discriminate.
    + destruct Hc as [->| ->]; simpl; repeat split; try lia;
        try discriminate; intros _; eexists; split;
        try reflexivity; discriminate.
  - rewrite (step_no_link i a fr t Ht Hl).
    eexists _, _, error. split; [reflexivity|]. split; [reflexivity|].
    simpl. repeat split; try lia; discriminate.
Qed.

Lemma count_status_snoc st l a s :
  crawl_status a = Some s ->
  count_status st (l ++ [a])
  = count_status st l + (if status_eqb s st then 1 else 0).
Proof.
  intros Hs. unfold count_status.
  rewrite List.filter_app, length_app. simpl. rewrite Hs.
  now destruct (status_eqb s st).
Qed.

Lemma loop_status articles : forall i fr,
  Forall (fun a => title a <> None) articles ->
  exists out self',
    for_enumerate crawl_step i articles fr
    = (Ok tt, {| self_ := self';
                 crawled_articles := crawled_articles fr ++ out |}) /\
    successful_crawls (stats self')
    = successful_crawls (stats (self_ fr)) + count_status success out /\
    failed_crawls (stats self')
    = failed_crawls (stats (self_ fr))
      + count_status failed out + count_status error out /\
    Forall (fun a' =>
              (crawl_status a' = Some success ->
               exists c, content a' = Some c /\ c <> []) /\
              (crawl_status a' = Some failed -> content a' = Some []))
           out.
Proof.
  induction articles as [|a rest IH]; intros i fr Hwf.
  - exists [], (self_ fr). simpl. rewrite app_nil_r. destruct fr.
    unfold count_status. repeat split; simpl; try lia. constructor.
  - apply Forall_cons_iff in Hwf as [Ha Hrest].
    destruct (title a) as [t|] eqn:Ht; [|contradiction].
    destruct (step_status i a fr t Ht)
      as (a' & self1 & st & Hstep & Hst & Hs & Hf & Hsucc & Hfail).
    destruct (IH (S i) {| self_ := self1;
                          crawled_articles := crawled_articles fr ++ [a'] |}
                 Hrest)
      as (out & self2 & Hloop & Hs2 & Hf2 & Hall).
    exists (a' :: out), self2.
    cbn [for_enumerate]. unfold mbind, M_bind, bind.
    rewrite Hstep, Hloop. simpl in *. rewrite <- app_assoc.
    split; [reflexivity|].
    assert (Hcount : forall s,
               count_status s (a' :: out)
               = (if status_eqb st s then 1 else 0) + count_status s out).
    { intros s. unfold count_status. simpl. rewrite Hst.
      now destruct (status_eqb st s). }
    rewrite !Hcount. split; [|split].
    + destruct st; simpl in *; lia.
    + destruct st; simpl in *; lia.
    + constructor; [|exact Hall]. rewrite Hst. split.
      * intros [= ->]. now apply Hsucc.
      * intros [= ->]. now apply Hfail.
Qed.

(** X9: the counters count the records: a run over stubs with titles
    adds to [successful_crawls] the number of returned records with the
    status [success] and to [failed_crawls] the number of those with the
    status [failed] or [error]; a record with the status [success] has a
    content that is not empty, and one with the status [failed] has the
    empty content. *)
Theorem counters_match_records self (articles : list article) :
  Forall (fun a => title a <> None) articles ->
  exists out self',
    crawl_articles self articles = (Ok out, self') /\
    successful_crawls (stats self')
    = successful_crawls (stats self) + count_status success out /\
    failed_crawls (stats self')
    = failed_crawls (stats self)
      + count_status failed out + count_status error out /\
    Forall (fun a' =>
              (crawl_status a' = Some success ->
               exists c, content a' = Some c /\ c <> []) /\
              (crawl_status a' = Some failed -> content a' = Some []))
           out.
Proof.
  intros Hwf. rewrite crawl_articles_unfold.
  destruct (loop_status articles 1
              {| self_ := with_stats self (set_total (length articles));
                 crawled_articles := [] |} Hwf)
    as (out & self' & Hloop & Hs & Hf & Hall).
  rewrite Hloop. cbn [self_ crawled_articles app].
  destruct (print_statistics_total self') as [q ->].
  exists out, self'. simpl in *. repeat split; assumption.
Qed.

End CrawlMore.

Lemma success_rate_bounded_witness :
  exists out self' rate,
    @crawl_articles plain_lib offline sample_config new_crawler [sample_stub]
    = (Ok out, self') /\
    _print_statistics self' = Ok rate /\ (0 <= rate <= 100)%Q.
Proof.
  destruct (@success_rate_bounded plain_lib offline sample_config new_crawler
              [sample_stub] sample_stub_titled eq_refl)
    as (out & self' & rate & Hrun & Hrate & Hbound & _).
  now exists out, self', rate.
Defined.

Lemma missing_title_aborts_witness :
  exists self',
    @crawl_articles plain_lib offline sample_config new_crawler
       ([sample_stub]
          ++ {| title := None; link := None; url := None; summary := None;
                source := None; published := None; content := None;
                images := None; content_length := None;
                crawl_status := None; crawled_at := None |} :: [sample_stub])
    = (Raise (KeyError "title"), self').
Proof.
  destruct (@missing_title_aborts plain_lib offline sample_config new_crawler
              [sample_stub]
              {| title := None; link := None; url := None; summary := None;
                 source := None; published := None; content := None;
                 images := None; content_length := None;
                 crawl_status := None; crawled_at := None |}
              [sample_stub] sample_stub_titled eq_refl)
    as (self' & Hrun & _).
  now exists self'.
Defined.

Lemma crawl_without_link_witness :
  exists out self',
    @crawl_articles plain_lib offline sample_config new_crawler
       sample_articles
    = (Ok out, self') /\
    Forall (fun a' => crawl_status a' = Some error /\ images a' = Some [])
           out /\
    failed_crawls (stats self') = 2.
Proof.
  destruct (@crawl_without_link plain_lib offline sample_config new_crawler
              sample_articles) as (out & self' & Hrun & Hall & _ & _ & Hf & _).
  - repeat constructor; discriminate.
  - exists out, self'. split; [exact Hrun|]. split; [|exact Hf].
    clear Hrun Hf. induction Hall as [|ia a' ias out Hrec _ IH];
      constructor; [|exact IH].
    destruct Hrec as (_ & _ & _ & _ & _ & _ & _ & Himg & _ & Hst & _).
    now split.
Defined.

(** The page with 300 characters of content and an image whose source
    is [//[x]: the content is found and lost, and the stub fails. *)
Lemma bad_image_discards_content_witness :
  snd (@_extract_main_content plain_lib new_crawler page_with_bad_image
         sample_url) = long_text /\
  @_extract_content plain_lib (serving page_with_bad_image) sample_config
     new_crawler sample_url
  = (new_crawler, ([], [])).
Proof.
  split; [vm_compute; reflexivity|].
  apply (@bad_image_discards_content plain_lib (serving page_with_bad_image)
           sample_config new_crawler sample_url page_with_bad_image eq_refl
           new_crawler page_with_bad_image long_text
           [] (Tag (py "img") [] [(py "src", py "//[x")] []) []
           (py "//[x") (ValueError "Invalid IPv6 URL")).
  - vm_compute. reflexivity.
  - vm_compute. reflexivity.
  - constructor.
  - reflexivity.
  - discriminate.
  - vm_compute. reflexivity.
Defined.

Lemma counters_match_records_witness :
  exists out self',
    @crawl_articles plain_lib offline sample_config new_crawler [sample_stub]
    = (Ok out, self') /\
    successful_crawls (stats self') = count_status success out.
Proof.
  destruct (@counters_match_records plain_lib offline sample_config
              new_crawler [sample_stub] sample_stub_titled)
    as (out & self' & Hrun & Hs & _).
  exists out, self'. split; [exact Hrun|exact Hs].
Defined.

(** ** Noise removal, continued *)

(** X10: after [_clean_content] the element it was given holds no
    descendant that matches one of the seventeen noise selectors (script,
    style, nav, header, footer, aside, the advertising and sharing
    classes, ...), in the parsed page itself; the text it returns is the
    normalised text of the element so cleaned, and every text node that
    contributes to it was a text node of the element. *)
Theorem clean_content_removes_noise `{PyLib} (soup : node)
  (content_element : element) (e : node) :
  subtree soup content_element = Some e ->
  exists cleaned,
    subtree (fst (_clean_content soup content_element)) content_element
    = Some cleaned /\
    length remove_selectors = 17 /\
    (forall s, In s remove_selectors -> select s cleaned = []) /\
    (forall t, In t (strings cleaned) -> In t (strings e)) /\
    snd (_clean_content soup content_element)
    = _clean_text (Some (get_text [SPACE] true cleaned)).
Proof.
  intros Hsub. exists (remove_noise e). split; [|split; [|split; [|split]]].
  - unfold _clean_content. cbv zeta. cbn [fst].
    apply (subtree_clean_up content_element remove_selectors soup e Hsub).
  - reflexivity.
  - intros s Hs. unfold remove_noise.
    apply (remove_all_clean remove_selectors [] e); [intros s' []|exact Hs].
  - intros t. apply remove_all_strings.
  - apply (clean_content_text soup content_element e Hsub).
Qed.

Lemma clean_content_removes_noise_witness :
  exists cleaned,
    subtree (fst (@_clean_content plain_lib page_with_aside [0; 0; 0]))
            [0; 0; 0] = Some cleaned /\
    select (ByName (py "aside")) cleaned = [].
Proof.
  destruct (@clean_content_removes_noise plain_lib page_with_aside [0; 0; 0]
              _ eq_refl) as (cleaned & Hsub & _ & Hclean & _).
  exists cleaned. split; [exact Hsub|].
  apply Hclean. vm_compute. do 5 right. now left.
Defined.

(** ** More on the normaliser *)

Lemma collapse_length text :
  length (collapse_whitespace text) <= length text.
Proof.
  induction text as [|c rest IH]; [reflexivity|].
  cbn [collapse_whitespace].
  destruct (isspace c).
  - destruct rest as [|c' rest']; [reflexivity|].
    destruct (isspace c'); simpl in *; lia.
  - simpl. lia.
Qed.

Lemma remove_char_length ch text :
  length (remove_char ch text) <= length text.
Proof. unfold remove_char. apply filter_length_le. Qed.

Lemma strip_length text : length (strip text) <= length text.
Proof.
  destruct (strip_infix text) as (p & q & Heq).
  rewrite Heq at 2. rewrite !length_app. lia.
Qed.

Lemma collapse_space c text :
  In c (collapse_whitespace text) -> isspace c = true -> c = SPACE.
Proof.
  induction text as [|x rest IH]; [intros []|].
  cbn [collapse_whitespace].
  destruct (isspace x) eqn:Hx.
  - destruct rest as [|c' rest'].
    + now intros [<-|[]].
    + destruct (isspace c'); [exact IH|].
      intros [<-|Hin]; [reflexivity|now apply IH].
  - intros [<-|Hin]; [congruence|now apply IH].
Qed.

Lemma collapse_fixed text :
  has_space_run text = false ->
  (forall c, In c text -> isspace c = true -> c = SPACE) ->
  collapse_whitespace text = text.
Proof.
  induction text as [|c rest IH]; [reflexivity|].
  intros Hrun Hsp. cbn [collapse_whitespace].
  assert (Hrest : has_space_run rest = false).
  { destruct rest as [|c' r]; [reflexivity|].
    rewrite has_space_run_cons in Hrun.
    now apply orb_false_iff in Hrun. }
  assert (IH' : collapse_whitespace rest = rest).
  { apply IH; [exact Hrest|]. intros x Hx. apply Hsp. now right. }
  destruct (isspace c) eqn:Hc.
  - pose proof (Hsp c (or_introl eq_refl) Hc) as ->.
    destruct rest as [|c' r]; [reflexivity|].
    rewrite has_space_run_cons in Hrun.
    apply orb_false_iff in Hrun as [Hc' _].
    rewrite Hc in Hc'. cbn [andb] in Hc'.
    rewrite Hc'. now rewrite IH'.
  - now rewrite IH'.
Qed.

Lemma lstrip_fixed text :
  (forall c, head text = Some c -> isspace c = false) -> lstrip text = text.
Proof.
  destruct text as [|c rest]; [reflexivity|].
  intros Hh. simpl. now rewrite (Hh c eq_refl).
Qed.

Lemma head_rev_last {A : Type} (l : list A) : head (rev l) = last l.
Proof. rewrite <- (rev_involutive l) at 2. now rewrite last_rev_head. Qed.

Lemma strip_fixed text :
  (forall c, head text = Some c -> isspace c = false) ->
  (forall c, last text = Some c -> isspace c = false) ->
  strip text = text.
Proof.
  intros Hh Hl. unfold strip, rstrip.
  rewrite (lstrip_fixed text Hh), lstrip_fixed, rev_involutive;
    [reflexivity|].
  intros c. rewrite head_rev_last. apply Hl.
Qed.

Section NormaliserMore.
Context `{L : PyLib}.

Lemma clean_text_plain (text : str) :
  unescape_plain -> ~ In AMPERSAND text ->
  _clean_text (Some text)
  = strip (remove_char BOM
             (remove_char ZERO_WIDTH_SPACE (collapse_whitespace text))).
Proof.
  intros Hplain Hamp. destruct text as [|c rest]; [reflexivity|].
  rewrite clean_text_unfold. f_equal. apply Hplain.
  intros Hin. apply before_unescape_In in Hin as [[Hsp|Hin] _];
    [discriminate Hsp|contradiction].
Qed.

(** X11: for a text without ['&'] the normaliser never returns more
    characters than it was given. *)
Theorem clean_text_shrinks (text : str) :
  unescape_plain -> ~ In AMPERSAND text ->
  length (_clean_text (Some text)) <= length text.
Proof.
  intros Hplain Hamp. rewrite (clean_text_plain text Hplain Hamp).
  pose proof (strip_length
                (remove_char BOM
                   (remove_char ZERO_WIDTH_SPACE (collapse_whitespace text)))).
  pose proof (remove_char_length BOM
                (remove_char ZERO_WIDTH_SPACE (collapse_whitespace text))).
  pose proof (remove_char_length ZERO_WIDTH_SPACE (collapse_whitespace text)).
  pose proof (collapse_length text). lia.
Qed.

(** X12: normalising twice is normalising once for a text without
    ['&'] and without zero-width characters; a text with a zero-width
    character can change again in a second pass, as "a", space, U+200B,
    space, "b" does. *)
Theorem clean_text_idempotent (text : str) :
  (unescape_plain -> ~ In AMPERSAND text ->
   (forall c, In c text -> is_zero_width c = false) ->
   _clean_text (Some (_clean_text (Some text))) = _clean_text (Some text)) /\
  (let zw := py "a " ++ [ZERO_WIDTH_SPACE] ++ py " b" in
   @_clean_text plain_lib (Some zw) = py "a  b" /\
   @_clean_text plain_lib (Some (@_clean_text plain_lib (Some zw)))
   = py "a b").
Proof.
  split; [|split; reflexivity].
  intros Hplain Hamp Hzw.
  assert (Hchar : forall c, In c (collapse_whitespace text) ->
                            is_zero_width c = false /\ c <> AMPERSAND).
  { intros c Hin. apply collapse_In in Hin as [->|Hin].
    - split; [reflexivity|discriminate].
    - split; [now apply Hzw|]. intros ->. contradiction. }
  assert (Hz : forall ch s, is_zero_width ch = true ->
             (forall c, In c s -> is_zero_width c = false) ->
             remove_char ch s = s).
  { intros ch s Hch Hs. apply remove_char_absent. intros Hin.
    rewrite (Hs ch Hin) in Hch. discriminate Hch. }
  rewrite (clean_text_plain text Hplain Hamp).
  rewrite (Hz ZERO_WIDTH_SPACE)
    by (reflexivity || (intros c Hc; now apply Hchar)).
  rewrite (Hz BOM)
    by (reflexivity || (intros c Hc; now apply Hchar)).
  set (u := strip (collapse_whitespace text)).
  assert (Hu : forall c, In c u -> In c (collapse_whitespace text))
    by (intros c; apply strip_In).
  rewrite (clean_text_plain u Hplain)
    by (intros Hin; now apply Hu, Hchar in Hin).
  rewrite (collapse_fixed u).
  - rewrite (Hz ZERO_WIDTH_SPACE), (Hz BOM);
      try reflexivity; try (intros c Hc; now apply Hu, Hchar in Hc).
    apply strip_fixed; [apply strip_head|apply strip_last].
  - apply strip_no_run, collapse_no_run.
  - intros c Hc. apply (collapse_space c text). now apply Hu.
Qed.

(** X13: the extractor increments [fallback_used] exactly when its
    content is built from the paragraphs, by one, and leaves the other
    counters and the selector table alone; a content that comes from a
    selector has more than 200 characters. *)
Theorem fallback_counter_exact self (soup : node) (url : str) :
  let '(self', soup', content) := _extract_main_content self soup url in
  let tried := try_selectors soup (chosen_selectors self url) in
  soup' = fst tried /\
  content_selectors self' = content_selectors self /\
  total_attempts (stats self') = total_attempts (stats self) /\
  successful_crawls (stats self') = successful_crawls (stats self) /\
  failed_crawls (stats self') = failed_crawls (stats self) /\
  (snd tried = None /\ find_all (py "p") soup' <> [] ->
   fallback_used (stats self') = fallback_used (stats self) + 1) /\
  (snd tried <> None \/ find_all (py "p") soup' = [] ->
   fallback_used (stats self') = fallback_used (stats self)) /\
  (snd tried <> None -> 200 < length content).
Proof.
  unfold _extract_main_content.
  destruct (try_selectors soup (chosen_selectors self url))
    as [soup' [content|]] eqn:Hrun; cbn [fst snd].
  - repeat split; try reflexivity.
    + intros [Hnone _]. discriminate Hnone.
    + intros _.
      destruct (try_selectors_hit _ _ _ _ Hrun)
        as (pre & s & post & soup1 & el & _ & _ & _ & _ & Hlong).
      exact Hlong.
  - destruct (find_all (py "p") soup') as [|p ps] eqn:Hp.
    + destruct (find (py "body") soup');
        repeat split; try reflexivity; try tauto;
        intros [_ Hne]; contradiction.
    + repeat split; try reflexivity.
      * intros [Hne|Hnil]; [contradiction|].
        rewrite Hp in Hnil. discriminate Hnil.
      * intros Hne. contradiction.
Qed.

End NormaliserMore.

Lemma clean_text_shrinks_witness :
  length (@_clean_text plain_lib (Some (py "  Breaking   news "))) <= 18.
Proof.
  apply (@clean_text_shrinks plain_lib (py "  Breaking   news ")).
  - intros s _. reflexivity.
  - vm_compute. intuition discriminate.
Defined.

Lemma clean_text_idempotent_witness :
  @_clean_text plain_lib
     (Some (@_clean_text plain_lib (Some (py "  Breaking   news "))))
  = @_clean_text plain_lib (Some (py "  Breaking   news ")).
Proof.
  apply (proj1 (@clean_text_idempotent plain_lib (py "  Breaking   news "))).
  - intros s _. reflexivity.
  - vm_compute. intuition discriminate.
  - intros c Hc. vm_compute in Hc.
    repeat (destruct Hc as [<-|Hc]; [reflexivity|]). destruct Hc.
Defined.

Lemma fallback_counter_exact_witness :
  fallback_used
    (stats (fst (fst (@_extract_main_content plain_lib new_crawler
                        (soup_of [tag "body" []
                                    [tag "p" [] [NavigableString Plain (py "one")]]])
                        sample_url)))) = 1.
Proof.
  pose proof (@fallback_counter_exact plain_lib new_crawler
                (soup_of [tag "body" []
                            [tag "p" [] [NavigableString Plain (py "one")]]])
                sample_url) as H.
  destruct (@_extract_main_content plain_lib new_crawler _ sample_url)
    as [[self' soup'] content] eqn:Hx.
  destruct H as (Hsoup & _ & _ & _ & _ & Hfb & _).
  cbn [fst]. rewrite Hfb; [reflexivity|].
  rewrite Hsoup. vm_compute. split; [reflexivity|discriminate].
Defined.

(** * Further properties of the summary and of the collector *)

Lemma StronglySorted_weaken_in {A : Type} (R R' : A -> A -> Prop) l :
  (forall x y, In x l -> In y l -> R x y -> R' x y) ->
  StronglySorted R l -> StronglySorted R' l.
Proof.
  intros Himp Hs. induction Hs as [|x l Hs IH Hx]; constructor.
  - apply IH. intros a b Ha Hb. apply Himp; now right.
  - rewrite List.Forall_forall in Hx |- *. intros y Hy.
    apply Himp; [now left|now right|now apply Hx].
Qed.

Lemma combine_seq_sorted {A : Type} (l : list A) : forall i,
  StronglySorted (fun x y : nat * A => fst x < fst y)
                 (combine (seq i (length l)) l).
Proof.
  induction l as [|a rest IH]; intros i; simpl; constructor; [apply IH|].
  rewrite List.Forall_forall. intros [j b] Hin. simpl.
  apply in_combine_l, in_seq in Hin. lia.
Qed.

Section SummaryMore.
Context `{L : PyLib} `{Cfg : Config}.

(** X14: the rows of the summary are the articles in the stable
    descending order of their published time: tagged with their places
    in the input, the articles of the rows stand so that an earlier row
    has a later time, or the same time and an earlier place in the
    input. *)
Theorem summary_sort_stable (now : nat -> Z) (articles : list article) :
  Forall (fun a => published a <> None) articles ->
  let tagged := sorted_with_position now articles in
  Permutation tagged (combine (seq 0 (length articles)) articles) /\
  sort_by_published now articles = List.map snd tagged /\
  List.map ad_title (sd_articles (create_simple_summary now articles))
  = List.map (fun ia => title_of (snd ia)) tagged /\
  StronglySorted
    (fun x y : nat * article =>
       (published_at (snd y) < published_at (snd x))%Z
       \/ (published_at (snd x) = published_at (snd y) /\ fst x < fst y))
    tagged.
Proof.
  intros Hwf tagged. subst tagged. unfold sorted_with_position.
  set (key := fun ia : nat * article => published_or (now (fst ia)) (snd ia)).
  set (input := combine (seq 0 (length articles)) articles).
  assert (Hperm : Permutation input (sorted_reverse key input))
    by apply sorted_reverse_perm.
  split; [now symmetry|]. split; [reflexivity|]. split.
  - rewrite (summary_field ad_title title_of) by reflexivity.
    unfold sort_by_published. fold key input. now rewrite map_map.
  - eapply StronglySorted_weaken_in;
      [|apply (sorted_reverse_sorted key (fun x y => fst x < fst y)),
          combine_seq_sorted].
    assert (Hkey : forall x, In x (sorted_reverse key input) ->
                             key x = published_at (snd x)).
    { intros [i a] Hin. apply (Permutation_in _ (Permutation_sym Hperm)) in Hin.
      apply in_combine_r in Hin. rewrite List.Forall_forall in Hwf.
      specialize (Hwf a Hin). unfold key, published_or, published_at. simpl.
      destruct (published a); [reflexivity|contradiction]. }
    intros x y Hx Hy. unfold desc_then.
    now rewrite (Hkey x Hx), (Hkey y Hy).
Qed.

Lemma summary_rows now articles :
  Forall2 (fun a d =>
             exists i, d = make_article_data now (length articles) i a)
          (sort_by_published now articles)
          (sd_articles (create_simple_summary now articles)).
Proof.
  rewrite summary_articles.
  generalize (sort_by_published now articles) as sorted.
  generalize 1 as i. intros i sorted. revert i.
  induction sorted as [|a rest IH]; intros i; simpl; constructor.
  - now exists i.
  - apply IH.
Qed.

(** X15: every row of the summary shows the full length of the
    article's content and, as content, "No Content" when the article has
    none or an empty one, and otherwise the first 500 characters followed
    by three dots, also when the content is shorter; the shown content
    never has more than 503 characters. *)
Theorem summary_content_preview (now : nat -> Z) (articles : list article) :
  Forall2 (fun a d =>
             ad_content_length d = length (content_of a) /\
             length (ad_content d) <= 503 /\
             (content_of a = [] -> ad_content d = py "No Content") /\
             (content_of a <> [] ->
              ad_content d = firstn 500 (content_of a) ++ py "..."))
          (sort_by_published now articles)
          (sd_articles (create_simple_summary now articles)).
Proof.
  eapply Forall2_impl; [apply summary_rows|].
  intros a d [i ->]. unfold content_of, make_article_data.
  cbn [ad_content_length ad_content].
  destruct (content a) as [[|c rest]|]; cbn [default].
  - split; [reflexivity|]. split; [vm_compute; lia|].
    split; [reflexivity|]. intros Hne. contradiction.
  - split; [reflexivity|]. split.
    + rewrite length_app, length_firstn.
      change (length (py "...")) with 3. lia.
    + split; [intros Hnil; discriminate Hnil|reflexivity].
  - split; [reflexivity|]. split; [vm_compute; lia|].
    split; [reflexivity|]. intros Hne. contradiction.
Qed.

Lemma summary_sources now articles :
  sd_sources (create_simple_summary now articles)
  = elements (list_to_set
                (List.map source_of (sort_by_published now articles))
              : gset str).
Proof.
  change (sd_sources (create_simple_summary now articles))
    with (elements (list_to_set
            (List.map ad_source
               (sd_articles (create_simple_summary now articles)))
          : gset str)).
  now rewrite (summary_field ad_source source_of) by reflexivity.
Qed.

(** X16: the sources of the summary are the sources of the articles,
    "Unknown Source" standing for an article without one, each listed
    once; [total_sources] is their number, which is at most the number
    of articles. *)
Theorem summary_sources_distinct (now : nat -> Z) (articles : list article) :
  let s := create_simple_summary now articles in
  List.NoDup (sd_sources s) /\
  (forall src, In src (sd_sources s) <->
               exists a, In a articles /\ source_of a = src) /\
  total_sources (sd_stats s) = length (sd_sources s) /\
  total_sources (sd_stats s) <= total_articles s.
Proof.
  intros s. subst s.
  assert (Hin : forall src,
             In src (sd_sources (create_simple_summary now articles)) <->
             exists a, In a articles /\ source_of a = src).
  { intros src. rewrite summary_sources, <- list_elem_of_In,
      elem_of_elements, elem_of_list_to_set, list_elem_of_In, in_map_iff.
    split; intros (a & Ha & Hsrc).
    - exists a. split; [|exact Ha].
      eapply Permutation_in;
        [symmetry; apply (sort_by_published_perm now)|exact Hsrc].
    - exists a. split; [exact Hsrc|].
      eapply Permutation_in; [apply (sort_by_published_perm now)|exact Ha]. }
  split; [|split; [exact Hin|split; [reflexivity|]]].
  - rewrite summary_sources. apply NoDup_ListNoDup, NoDup_elements.
  - change (total_articles (create_simple_summary now articles))
      with (length articles).
    change (total_sources (sd_stats (create_simple_summary now articles)))
      with (length (sd_sources (create_simple_summary now articles))).
    rewrite summary_sources, distinct_count.
    rewrite (Permutation_length (sort_by_published_perm now articles)).
    rewrite <- (length_map source_of (sort_by_published now articles)).
    apply NoDup_incl_length; [apply NoDup_nodup|].
    intros x Hx. now apply nodup_In in Hx.
Qed.

(** X17: the keywords the summary reports as found are the search
    keywords whose lower-cased form occurs in the lower-cased title,
    space, content of at least one article, each listed once, and
    [keywords_found_count] is their number. *)
Theorem summary_keywords_found (now : nat -> Z) (articles : list article) :
  let s := create_simple_summary now articles in
  List.NoDup (sd_keywords_found s) /\
  (forall k, In k (sd_keywords_found s) <->
             In k get_search_keywords /\
             exists a, In a articles /\
                       contains (text_to_check a) (lower k) = true) /\
  keywords_found_count (sd_stats s) = length (sd_keywords_found s).
Proof.
  intros s. subst s. split; [|split; [|reflexivity]].
  - change (sd_keywords_found (create_simple_summary now articles))
      with (elements
              (⋃ (List.map
                    (fun r : article_data * article =>
                       keywords_in (fst r) (snd r))
                    (List.map
                       (fun ia => (make_article_data now (length articles)
                                      (fst ia) (snd ia), snd ia))
                       (enumerate 1 (sort_by_published now articles))))
               : gset str)).
    apply NoDup_ListNoDup, NoDup_elements.
  - intros k.
    change (sd_keywords_found (create_simple_summary now articles))
      with (elements
              (⋃ (List.map
                    (fun r : article_data * article =>
                       keywords_in (fst r) (snd r))
                    (List.map
                       (fun ia => (make_article_data now (length articles)
                                      (fst ia) (snd ia), snd ia))
                       (enumerate 1 (sort_by_published now articles))))
               : gset str)).
    rewrite <- list_elem_of_In, elem_of_elements, elem_of_union_list.
    rewrite map_map. cbn [fst snd].
    assert (Hrow : forall ia : nat * article,
               k ∈ keywords_in (make_article_data now (length articles)
                                   (fst ia) (snd ia)) (snd ia) <->
               In k get_search_keywords /\
               contains (text_to_check (snd ia)) (lower k) = true).
    { intros ia. unfold keywords_in.
      rewrite elem_of_list_to_set, list_elem_of_In, filter_In.
      reflexivity. }
    split.
    + intros (X & HX & Hk). apply list_elem_of_In, in_map_iff in HX
        as (ia & <- & Hia).
      apply Hrow in Hk as [Hkw Hocc]. split; [exact Hkw|].
      exists (snd ia). split; [|exact Hocc].
      eapply Permutation_in;
        [symmetry; apply (sort_by_published_perm now)|].
      rewrite <- (enumerate_map_snd (sort_by_published now articles) 1).
      now apply in_map.
    + intros (Hkw & a & Ha & Hocc).
      apply (Permutation_in _ (sort_by_published_perm now articles)) in Ha.
      rewrite <- (enumerate_map_snd (sort_by_published now articles) 1) in Ha.
      apply in_map_iff in Ha as (ia & <- & Hia).
      eexists. split.
      * apply list_elem_of_In, in_map_iff. exists ia. split; [reflexivity|].
        exact Hia.
      * apply Hrow. now split.
Qed.

End SummaryMore.

Lemma summary_sort_stable_witness :
  let articles := sample_articles ++ [dated "same" "Weekly" 200 "x"] in
  List.map fst (sorted_with_position (fun _ => 0%Z) articles) = [1; 2; 0] /\
  List.map ad_title
    (sd_articles (@create_simple_summary plain_lib (fun _ => 0%Z)
                    sample_config articles))
  = [py "newer"; py "same"; py "older"].
Proof.
  intros articles. split; [reflexivity|].
  destruct (@summary_sort_stable plain_lib sample_config (fun _ => 0%Z)
              articles) as (_ & _ & Htitles & _).
  - repeat constructor; discriminate.
  - rewrite Htitles. reflexivity.
Defined.

(** ** Recent articles *)

Lemma recent_loop_dated cutoff articles : forall recent,
  Forall (fun a => published a <> None) articles ->
  recent_loop cutoff articles recent
  = Ok (recent
          ++ List.filter (fun a => (cutoff <=? published_at a)%Z) articles).
Proof.
  induction articles as [|a rest IH]; intros recent Hwf; simpl.
  - now rewrite app_nil_r.
  - apply Forall_cons_iff in Hwf as [Ha Hrest].
    unfold published_at at 1.
    destruct (published a) as [p|]; [|contradiction]. simpl.
    rewrite IH by exact Hrest.
    destruct (cutoff <=? p)%Z; [now rewrite <- app_assoc|reflexivity].
Qed.

Lemma recent_loop_undated cutoff articles : forall recent,
  Exists (fun a => published a = None) articles ->
  recent_loop cutoff articles recent = Raise (KeyError "published").
Proof.
  induction articles as [|a rest IH]; intros recent Hex;
    [inversion Hex|].
  simpl. destruct (published a) as [p|] eqn:Hp; [|reflexivity].
  simpl. apply IH. inversion Hex as [? ? Hnone|? ? Hrest]; subst;
    [congruence|exact Hrest].
Qed.

(** X18: for articles that all have a published time,
    [filter_recent_articles] returns at most [max_articles] articles, all
    of them input articles published at or after the cut-off, in
    descending order of time, and they are the latest ones: every other
    article that is recent enough is no later than each returned one; an
    article without a published time makes the function raise
    [KeyError]. *)
Theorem recent_articles_newest (self : GoogleNewsCollector)
  (datetime_now : Z) (timedelta : Z -> Z) (articles : list article)
  (hours : Z) :
  let cutoff := (datetime_now - timedelta hours)%Z in
  let recent := List.filter (fun a => (cutoff <=? published_at a)%Z) articles in
  (Forall (fun a => published a <> None) articles ->
   exists out rest,
     filter_recent_articles self datetime_now timedelta articles hours
     = Ok out /\
     length out = Nat.min (max_articles self) (length recent) /\
     Permutation (out ++ rest) recent /\
     StronglySorted
       (fun a b => (published_at b <= published_at a)%Z) out /\
     (forall a, In a out ->
        In a articles /\ (cutoff <= published_at a)%Z) /\
     (forall a b, In a out -> In b rest ->
        (published_at b <= published_at a)%Z)) /\
  (Exists (fun a => published a = None) articles ->
   filter_recent_articles self datetime_now timedelta articles hours
   = Raise (KeyError "published")).
Proof.
  intros cutoff recent. split.
  - intros Hwf. unfold filter_recent_articles. fold cutoff.
    rewrite (recent_loop_dated cutoff articles [] Hwf). cbn [app]. fold recent.
    set (sorted := sorted_reverse published_at recent).
    assert (Hperm : Permutation recent sorted) by apply sorted_reverse_perm.
    assert (Hsorted : StronglySorted
              (fun a b => (published_at b <= published_at a)%Z) sorted)
      by apply sorted_reverse_descending.
    exists (firstn (max_articles self) sorted),
           (skipn (max_articles self) sorted).
    split; [reflexivity|]. split; [|split; [|split; [|split]]].
    + rewrite length_firstn. unfold sorted.
      now rewrite sorted_reverse_length.
    + rewrite firstn_skipn. now symmetry.
    + now apply StronglySorted_firstn.
    + intros a Ha. apply firstn_In in Ha.
      apply (Permutation_in _ (Permutation_sym Hperm)) in Ha.
      apply filter_In in Ha as [Ha Hc]. split; [exact Ha|lia].
    + intros a b Ha Hb.
      destruct (in_split _ _ Ha) as (t1 & t2 & Ht).
      destruct (in_split _ _ Hb) as (t3 & t4 & Hs).
      apply (StronglySorted_split _ sorted t1 a (t2 ++ t3) b t4 Hsorted).
      rewrite <- (firstn_skipn (max_articles self) sorted), Ht, Hs.
      now rewrite <- !app_assoc.
  - intros Hex. unfold filter_recent_articles. fold cutoff.
    now rewrite (recent_loop_undated cutoff articles [] Hex).
Qed.

Lemma recent_articles_newest_witness :
  filter_recent_articles {| max_articles := 1 |} 250 (fun h => h * 10)%Z
                         sample_articles 10
  = Ok [dated "newer" "Daily" 200 "abcd"].
Proof.
  destruct (recent_articles_newest {| max_articles := 1 |} 250
              (fun h => h * 10)%Z sample_articles 10) as [Hdated _].
  destruct Hdated as (out & rest & Hrun & _).
  - repeat constructor; discriminate.
  - rewrite Hrun. vm_compute in Hrun. symmetry. exact Hrun.
Defined.

(** ** The summaries of [ai_summarizer.py] *)

Section Summaries.
Context `{PyLib} `{Config} `{Service}.

Lemma fallback_summary_length (a : article) :
  length (firstn 150 (default [] (summary a)) ++ py "...") <= 200.
Proof.
  rewrite length_app, length_firstn. change (length (py "...")) with 3. lia.
Qed.

Lemma ai_summary_length (self : AISummarizer) (a : article) :
  length (_generate_ai_summary self a) <= 200.
Proof.
  unfold _generate_ai_summary, request_summary.
  destruct (title a) as [t|]; cbn [getitem mbind result_bind].
  - destruct (chat_completions_create _) as [answer|e];
      cbn [mbind result_bind].
    + rewrite length_firstn. lia.
    + apply fallback_summary_length.
  - apply fallback_summary_length.
Qed.

Lemma extract_keywords_In (a : article) (s : str) (keywords : list str) k :
  _extract_keywords a s = Ok keywords -> In k keywords ->
  In k AI_KEYWORDS /\
  exists t, title a = Some t /\
            contains (lower (t ++ [SPACE] ++ s)) (lower k) = true.
Proof.
  unfold _extract_keywords, tagged_text.
  destruct (title a) as [t|]; cbn [getitem]; [|intros Heq; discriminate Heq].
  intros Heq Hin. injection Heq as <-.
  apply firstn_In, filter_In in Hin as [Hk Hocc].
  split; [exact Hk|]. now exists t.
Qed.

Lemma extract_keywords_length (a : article) (s : str) (keywords : list str) :
  _extract_keywords a s = Ok keywords -> length keywords <= 5.
Proof.
  unfold _extract_keywords. destruct (tagged_text a s) as [text|e];
    [|intros Heq; discriminate Heq].
  intros Heq. injection Heq as <-. rewrite length_firstn. lia.
Qed.

Lemma categorize_total (a : article) (s : str) t table :
  title a = Some t -> CATEGORY_KEYWORDS = Some table ->
  exists category, _categorize_article a s = Ok category.
Proof.
  intros Ht Htable. unfold _categorize_article, tagged_text.
  rewrite Ht, Htable. cbn [getitem getattr mbind result_bind].
  destruct (List.find _ table) as [[category kws]|]; eexists; reflexivity.
Qed.

Lemma categorize_undeclared (a : article) (s : str) t :
  title a = Some t -> CATEGORY_KEYWORDS = None ->
  _categorize_article a s = Raise (AttributeError "CATEGORY_KEYWORDS").
Proof.
  intros Ht Hnone. unfold _categorize_article, tagged_text.
  rewrite Ht, Hnone. reflexivity.
Qed.

Lemma extract_keywords_total (a : article) (s : str) t :
  title a = Some t -> exists keywords, _extract_keywords a s = Ok keywords.
Proof.
  intros Ht. unfold _extract_keywords, tagged_text. rewrite Ht.
  cbn [getitem]. eexists; reflexivity.
Qed.

Lemma summarize_one_keyed (self : AISummarizer) (a : article) t u table :
  title a = Some t -> url a = Some u -> CATEGORY_KEYWORDS = Some table ->
  exists e, summarize_one self a = Ok (e, sa_keywords e) /\
            summarized_from self a e.
Proof.
  intros Ht Hu Htable.
  destruct (extract_keywords_total a (_generate_ai_summary self a) t Ht)
    as [keywords Hk].
  destruct (categorize_total a (_generate_ai_summary self a) t table
              Ht Htable) as [category Hc].
  exists {| sa_title := t;
            sa_summary := _generate_ai_summary self a;
            sa_url := u;
            sa_published := _format_published_date (published a);
            sa_source := default (py "Unknown") (source a);
            sa_keywords := keywords;
            sa_category := category |}.
  split.
  - unfold summarize_one. rewrite Ht, Hu, Hk, Hc. reflexivity.
  - unfold summarized_from.
    cbn [sa_title sa_summary sa_url sa_published sa_source sa_keywords
         sa_category].
    repeat (split; [assumption || reflexivity|]). reflexivity.
Qed.

Lemma summarize_one_undeclared (self : AISummarizer) (a : article) t u :
  title a = Some t -> url a = Some u -> CATEGORY_KEYWORDS = None ->
  summarize_one self a = Raise (AttributeError "CATEGORY_KEYWORDS") /\
  exists e, summarize_fallback a = Ok e /\ summarized_by_handler a e.
Proof.
  intros Ht Hu Hnone. split.
  - destruct (extract_keywords_total a (_generate_ai_summary self a) t Ht)
      as [keywords Hk].
    unfold summarize_one.
    rewrite Ht, Hu, Hk,
      (categorize_undeclared a (_generate_ai_summary self a) t Ht Hnone).
    reflexivity.
  - unfold summarize_fallback. rewrite Ht, Hu.
    cbn [getitem mbind result_bind]. eexists. split; [reflexivity|].
    unfold summarized_by_handler.
    cbn [sa_title sa_summary sa_url sa_published sa_source sa_keywords
         sa_category].
    repeat (split; [assumption || reflexivity|]). reflexivity.
Qed.

(** One pass of the loop for an article with a title and a url. *)
Lemma summarize_step_keyed (self : AISummarizer) (a : article)
  (rest : list article) acc kws :
  title a <> None -> url a <> None ->
  exists e,
    summarize_loop self (a :: rest) acc kws
    = summarize_loop self rest (acc ++ [e]) (kws ++ sa_keywords e) /\
    entry_of self a e.
Proof.
  intros Ht Hu.
  destruct (title a) as [t|] eqn:Et; [|contradiction].
  destruct (url a) as [u|] eqn:Eu; [|contradiction].
  unfold entry_of. cbn [summarize_loop].
  destruct CATEGORY_KEYWORDS as [table|] eqn:Htable.
  - destruct (summarize_one_keyed self a t u table Et Eu Htable)
      as (e & He & Hfrom).
    exists e. rewrite He. now split.
  - destruct (summarize_one_undeclared self a t u Et Eu Htable)
      as (Hone & e & He & Hfrom).
    exists e. rewrite Hone, He.
    pose proof Hfrom as (_ & _ & _ & Hkw & _).
    rewrite Hkw, app_nil_r. split; [reflexivity|exact Hfrom].
Qed.

Lemma summarize_loop_keyed (self : AISummarizer) (articles : list article) :
  Forall (fun a => title a <> None /\ url a <> None) articles ->
  forall acc kws,
  exists entries,
    summarize_loop self articles acc kws
    = Ok (acc ++ entries, kws ++ concat (List.map sa_keywords entries)) /\
    Forall2 (entry_of self) articles entries.
Proof.
  induction 1 as [|a rest [Ht Hu] _ IH]; intros acc kws.
  - exists []. cbn. rewrite !app_nil_r. split; [reflexivity|constructor].
  - destruct (summarize_step_keyed self a rest acc kws Ht Hu)
      as (e & Hstep & Hfrom).
    destruct (IH (acc ++ [e]) (kws ++ sa_keywords e))
      as (entries & Hloop & Hall).
    exists (e :: entries). rewrite Hstep, Hloop.
    split; [|now constructor].
    cbn [List.map concat]. now rewrite <- !app_assoc.
Qed.

Lemma summarize_loop_missing_key (self : AISummarizer)
  (before after : list article) (a : article) :
  Forall (fun a => title a <> None /\ url a <> None) before ->
  title a = None \/ url a = None ->
  forall acc kws,
    summarize_loop self (before ++ a :: after) acc kws
    = Raise (KeyError match title a with
                      | None => "title"
                      | Some _ => "url"
                      end).
Proof.
  intros Hkeyed Hmiss.
  induction Hkeyed as [|b rest [Ht Hu] _ IH]; intros acc kws.
  - cbn [app summarize_loop].
    unfold summarize_one, summarize_fallback.
    destruct (title a) as [t|] eqn:Et.
    + destruct Hmiss as [Hmiss|Hmiss]; [discriminate Hmiss|].
      destruct (extract_keywords_total a (_generate_ai_summary self a) t Et)
        as [keywords Hk].
      rewrite Hmiss, Hk. reflexivity.
    + reflexivity.
  - destruct (summarize_step_keyed self b (rest ++ a :: after) acc kws Ht Hu)
      as (e & Hstep & _).
    cbn [app]. rewrite Hstep. apply IH.
Qed.

Lemma generate_summary_keyed (self : AISummarizer) (now : Z)
  (articles : list article) :
  articles <> [] ->
  Forall (fun a => title a <> None /\ url a <> None) articles ->
  exists entries,
    Forall2 (entry_of self) articles entries /\
    generate_summary self now articles
    = Ok {| res_articles := entries;
            top_keywords :=
              _get_top_keywords (concat (List.map sa_keywords entries));
            res_summary := _generate_overall_summary self entries;
            total_count := Some (length entries);
            generation_time := Some (strftime now) |}.
Proof.
  intros Hne Hkeyed.
  destruct (summarize_loop_keyed self articles Hkeyed [] [])
    as (entries & Hloop & Hall).
  exists entries. split; [exact Hall|].
  unfold generate_summary. destruct articles as [|a rest]; [contradiction|].
  rewrite Hloop. reflexivity.
Qed.

Lemma entry_keywords (self : AISummarizer) (a : article) e k :
  entry_of self a e -> In k (sa_keywords e) ->
  In k AI_KEYWORDS /\
  exists t, title a = Some t /\
            contains (lower (t ++ [SPACE] ++ _generate_ai_summary self a))
                     (lower k) = true.
Proof.
  unfold entry_of. destruct CATEGORY_KEYWORDS as [table|].
  - intros (_ & _ & Hs & Hkw & _) Hk.
    destruct (extract_keywords_In _ _ _ k Hkw Hk) as (Hai & t & Ht & Hocc).
    split; [exact Hai|]. exists t. split; [exact Ht|]. now rewrite <- Hs.
  - intros (_ & _ & _ & Hkw & _) Hk. rewrite Hkw in Hk. destruct Hk.
Qed.

Lemma entry_keywords_length (self : AISummarizer) (a : article) e :
  entry_of self a e -> length (sa_keywords e) <= 5.
Proof.
  unfold entry_of. destruct CATEGORY_KEYWORDS as [table|].
  - intros (_ & _ & _ & Hkw & _). eapply extract_keywords_length, Hkw.
  - intros (_ & _ & _ & -> & _). simpl. lia.
Qed.

Lemma top_keywords_nonempty (l : list str) : _get_top_keywords l <> [].
Proof.
  destruct l as [|k rest]; [intros Heq; discriminate Heq|].
  rewrite top_keywords_unfold. intros Heq.
  apply (f_equal (@length str)) in Heq.
  rewrite length_map, length_firstn, sorted_reverse_length in Heq.
  assert (Hk : In k (List.map fst (Counter (k :: rest))))
    by (apply Counter_keys_In; now left).
  destruct (Counter (k :: rest)); [contradiction|].
  cbn in Heq. lia.
Qed.

Lemma top_keywords_length (l : list str) : length (_get_top_keywords l) <= 10.
Proof.
  destruct l as [|k rest]; [vm_compute; lia|].
  rewrite top_keywords_unfold, length_map, length_firstn. lia.
Qed.

Lemma top_keywords_In (l : list str) k :
  l <> [] -> In k (_get_top_keywords l) -> In k l.
Proof.
  destruct l as [|k0 rest]; [contradiction|]. intros _.
  rewrite top_keywords_unfold, in_map_iff.
  intros ([k' n] & <- & Hin). apply firstn_In, ranking_In in Hin as [_ Hin].
  exact Hin.
Qed.

Lemma concat_nil_Forall {A : Type} (ls : list (list A)) :
  concat ls = [] -> Forall (fun l => l = []) ls.
Proof.
  induction ls as [|l rest IH]; cbn; [constructor|].
  intros Heq. apply app_eq_nil in Heq as [-> Hrest].
  constructor; [reflexivity|now apply IH].
Qed.

(** X19: the summary of one article never has more than 200 characters,
    whatever the chat service answers; when the service raises or the
    article has no title, it is the first 150 characters of the feed
    summary (the empty text for an article without one) followed by
    three dots, and nothing is raised. *)
Theorem ai_summary_bounded (self : AISummarizer) (a : article) :
  length (_generate_ai_summary self a) <= 200 /\
  ((title a = None \/
    forall request, exists e, chat_completions_create request = Raise e) ->
   _generate_ai_summary self a
   = firstn 150 (default [] (summary a)) ++ py "...").
Proof.
  split; [apply ai_summary_length|].
  unfold _generate_ai_summary, request_summary.
  intros [Ht|Hdown].
  - rewrite Ht. reflexivity.
  - destruct (title a) as [t|]; cbn [getitem mbind result_bind];
      [|reflexivity].
    match goal with
    | |- context [chat_completions_create ?r] =>
      destruct (Hdown r) as [e ->]
    end.
    reflexivity.
Qed.

(** X20: for a non-empty batch in which every article has a title and a
    url, [generate_summary] returns one entry per article, in the order
    of the batch, each with the article's title and url and with at most
    five keywords; [total_count] is the number of articles, and the top
    keywords are those of the entries' keywords taken together in order.
    When the configuration declares the category table, each entry
    carries the summary of [_generate_ai_summary], of at most 200
    characters, and the keywords and the category computed from that
    summary. When it declares none, as [config.py] does, the lookup of
    the table fails for every article and the handler makes every entry:
    the first 200 characters of the feed summary followed by three dots,
    no keywords and the category "AI 뉴스"; the top keywords are then
    the five default keywords. *)
Theorem generate_summary_entries (self : AISummarizer) (now : Z)
  (articles : list article) :
  articles <> [] ->
  Forall (fun a => title a <> None /\ url a <> None) articles ->
  exists res,
    generate_summary self now articles = Ok res /\
    total_count res = Some (length articles) /\
    top_keywords res
    = _get_top_keywords (concat (List.map sa_keywords (res_articles res))) /\
    Forall2 (fun a e => title a = Some (sa_title e) /\
                        url a = Some (sa_url e) /\
                        length (sa_keywords e) <= 5)
            articles (res_articles res) /\
    (CATEGORY_KEYWORDS <> None ->
     Forall2 (summarized_from self) articles (res_articles res) /\
     Forall (fun e => length (sa_summary e) <= 200) (res_articles res)) /\
    (CATEGORY_KEYWORDS = None ->
     Forall2 summarized_by_handler articles (res_articles res) /\
     Forall (fun e => length (sa_summary e) <= 203) (res_articles res) /\
     top_keywords res = default_keywords).
Proof.
  intros Hne Hkeyed.
  destruct (generate_summary_keyed self now articles Hne Hkeyed)
    as (entries & Hall & ->).
  eexists. split; [reflexivity|].
  cbn [res_articles total_count top_keywords].
  split; [f_equal; symmetry; eapply Forall2_length, Hall|].
  split; [reflexivity|]. split; [|split].
  - eapply Forall2_impl; [exact Hall|]. intros a e He.
    split; [|split; [|eapply entry_keywords_length, He]];
      unfold entry_of in He; destruct CATEGORY_KEYWORDS;
      destruct He as (Ht & Hu & _); assumption.
  - intros Hsome. unfold entry_of in Hall.
    destruct CATEGORY_KEYWORDS as [table|]; [|contradiction].
    split; [exact Hall|].
    clear Hne Hkeyed Hsome.
    induction Hall as [|a e rest entries Hfrom _ IH];
      constructor; [|exact IH].
    destruct Hfrom as (_ & _ & -> & _). apply ai_summary_length.
  - intros Hnone. unfold entry_of in Hall. rewrite Hnone in Hall.
    split; [exact Hall|].
    assert (Hkw : Forall (fun e => sa_keywords e = []) entries).
    { clear Hne Hkeyed. induction Hall as [|a e rest entries Hfrom _ IH];
        constructor; [|exact IH].
      now destruct Hfrom as (_ & _ & _ & Hk & _). }
    split.
    + clear Hne Hkeyed Hkw.
      induction Hall as [|a e rest entries Hfrom _ IH];
        constructor; [|exact IH].
      destruct Hfrom as (_ & _ & -> & _).
      rewrite length_app, length_firstn.
      change (length (py "...")) with 3. lia.
    + replace (concat (List.map sa_keywords entries)) with (@nil str);
        [reflexivity|].
      clear Hall Hne Hkeyed. induction Hkw as [|e entries He _ IH];
        [reflexivity|].
      cbn [List.map concat]. now rewrite He, <- IH.
Qed.

(** X21: when an article of the batch has no title or no url and all the
    articles before it have both, [generate_summary] raises [KeyError]
    for the missing key (['title'] when the title is missing, ['url']
    otherwise): the handler that is to add the article with its basic
    fields reads the same key again, so neither that article nor the rest
    of the batch is summarised. *)
Theorem generate_summary_missing_key (self : AISummarizer) (now : Z)
  (before after : list article) (a : article) :
  Forall (fun a => title a <> None /\ url a <> None) before ->
  title a = None \/ url a = None ->
  generate_summary self now (before ++ a :: after)
  = Raise (KeyError match title a with
                    | None => "title"
                    | Some _ => "url"
                    end).
Proof.
  intros Hkeyed Hmiss. unfold generate_summary.
  destruct (before ++ a :: after) as [|b rest] eqn:Hlist.
  - now destruct before.
  - rewrite <- Hlist.
    rewrite (summarize_loop_missing_key self before after a Hkeyed Hmiss).
    reflexivity.
Qed.

(** X22: for a non-empty batch in which every article has a title and a
    url, the top keywords of the result are never empty and at most ten;
    when no entry has a keyword they are the five default keywords, and
    otherwise each of them is a configured AI keyword whose lower-cased
    form occurs in the lower-cased title, space, summary of an article of
    the batch. *)
Theorem summary_top_keywords (self : AISummarizer) (now : Z)
  (articles : list article) :
  articles <> [] ->
  Forall (fun a => title a <> None /\ url a <> None) articles ->
  exists res,
    generate_summary self now articles = Ok res /\
    top_keywords res <> [] /\
    length (top_keywords res) <= 10 /\
    ((Forall (fun e => sa_keywords e = []) (res_articles res) /\
      top_keywords res = default_keywords) \/
     (Exists (fun e => sa_keywords e <> []) (res_articles res) /\
      forall k, In k (top_keywords res) ->
        In k AI_KEYWORDS /\
        exists a t, In a articles /\ title a = Some t /\
          contains (lower (t ++ [SPACE] ++ _generate_ai_summary self a))
                   (lower k) = true)).
Proof.
  intros Hne Hkeyed.
  destruct (generate_summary_keyed self now articles Hne Hkeyed)
    as (entries & Hall & ->).
  eexists. split; [reflexivity|]. cbn [top_keywords res_articles].
  split; [apply top_keywords_nonempty|].
  split; [apply top_keywords_length|].
  destruct (concat (List.map sa_keywords entries)) as [|k0 found] eqn:Hfound.
  - left. split; [|reflexivity].
    apply concat_nil_Forall in Hfound.
    rewrite List.Forall_forall in Hfound. apply List.Forall_forall.
    intros e He. apply Hfound, in_map, He.
  - right. split.
    + assert (Hk0 : In k0 (concat (List.map sa_keywords entries)))
        by (rewrite Hfound; now left).
      apply in_concat in Hk0 as (l & Hl & Hk0).
      apply in_map_iff in Hl as (e & <- & He).
      apply List.Exists_exists. exists e. split; [exact He|].
      intros Hnil. rewrite Hnil in Hk0. contradiction.
    + intros k Hk. rewrite <- Hfound in Hk.
      apply top_keywords_In in Hk;
        [|rewrite Hfound; intros Heq; discriminate Heq].
      apply in_concat in Hk as (l & Hl & Hk).
      apply in_map_iff in Hl as (e & <- & He).
      clear Hfound Hne Hkeyed.
      induction Hall as [|a e' rest entries Hfrom _ IH];
        [contradiction|].
      destruct He as [<-|He].
      * destruct (entry_keywords self a e' k Hfrom Hk)
          as (Hai & t & Ht & Hocc).
        split; [exact Hai|]. exists a, t.
        split; [now left|]. now split.
      * destruct (IH He) as (Hai & a' & t & Ha' & Ht & Hocc).
        split; [exact Hai|]. exists a', t.
        split; [now right|]. now split.
Qed.

End Summaries.

(** With the chat service down, the summary of a stub is its feed
    summary followed by three dots. *)
Lemma ai_summary_bounded_witness :
  length (@_generate_ai_summary service_down sample_summarizer
            (stub "OpenAI news" "https://example.com/a" "A feed summary"))
  <= 200 /\
  @_generate_ai_summary service_down sample_summarizer
    (stub "OpenAI news" "https://example.com/a" "A feed summary")
  = py "A feed summary...".
Proof.
  destruct (@ai_summary_bounded service_down sample_summarizer
              (stub "OpenAI news" "https://example.com/a" "A feed summary"))
    as [Hlen Hfall].
  split; [exact Hlen|].
  apply Hfall. right. intros request. exists (RequestException "APIError").
  reflexivity.
Defined.

(** A batch of two crawled articles with a service that answers, under
    [config.py] as it stands: the handler makes both entries. *)
Lemma generate_summary_entries_witness :
  let articles :=
    [ dated "OpenAI news" "Daily" 1 "about GPT";
      dated "Chip prices" "Weekly" 2 "more" ] in
  exists res,
    @generate_summary plain_lib repository_config
      (constant_service (py "  GPT is here ")) sample_summarizer 0 articles
    = Ok res /\
    total_count res = Some 2 /\
    Forall2 (@summarized_by_handler (constant_service (py "  GPT is here ")))
            articles (res_articles res) /\
    top_keywords res = default_keywords.
Proof.
  intros articles.
  destruct (@generate_summary_entries plain_lib repository_config
              (constant_service (py "  GPT is here ")) sample_summarizer 0
              articles)
    as (res & Hrun & Hcount & _ & _ & _ & Hhandler).
  - intros Heq. discriminate Heq.
  - repeat constructor; intros Heq; discriminate Heq.
  - exists res. destruct (Hhandler eq_refl) as (Hall & _ & Htop).
    repeat split; assumption.
Defined.

(** A stub of the crawler's scenarios has no url: the batch is lost. *)
Lemma generate_summary_missing_key_witness :
  @generate_summary plain_lib sample_config
    (constant_service (py "  GPT is here ")) sample_summarizer 0
    ([dated "OpenAI news" "Daily" 1 "about GPT"]
       ++ stub "Chip prices" "https://example.com/a" "A feed summary"
       :: [dated "Later" "Weekly" 2 "more"])
  = Raise (KeyError "url").
Proof.
  apply (@generate_summary_missing_key plain_lib sample_config
           (constant_service (py "  GPT is here ")) sample_summarizer 0
           [dated "OpenAI news" "Daily" 1 "about GPT"]
           [dated "Later" "Weekly" 2 "more"]
           (stub "Chip prices" "https://example.com/a" "A feed summary")).
  - repeat constructor; intros Heq; discriminate Heq.
  - right. reflexivity.
Defined.

Lemma summary_top_keywords_witness :
  let articles :=
    [ dated "OpenAI news" "Daily" 1 "about GPT";
      dated "Chip prices" "Weekly" 2 "more" ] in
  exists res,
    @generate_summary plain_lib sample_config service_down
      sample_summarizer 0 articles
    = Ok res /\
    top_keywords res <> [] /\
    length (top_keywords res) <= 10 /\
    ((Forall (fun e => sa_keywords e = []) (res_articles res) /\
      top_keywords res = default_keywords) \/
     (Exists (fun e => sa_keywords e <> []) (res_articles res) /\
      forall k, In k (top_keywords res) ->
        In k (@AI_KEYWORDS sample_config) /\
        exists a t, In a articles /\ title a = Some t /\
          contains
            (@lower plain_lib
               (t ++ [SPACE]
                  ++ @_generate_ai_summary service_down sample_summarizer a))
            (@lower plain_lib k) = true)).
Proof.
  intros articles.
  apply (@summary_top_keywords plain_lib sample_config service_down
           sample_summarizer 0 articles).
  - intros Heq. discriminate Heq.
  - repeat constructor; intros Heq; discriminate Heq.
Defined.
